(** * txstatsd: the message processor and the client-side flush

    A shallow embedding of [txstatsd/server/processor.py] and of
    [Metrics.flush], [Metrics.write] and [Metrics.fully_qualify_name] from
    [txstatsd/metrics/metrics.py].

    Conventions of the embedding.
    - The code base is Python 3 code: the processor works on [bytes], the
      client on [str]; [/] is true division, also on two integers;
      [round] rounds halves to the even neighbour; [re.sub] with a bytes
      pattern and a [str] replacement raises [TypeError] once it has
      something to replace.  Byte strings are [string]s, integers are [Z].
    - A Python float is an IEEE 754 binary64 number, [spec_float] at
      precision 53 with the operations of [SpecFloat]: sums, products and
      quotients round to nearest, ties to even, and overflow to an infinity;
      [int] and [round] of a float raise on the non-finite values.  The
      builtin [float] on bytes is a parameter of the development;
      [Literal.float] is the instance used to evaluate the model on concrete
      payloads.
    - A [dict] is an association list iterated in insertion order.
    - A [str] is a [string] of code points below 256.
    - Exceptions, state and the values a generator yields are threaded
      through a small monad [Gen]. *)

From Stdlib Require Import String Ascii List ZArith Lia Bool.
From Stdlib Require Import DecimalString Permutation Sorted SpecFloat.
Import ListNotations.

Open Scope string_scope.
Open Scope Z_scope.

(** ** Byte strings and the regular expressions of the module *)

Module Bytes.

Definition code (c : ascii) : N := N_of_ascii c.

Definition in_range (lo hi c : ascii) : bool :=
  ((code lo <=? code c) && (code c <=? code hi))%N.

(** [\s] of a bytes pattern: space, and the controls from TAB to CR. *)
Definition is_space (c : ascii) : bool :=
  ((code c =? 32) || ((9 <=? code c) && (code c <=? 13)))%N.

Definition is_digit (c : ascii) : bool := in_range "0" "9" c.

Definition is_slash (c : ascii) : bool := Ascii.eqb c "/".

(** The complement of the class of [NON_ALNUM], [[^a-zA-Z_\-0-9\.]]. *)
Definition is_safe (c : ascii) : bool :=
  in_range "a" "z" c || in_range "A" "Z" c || Ascii.eqb c "_"
  || Ascii.eqb c "-" || in_range "0" "9" c || Ascii.eqb c ".".

(** Some byte of [s] is of the class. *)
Fixpoint has (p : ascii -> bool) (s : string) : bool :=
  match s with
  | EmptyString => false
  | String c s' => p c || has p s'
  end.

Fixpoint all_bytes (p : ascii -> bool) (s : string) : bool :=
  match s with
  | EmptyString => true
  | String c s' => p c && all_bytes p s'
  end.

(** [sep in s] for a one-byte separator. *)
Fixpoint contains (sep : ascii) (s : string) : bool :=
  match s with
  | EmptyString => false
  | String c s' => Ascii.eqb c sep || contains sep s'
  end.

(** [s.split(sep)] for a one-byte separator: never empty. *)
Fixpoint split (sep : ascii) (s : string) : list string :=
  match s with
  | EmptyString => [EmptyString]
  | String c s' =>
      if Ascii.eqb c sep then EmptyString :: split sep s'
      else match split sep s' with
           | [] => [String c EmptyString]
           | f :: fs => String c f :: fs
           end
  end.

(** [s.split(sep, 1)] as the pair of the text before the first [sep] and
    the text after it; [None] when [s] holds no [sep] (the source then
    gets a one-element list). *)
Fixpoint split_once (sep : ascii) (s : string) : option (string * string) :=
  match s with
  | EmptyString => None
  | String c s' =>
      if Ascii.eqb c sep then Some (EmptyString, s')
      else match split_once sep s' with
           | Some (a, b) => Some (String c a, b)
           | None => None
           end
  end.

Fixpoint lstrip (s : string) : string :=
  match s with
  | EmptyString => EmptyString
  | String c s' => if is_space c then lstrip s' else s
  end.

Fixpoint rstrip (s : string) : string :=
  match s with
  | EmptyString => EmptyString
  | String c s' =>
      match rstrip s' with
      | EmptyString => if is_space c then EmptyString
                       else String c EmptyString
      | r => String c r
      end
  end.

(** [s.strip()]. *)
Definition strip (s : string) : string := rstrip (lstrip s).

(** [sep.join(l)]. *)
Fixpoint join (sep : string) (l : list string) : string :=
  match l with
  | [] => EmptyString
  | [x] => x
  | x :: rest => x ++ sep ++ join sep rest
  end.

(** ["%d" % z]. *)
Definition of_int (z : Z) : string := NilZero.string_of_int (Z.to_int z).

(** The longest prefix of [s] made of bytes of the class, and the rest. *)
Fixpoint span (p : ascii -> bool) (s : string) : string * string :=
  match s with
  | EmptyString => (EmptyString, EmptyString)
  | String c s' =>
      if p c then let '(a, b) := span p s' in (String c a, b)
      else (EmptyString, s)
  end.

End Bytes.

(** ** Exceptions *)

Inductive exn : Type :=
| ZeroDivisionError
| ValueError
| OverflowError
| TypeError
| UnboundLocalError
| IndexError
| KeyError
| Foreign (tag : string).   (* raised inside a reporter or a plugin *)

Inductive result (A : Type) : Type :=
| Ok (a : A)
| Raise (e : exn).
Arguments Ok {A} a.
Arguments Raise {A} e.

(** ** The regular expressions of the module *)

(** [pattern.sub(repl, key)] for a bytes pattern that matches bytes of the
    class [p], and a replacement that is a [str].  Without a match the bytes
    come back as they are.  With a match, the pieces of [key] and the copies
    of the replacement are joined as bytes, which raises [TypeError]. *)
Definition sub_str (p : ascii -> bool) (key : string) : result string :=
  if Bytes.has p key then Raise TypeError else Ok key.

(** [SPACES], [SLASHES] and [NON_ALNUM] applied as in the source. *)
Definition normalize_key (key : string) : result string :=
  match sub_str Bytes.is_space key with
  | Raise e => Raise e
  | Ok key =>
      match sub_str Bytes.is_slash key with
      | Raise e => Raise e
      | Ok key =>
          match sub_str (fun c => negb (Bytes.is_safe c)) key with
          | Raise e => Raise e
          | Ok key => Ok key
          end
      end
  end.

(** [RATE.match(s)]: [Some] of group 1 when [s] starts with [@] followed by
    at least one byte of [[\d\.]]; the group is the longest such run. *)
Definition is_rate_byte (c : ascii) : bool :=
  Bytes.is_digit c || Ascii.eqb c ".".

Definition RATE_match (s : string) : option string :=
  match s with
  | String "@" rest =>
      match Bytes.span is_rate_byte rest with
      | (EmptyString, _) => None
      | (g, _) => Some g
      end
  | _ => None
  end.

(** ** Numbers *)

(** Python floats: binary64. *)
Module Float.

Definition t : Type := spec_float.

Definition prec : Z := 53.
Definition emax : Z := 1024.

Definition zero : t := S754_zero false.

Definition add : t -> t -> t := SFadd prec emax.
Definition sub : t -> t -> t := SFsub prec emax.
Definition mul : t -> t -> t := SFmul prec emax.
Definition div : t -> t -> t := SFdiv prec emax.

Definition eqb : t -> t -> bool := SFeqb.
Definition ltb : t -> t -> bool := SFltb.
Definition leb : t -> t -> bool := SFleb.

Definition is_nan (x : t) : bool :=
  match x with S754_nan => true | _ => false end.

Definition is_zero (x : t) : bool :=
  match x with S754_zero _ => true | _ => false end.

Definition is_finite (x : t) : bool :=
  match x with S754_zero _ | S754_finite _ _ _ => true | _ => false end.

(** The float nearest to the integer [z], an infinity when [z] is beyond
    the range of the floats. *)
Definition of_Z (z : Z) : t := binary_normalize prec emax z 0 false.

(** [float(z)] of an integer. *)
Definition of_int (z : Z) : result t :=
  let x := of_Z z in
  if is_finite x then Ok x else Raise OverflowError.

(** [a / b] of two integers, [b] not 0: the float nearest to the quotient,
    which has the sign of the quotient also when [a] is 0. *)
Definition int_div (a b : Z) : result t :=
  let negative := xorb (a <? 0) (b <? 0) in
  match Z.abs a, Z.abs b with
  | Zpos ma, Zpos mb =>
      let x := div (S754_finite negative ma 0) (S754_finite false mb 0) in
      if is_finite x then Ok x else Raise OverflowError
  | _, _ => Ok (S754_zero negative)
  end.

(** The integer part of a finite float that is not 0, without its sign. *)
Definition magnitude (m : positive) (e : Z) : Z := Z.shiftl (Zpos m) e.

(** [int(x)]: truncation toward zero. *)
Definition to_int (x : t) : result Z :=
  match x with
  | S754_nan => Raise ValueError
  | S754_infinity _ => Raise OverflowError
  | S754_zero _ => Ok 0
  | S754_finite s m e => Ok (cond_Zopp s (magnitude m e))
  end.

(** [round(x)]: the nearest integer, the even one of two that are equally
    near. *)
Definition round (x : t) : result Z :=
  match x with
  | S754_nan => Raise ValueError
  | S754_infinity _ => Raise OverflowError
  | S754_zero _ => Ok 0
  | S754_finite s m e =>
      let q := magnitude m e in
      let q :=
        if 0 <=? e then q
        else
          let unit := Z.shiftl 1 (- e) in
          match 2 * (Zpos m mod unit) ?= unit with
          | Lt => q
          | Gt => q + 1
          | Eq => if Z.even q then q else q + 1
          end in
      Ok (cond_Zopp s q)
  end.

(** The order of an integer and a float, compared exactly. *)
Definition compare_int (z : Z) (x : t) : option comparison :=
  match x with
  | S754_nan => None
  | S754_infinity s => Some (if s then Gt else Lt)
  | S754_zero _ => Some (z ?= 0)
  | S754_finite s m e =>
      let v := cond_Zopp s (Zpos m) in
      if 0 <=? e then Some (z ?= v * 2 ^ e)
      else Some (z * 2 ^ (- e) ?= v)
  end.

End Float.

(** A Python number: an [int] or a [float]. *)
Inductive number : Type :=
| Int (z : Z)
| Float (x : Float.t).

(** The arithmetic of numbers.  An operation on two integers is exact.  In
    a sum, difference or product that mixes an integer and a float, the
    integer is replaced by the float nearest to it: that is what Python
    does for an integer within the range of the floats, and the integers
    the processor mixes with floats are the literals [0], [1], [100] and
    [1000], and lengths of lists.  A quotient converts as Python does,
    with [OverflowError] for an integer beyond that range. *)
Module Num.

Definition to_float (a : number) : Float.t :=
  match a with
  | Int z => Float.of_Z z
  | Float x => x
  end.

Definition add (a b : number) : number :=
  match a, b with
  | Int x, Int y => Int (x + y)
  | _, _ => Float (Float.add (to_float a) (to_float b))
  end.

Definition sub (a b : number) : number :=
  match a, b with
  | Int x, Int y => Int (x - y)
  | _, _ => Float (Float.sub (to_float a) (to_float b))
  end.

Definition mul (a b : number) : number :=
  match a, b with
  | Int x, Int y => Int (x * y)
  | _, _ => Float (Float.mul (to_float a) (to_float b))
  end.

(** [float(a)]. *)
Definition float (a : number) : result Float.t :=
  match a with
  | Int z => Float.of_int z
  | Float x => Ok x
  end.

(** [a / b]. *)
Definition truediv (a b : number) : result number :=
  match a, b with
  | Int x, Int y =>
      if y =? 0 then Raise ZeroDivisionError
      else match Float.int_div x y with
           | Ok q => Ok (Float q)
           | Raise e => Raise e
           end
  | _, _ =>
      match float a with
      | Raise e => Raise e
      | Ok x =>
          match float b with
          | Raise e => Raise e
          | Ok y =>
              if Float.is_zero y then Raise ZeroDivisionError
              else Ok (Float (Float.div x y))
          end
      end
  end.

(** [int(a)]. *)
Definition to_int (a : number) : result Z :=
  match a with
  | Int z => Ok z
  | Float x => Float.to_int x
  end.

(** [round(a)]. *)
Definition round (a : number) : result Z :=
  match a with
  | Int z => Ok z
  | Float x => Float.round x
  end.

(** The order of two numbers, compared exactly; none when one is NaN. *)
Definition compare (a b : number) : option comparison :=
  match a, b with
  | Int x, Int y => Some (x ?= y)
  | Int x, Float y => Float.compare_int x y
  | Float x, Int y =>
      match Float.compare_int y x with
      | Some c => Some (CompOpp c)
      | None => None
      end
  | Float x, Float y => SFcompare x y
  end.

Definition eqb (a b : number) : bool :=
  match compare a b with Some Eq => true | _ => false end.

Definition ltb (a b : number) : bool :=
  match compare a b with Some Lt => true | _ => false end.

End Num.

(** [sum(l)]: the items are added from left to right to the integer [0],
    each sum rounded, as CPython does up to version 3.11 (later versions
    compensate the rounding errors of a sum of floats). *)
Definition py_sum (l : list Float.t) : number :=
  fold_left (fun acc x => Num.add acc (Float x)) l (Int 0).

(** [l[:i]]: a negative [i] counts from the end. *)
Definition slice_to {A : Type} (l : list A) (i : Z) : list A :=
  if i <? 0 then firstn (Z.to_nat (Z.of_nat (length l) + i)) l
  else firstn (Z.to_nat i) l.

(** [l.sort()] on floats: a stable insertion sort, which gives what any
    stable sort gives as long as no item is NaN. *)
Fixpoint insert_sorted (x : Float.t) (l : list Float.t) : list Float.t :=
  match l with
  | [] => [x]
  | y :: l' => if Float.ltb y x then y :: insert_sorted x l' else x :: l
  end.

Definition sort (l : list Float.t) : list Float.t :=
  fold_right insert_sorted [] l.

(** ** Dictionaries *)

Module Dict.

Definition t (V : Type) : Type := list (string * V).

Fixpoint get {V : Type} (k : string) (d : t V) : option V :=
  match d with
  | [] => None
  | (k', v) :: d' => if String.eqb k k' then Some v else get k d'
  end.

Definition mem {V : Type} (k : string) (d : t V) : bool :=
  match get k d with Some _ => true | None => false end.

(** [d[k] = v]: in place when [k] is present, a new last entry otherwise. *)
Fixpoint set {V : Type} (k : string) (v : V) (d : t V) : t V :=
  match d with
  | [] => [(k, v)]
  | (k', v') :: d' =>
      if String.eqb k k' then (k, v) :: d' else (k', v') :: set k v d'
  end.

(** [d.setdefault(k, v)]. *)
Definition setdefault {V : Type} (k : string) (v : V) (d : t V) : t V :=
  if mem k d then d else set k v d.

Definition keys {V : Type} (d : t V) : list string := map fst d.

Definition values {V : Type} (d : t V) : list V := map snd d.

End Dict.

(** ** Sets of names

    A [set] of byte strings as the list of its members, each listed once.
    Python leaves the order in which a set is enumerated unspecified: here
    a member stands where its first insertion put it, and the statements
    about a set speak of membership only. *)

Module StrSet.

Definition t : Type := list string.

Definition mem (x : string) (s : t) : bool := existsb (String.eqb x) s.

Definition add (x : string) (s : t) : t :=
  if mem x s then s else (s ++ [x])%list.

(** [s.update(xs)]. *)
Definition update (xs : list string) (s : t) : t :=
  fold_left (fun s x => add x s) xs s.

End StrSet.

(** ** Generators and methods: state, exceptions and yielded values *)

Record outcome (S Y A : Type) : Type := Outcome {
  value : result A;      (* what the call returned or raised *)
  state : S;             (* the object after the call *)
  yielded : list Y       (* what it yielded, oldest first *)
}.
Arguments Outcome {S Y A} value state yielded.
Arguments value {S Y A} o.
Arguments state {S Y A} o.
Arguments yielded {S Y A} o.

Definition Gen (S Y A : Type) : Type := S -> outcome S Y A.

Definition ret {S Y A : Type} (a : A) : Gen S Y A :=
  fun s => Outcome (Ok a) s [].

Definition raise {S Y A : Type} (e : exn) : Gen S Y A :=
  fun s => Outcome (Raise e) s [].

Definition bind {S Y A B : Type} (m : Gen S Y A) (k : A -> Gen S Y B)
    : Gen S Y B :=
  fun s =>
    match m s with
    | Outcome (Ok a) s' ys =>
        match k a s' with
        | Outcome v s'' ys' => Outcome v s'' (ys ++ ys')
        end
    | Outcome (Raise e) s' ys => Outcome (Raise e) s' ys
    end.

Definition get {S Y : Type} : Gen S Y S := fun s => Outcome (Ok s) s [].

Definition modify {S Y : Type} (f : S -> S) : Gen S Y unit :=
  fun s => Outcome (Ok tt) (f s) [].

Definition yield {S Y : Type} (y : Y) : Gen S Y unit :=
  fun s => Outcome (Ok tt) s [y].

Definition lift {S Y A : Type} (r : result A) : Gen S Y A :=
  match r with Ok a => ret a | Raise e => raise e end.

Arguments ret {S Y A} a s /.
Arguments raise {S Y A} e s /.
Arguments bind {S Y A B} m k s /.
Arguments get {S Y} s /.
Arguments modify {S Y} f s /.
Arguments yield {S Y} y s /.

Declare Scope gen_scope.
Delimit Scope gen_scope with gen.
Notation "x <- m ;; k" := (bind m (fun x => k))
  (at level 61, m at next level, right associativity) : gen_scope.
Notation "m ;; k" := (bind m (fun _ => k))
  (at level 61, right associativity) : gen_scope.
Open Scope gen_scope.

(** [for x in l: body(x)]. *)
Fixpoint for_each {S Y A : Type} (l : list A) (body : A -> Gen S Y unit)
    : Gen S Y unit :=
  match l with
  | [] => ret tt
  | x :: l' => body x ;; for_each l' body
  end.

(** [l[i]] for [i >= 0]. *)
Definition item {S Y A : Type} (l : list A) (i : nat) : Gen S Y A :=
  match nth_error l i with
  | Some x => ret x
  | None => raise IndexError
  end.

(** [l[-1]]. *)
Definition last_item {S Y A : Type} (l : list A) : Gen S Y A :=
  match rev l with
  | x :: _ => ret x
  | [] => raise IndexError
  end.

(** An emitted metric: [(name, value, timestamp)]. *)
Definition emission : Type := string * number * Z.

(** The loop of [flush] over one of the per-kind generators,
    [[
        events = 0
        for metrics in g:
            for metric in metrics:
                yield metric
            events += 1
    ]]
    it yields the members of every group [g] yields and counts the groups. *)
Definition drain {S : Type} (g : Gen S (list emission) unit)
    : Gen S emission Z :=
  fun s =>
    match g s with
    | Outcome (Ok _) s' groups =>
        Outcome (Ok (Z.of_nat (length groups))) s' (concat groups)
    | Outcome (Raise e) s' groups => Outcome (Raise e) s' (concat groups)
    end.

(** ** The collaborators of the processor

    [txstatsd.metrics.metermetric.MeterMetricReporter] and the plugins are
    objects the processor only calls.  A call returns the object as the call
    left it, together with what the call returned or raised. *)

Class MeterMetricReporter (R : Type) : Type := {
  (* [MeterMetricReporter(name, wall_time_func, prefix=prefix)] *)
  reporter_new : forall (name prefix : string), R;
  mark : R -> Float.t -> R * result unit;
  report : R -> Z -> R * result (list emission)
}.

Class Plugin (F M : Type) : Type := {
  metric_type : F -> string;
  name : F -> string;
  (* [factory.build_metric(prefix, name=key, wall_time_func=...)] *)
  build_metric : F -> forall (prefix key : string), M;
  plugin_process : M -> list string -> M * result unit;
  plugin_flush : M -> forall (interval : number) (timestamp : Z),
      M * result (list emission)
}.

(** What [log.msg] receives. *)
Inductive log_entry : Type :=
| BadLine (message : string)
| Flushed (count : Z) (kind : string) (duration : Float.t)
| Processing (count : Z) (kind : string) (duration : number).

(** ** [MessageProcessor] *)

Section MessageProcessor.

(** The builtin [float] on a byte string: [None] is [ValueError]. *)
Variable float : string -> option Float.t.

(** [time_function n] is what the [n]-th call the processor makes to its
    [time_function] returns. *)
Variable time_function : nat -> Float.t.

Context {R F M : Type} `{MeterMetricReporter R} `{Plugin F M}.

Record processor : Type := Processor {
  stats_prefix : string;
  internal_metrics_prefix : string;
  count_prefix : string;
  timer_prefix : string;
  gauge_prefix : string;
  process_timings : Dict.t number;
  by_type : Dict.t Z;
  last_flush_duration : number;
  last_process_duration : number;
  timer_metrics : Dict.t (list Float.t);
  counter_metrics : Dict.t number;
  gauge_metrics : list (Float.t * string);
  meter_metrics : Dict.t R;
  plugins : Dict.t F;
  plugin_metrics : Dict.t M;
  clock : nat;                 (* calls made to [time_function] *)
  log : list log_entry;        (* [log.msg] *)
  stdout : list string         (* the bytes handed to [print] *)
}.

(** [MessageProcessor(time_function, plugins)]. *)
Definition MessageProcessor (plugin_list : list F) : processor :=
  {| stats_prefix := "stats.";
     internal_metrics_prefix := "statsd.";
     count_prefix := "stats_counts.";
     timer_prefix := "stats." ++ "timers.";
     gauge_prefix := "stats." ++ "gauge.";
     process_timings := [];
     by_type := [];
     last_flush_duration := Int 0;
     last_process_duration := Int 0;
     timer_metrics := [];
     counter_metrics := [];
     gauge_metrics := [];
     meter_metrics := [];
     plugins :=
       fold_left (fun d plugin => Dict.set (metric_type plugin) plugin d)
                 plugin_list [];
     plugin_metrics := [];
     clock := 0;
     log := [];
     stdout := [] |}.

Definition set_process_timings (v : Dict.t number) (p : processor)
    : processor :=
  Processor (stats_prefix p) (internal_metrics_prefix p) (count_prefix p)
    (timer_prefix p) (gauge_prefix p) v (by_type p)
    (last_flush_duration p) (last_process_duration p) (timer_metrics p)
    (counter_metrics p) (gauge_metrics p) (meter_metrics p) (plugins p)
    (plugin_metrics p) (clock p) (log p) (stdout p).

Definition set_by_type (v : Dict.t Z) (p : processor) : processor :=
  Processor (stats_prefix p) (internal_metrics_prefix p) (count_prefix p)
    (timer_prefix p) (gauge_prefix p) (process_timings p) v
    (last_flush_duration p) (last_process_duration p) (timer_metrics p)
    (counter_metrics p) (gauge_metrics p) (meter_metrics p) (plugins p)
    (plugin_metrics p) (clock p) (log p) (stdout p).

Definition set_last_flush_duration (v : number) (p : processor) : processor :=
  Processor (stats_prefix p) (internal_metrics_prefix p) (count_prefix p)
    (timer_prefix p) (gauge_prefix p) (process_timings p) (by_type p)
    v (last_process_duration p) (timer_metrics p)
    (counter_metrics p) (gauge_metrics p) (meter_metrics p) (plugins p)
    (plugin_metrics p) (clock p) (log p) (stdout p).

Definition set_last_process_duration (v : number) (p : processor) : processor :=
  Processor (stats_prefix p) (internal_metrics_prefix p) (count_prefix p)
    (timer_prefix p) (gauge_prefix p) (process_timings p) (by_type p)
    (last_flush_duration p) v (timer_metrics p)
    (counter_metrics p) (gauge_metrics p) (meter_metrics p) (plugins p)
    (plugin_metrics p) (clock p) (log p) (stdout p).

Definition set_timer_metrics (v : Dict.t (list Float.t)) (p : processor)
    : processor :=
  Processor (stats_prefix p) (internal_metrics_prefix p) (count_prefix p)
    (timer_prefix p) (gauge_prefix p) (process_timings p) (by_type p)
    (last_flush_duration p) (last_process_duration p) v
    (counter_metrics p) (gauge_metrics p) (meter_metrics p) (plugins p)
    (plugin_metrics p) (clock p) (log p) (stdout p).

Definition set_counter_metrics (v : Dict.t number) (p : processor)
    : processor :=
  Processor (stats_prefix p) (internal_metrics_prefix p) (count_prefix p)
    (timer_prefix p) (gauge_prefix p) (process_timings p) (by_type p)
    (last_flush_duration p) (last_process_duration p) (timer_metrics p)
    v (gauge_metrics p) (meter_metrics p) (plugins p)
    (plugin_metrics p) (clock p) (log p) (stdout p).

Definition set_gauge_metrics (v : list (Float.t * string)) (p : processor)
    : processor :=
  Processor (stats_prefix p) (internal_metrics_prefix p) (count_prefix p)
    (timer_prefix p) (gauge_prefix p) (process_timings p) (by_type p)
    (last_flush_duration p) (last_process_duration p) (timer_metrics p)
    (counter_metrics p) v (meter_metrics p) (plugins p)
    (plugin_metrics p) (clock p) (log p) (stdout p).

Definition set_meter_metrics (v : Dict.t R) (p : processor) : processor :=
  Processor (stats_prefix p) (internal_metrics_prefix p) (count_prefix p)
    (timer_prefix p) (gauge_prefix p) (process_timings p) (by_type p)
    (last_flush_duration p) (last_process_duration p) (timer_metrics p)
    (counter_metrics p) (gauge_metrics p) v (plugins p)
    (plugin_metrics p) (clock p) (log p) (stdout p).

Definition set_plugin_metrics (v : Dict.t M) (p : processor) : processor :=
  Processor (stats_prefix p) (internal_metrics_prefix p) (count_prefix p)
    (timer_prefix p) (gauge_prefix p) (process_timings p) (by_type p)
    (last_flush_duration p) (last_process_duration p) (timer_metrics p)
    (counter_metrics p) (gauge_metrics p) (meter_metrics p) (plugins p)
    v (clock p) (log p) (stdout p).

Definition set_clock (v : nat) (p : processor) : processor :=
  Processor (stats_prefix p) (internal_metrics_prefix p) (count_prefix p)
    (timer_prefix p) (gauge_prefix p) (process_timings p) (by_type p)
    (last_flush_duration p) (last_process_duration p) (timer_metrics p)
    (counter_metrics p) (gauge_metrics p) (meter_metrics p) (plugins p)
    (plugin_metrics p) v (log p) (stdout p).

Definition set_log (v : list log_entry) (p : processor) : processor :=
  Processor (stats_prefix p) (internal_metrics_prefix p) (count_prefix p)
    (timer_prefix p) (gauge_prefix p) (process_timings p) (by_type p)
    (last_flush_duration p) (last_process_duration p) (timer_metrics p)
    (counter_metrics p) (gauge_metrics p) (meter_metrics p) (plugins p)
    (plugin_metrics p) (clock p) v (stdout p).

Definition set_stdout (v : list string) (p : processor) : processor :=
  Processor (stats_prefix p) (internal_metrics_prefix p) (count_prefix p)
    (timer_prefix p) (gauge_prefix p) (process_timings p) (by_type p)
    (last_flush_duration p) (last_process_duration p) (timer_metrics p)
    (counter_metrics p) (gauge_metrics p) (meter_metrics p) (plugins p)
    (plugin_metrics p) (clock p) (log p) v.

(** [get_metric_names]: the names of all seen metrics.  An element of
    [gauge_metrics] is the list [[value, key]], which the generator unpacks
    as [k, v]: the name is its second member. *)
Definition get_metric_names (p : processor) : list string :=
  let metrics : StrSet.t := [] in
  let metrics := StrSet.update (Dict.keys (timer_metrics p)) metrics in
  let metrics := StrSet.update (Dict.keys (counter_metrics p)) metrics in
  let metrics :=
    StrSet.update (map (fun '(k, v) => v) (gauge_metrics p)) metrics in
  let metrics := StrSet.update (Dict.keys (meter_metrics p)) metrics in
  let metrics := StrSet.update (Dict.keys (plugin_metrics p)) metrics in
  metrics.

(** A method of the processor that yields values of type [Y]. *)
Definition method (Y A : Type) : Type := Gen processor Y A.

(** [self.time_function()]. *)
Definition now {Y : Type} : method Y Float.t :=
  fun p => Outcome (Ok (time_function (clock p)))
                   (set_clock (S (clock p)) p) [].

(** [float(x)] for a byte string [x]. *)
Definition py_float {Y : Type} (x : string) : method Y Float.t :=
  match float x with
  | Some v => ret v
  | None => raise ValueError
  end.

(** [BaseMessageProcessor.rebuild_message]. *)
Definition rebuild_message (metric_type key : string) (fields : list string)
    : string :=
  key ++ ":" ++ Bytes.join "|" fields.

(** [BaseMessageProcessor.fail]: log and discard. *)
Definition fail {Y : Type} (message : string) : method Y unit :=
  modify (fun p => set_log (log p ++ [BadLine message]) p).

(** *** Ingestion *)

Definition compose_timer_metric {Y : Type} (key : string)
    (duration : Float.t) : method Y unit :=
  p <- get ;;
  (if negb (Dict.mem key (timer_metrics p))
   then modify (fun p => set_timer_metrics
                           (Dict.set key [] (timer_metrics p)) p)
   else ret tt) ;;
  p <- get ;;
  match Dict.get key (timer_metrics p) with
  | None => raise KeyError
  | Some l =>
      modify (fun p => set_timer_metrics
                         (Dict.set key (l ++ [duration])%list (timer_metrics p))
                         p)
  end.

Definition process_timer_metric {Y : Type} (key duration message : string)
    : method Y unit :=
  match float duration with
  | None => fail message
  | Some duration => compose_timer_metric key duration
  end.

(** The [rate] argument of [compose_counter_metric] is the integer [1] or
    the bytes of group 1 of [RATE]. *)
Inductive rate_arg : Type :=
| RateInt (z : Z)
| RateBytes (s : string).

(** [float(rate)]. *)
Definition float_of_rate {Y : Type} (rate : rate_arg) : method Y Float.t :=
  match rate with
  | RateInt z => lift (Float.of_int z)
  | RateBytes s => py_float s
  end.

Definition compose_counter_metric {Y : Type} (key : string)
    (value : Float.t) (rate : rate_arg) : method Y unit :=
  p <- get ;;
  (if negb (Dict.mem key (counter_metrics p))
   then modify (fun p => set_counter_metrics
                           (Dict.set key (Int 0) (counter_metrics p)) p)
   else ret tt) ;;
  p <- get ;;
  match Dict.get key (counter_metrics p) with
  | None => raise KeyError
  | Some count =>
      r <- float_of_rate rate ;;
      inv <- lift (Num.truediv (Int 1) (Float r)) ;;
      modify (fun p => set_counter_metrics
                         (Dict.set key
                                   (Num.add count (Num.mul (Float value) inv))
                                   (counter_metrics p)) p)
  end.

Definition process_counter_metric {Y : Type} (key : string)
    (composite : list string) (message : string) : method Y unit :=
  c0 <- item composite 0 ;;
  match float c0 with
  | None => fail message
  | Some value =>
      if (length composite =? 3)%nat then
        c2 <- item composite 2 ;;
        match RATE_match c2 with
        | None => fail message
        | Some rate => compose_counter_metric key value (RateBytes rate)
        end
      else compose_counter_metric key value (RateInt 1)
  end.

Definition compose_gauge_metric {Y : Type} (key : string)
    (value : Float.t) : method Y unit :=
  modify (fun p => set_gauge_metrics (gauge_metrics p ++ [(value, key)]) p).

(** When [float] raises, the handler calls [fail] and does not return:
    the next statement reads [value], which was never bound. *)
Definition process_gauge_metric {Y : Type} (key composite message : string)
    : method Y unit :=
  let values := Bytes.split ":" composite in
  if negb (length values =? 1)%nat then fail message
  else
    v0 <- item values 0 ;;
    match float v0 with
    | None => fail message ;; raise UnboundLocalError
    | Some value => compose_gauge_metric key value
    end.

Definition compose_meter_metric {Y : Type} (key : string)
    (value : Float.t) : method Y unit :=
  p <- get ;;
  (if negb (Dict.mem key (meter_metrics p))
   then modify (fun p => set_meter_metrics
                           (Dict.set key (reporter_new key "stats.meter")
                                     (meter_metrics p)) p)
   else ret tt) ;;
  p <- get ;;
  match Dict.get key (meter_metrics p) with
  | None => raise KeyError
  | Some metric =>
      let '(metric, r) := mark metric value in
      modify (fun p => set_meter_metrics
                         (Dict.set key metric (meter_metrics p)) p) ;;
      lift r
  end.

Definition process_meter_metric {Y : Type} (key composite message : string)
    : method Y unit :=
  modify (fun p => set_stdout (stdout p ++ [composite]) p) ;;
  let values := Bytes.split ":" composite in
  if negb (length values =? 1)%nat then fail message
  else
    v0 <- item values 0 ;;
    match float v0 with
    | None => fail message ;; raise UnboundLocalError
    | Some value => compose_meter_metric key value
    end.

Definition get_message_prefix (kind : string) : string := "stats." ++ kind.

Definition process_plugin_metric {Y : Type} (metric_type key : string)
    (items : list string) (message : string) : method Y unit :=
  p <- get ;;
  (if negb (Dict.mem key (plugin_metrics p)) then
     match Dict.get metric_type (plugins p) with
     | None => raise KeyError
     | Some factory =>
         let metric :=
           build_metric factory (get_message_prefix (name factory)) key in
         modify (fun p => set_plugin_metrics
                            (Dict.set key metric (plugin_metrics p)) p)
     end
   else ret tt) ;;
  p <- get ;;
  match Dict.get key (plugin_metrics p) with
  | None => raise KeyError
  | Some metric =>
      let '(metric, r) := plugin_process metric items in
      modify (fun p => set_plugin_metrics
                         (Dict.set key metric (plugin_metrics p)) p) ;;
      lift r
  end.

(** The last four statements of [process_message]. *)
Definition record_timing {Y : Type} (metric_type : string)
    (start : Float.t) : method Y unit :=
  modify (fun p => set_process_timings
                     (Dict.setdefault metric_type (Int 0)
                                      (process_timings p)) p) ;;
  p <- get ;;
  match Dict.get metric_type (process_timings p) with
  | None => raise KeyError
  | Some t =>
      stop <- now ;;
      modify (fun p => set_process_timings
                         (Dict.set metric_type
                                   (Num.add t (Float (Float.sub stop start)))
                                   (process_timings p)) p) ;;
      modify (fun p => set_by_type
                         (Dict.setdefault metric_type 0 (by_type p)) p) ;;
      p <- get ;;
      match Dict.get metric_type (by_type p) with
      | None => raise KeyError
      | Some n =>
          modify (fun p => set_by_type
                             (Dict.set metric_type (n + 1) (by_type p)) p)
      end
  end.

Definition process_message {Y : Type} (message metric_type key : string)
    (fields : list string) : method Y unit :=
  start <- now ;;
  if String.eqb metric_type "c" then
    process_counter_metric key fields message ;;
    record_timing metric_type start
  else if String.eqb metric_type "ms" then
    f0 <- item fields 0 ;;
    process_timer_metric key f0 message ;;
    record_timing metric_type start
  else if String.eqb metric_type "g" then
    f0 <- item fields 0 ;;
    process_gauge_metric key f0 message ;;
    record_timing metric_type start
  else if String.eqb metric_type "m" then
    f0 <- item fields 0 ;;
    process_meter_metric key f0 message ;;
    record_timing metric_type start
  else
    p <- get ;;
    if Dict.mem metric_type (plugins p) then
      process_plugin_metric metric_type key fields message ;;
      record_timing metric_type start
    else fail message.

(** [BaseMessageProcessor.process]. *)
Definition process {Y : Type} (message : string) : method Y unit :=
  if negb (Bytes.contains ":" message) then fail message
  else
    match Bytes.split_once ":" (Bytes.strip message) with
    | None => raise ValueError    (* the unpacking of a one-element list *)
    | Some (key, data) =>
        if negb (Bytes.contains "|" data) then fail message
        else
          let fields := Bytes.split "|" data in
          if ((length fields <? 2) || (3 <? length fields))%nat
          then fail message
          else
            key <- lift (normalize_key key) ;;
            metric_type <- item fields 1 ;;
            process_message message metric_type key fields
    end.

(** *** Flushing *)

(** What one step of a per-kind generator yields: a tuple of metrics. *)
Definition group : Type := list emission.

(** [a < b] on tuples [(name, value, timestamp)]: decided by the first
    member that is not equal in the two. *)
Definition emission_ltb (a b : emission) : bool :=
  let '(na, va, ta) := a in
  let '(nb, vb, tb) := b in
  match String.compare na nb with
  | Lt => true
  | Gt => false
  | Eq => if Num.eqb va vb then ta <? tb else Num.ltb va vb
  end.

Fixpoint insert_emission (x : emission) (l : list emission) : list emission :=
  match l with
  | [] => [x]
  | y :: l' => if emission_ltb y x then y :: insert_emission x l' else x :: l
  end.

(** [sorted(l)] on metrics: a stable insertion sort. *)
Definition sorted (l : list emission) : list emission :=
  fold_right insert_emission [] l.

Definition flush_counter_metrics (interval : number) (timestamp : Z)
    : method group unit :=
  p <- get ;;
  for_each (counter_metrics p) (fun '(key, count) =>
    modify (fun p => set_counter_metrics
                       (Dict.set key (Int 0) (counter_metrics p)) p) ;;
    q <- lift (Num.truediv count interval) ;;
    value <- lift (Num.to_int q) ;;
    p <- get ;;
    yield [(stats_prefix p ++ key, Int value, timestamp);
           (count_prefix p ++ key, count, timestamp)]).

(** The statistics of one non-empty bucket, [timers] already sorted:
    [(mean, upper, threshold_upper, lower, count)]. *)
Definition timer_statistics (threshold_value : number)
    (timers : list Float.t)
    : method group (number * Float.t * Float.t * Float.t * Z) :=
  lower <- item timers 0 ;;
  upper <- last_item timers ;;
  let count := Z.of_nat (length timers) in
  if 1 <? count then
    dropped <- lift (Num.round (Num.mul threshold_value (Int count))) ;;
    let index := count - dropped in
    let timers := slice_to timers index in
    threshold_upper <- last_item timers ;;
    q <- lift (Num.truediv (py_sum timers) (Int index)) ;;
    mean <- lift (Num.to_int q) ;;
    ret (Int mean, upper, threshold_upper, lower, count)
  else
    ret (Float lower, upper, upper, lower, count).

Definition flush_timer_metrics (percent timestamp : Z) : method group unit :=
  threshold_value <-
    lift (Num.truediv (Int (100 - percent)) (Float (Float.of_Z 100))) ;;
  p <- get ;;
  for_each (timer_metrics p) (fun '(key, timers) =>
    if (0 <? length timers)%nat then
      modify (fun p => set_timer_metrics
                         (Dict.set key [] (timer_metrics p)) p) ;;
      stats <- timer_statistics threshold_value (sort timers) ;;
      let '(mean, upper, threshold_upper, lower, count) := stats in
      let items := [(".mean", mean);
                    (".upper", Float upper);
                    (".upper_" ++ Bytes.of_int percent, Float threshold_upper);
                    (".lower", Float lower);
                    (".count", Int count)] in
      p <- get ;;
      yield (sorted (map (fun '(item, value) =>
                            (timer_prefix p ++ key ++ item, value, timestamp))
                         items))
    else ret tt).

Definition flush_gauge_metrics (timestamp : Z) : method group unit :=
  p <- get ;;
  for_each (gauge_metrics p) (fun '(value, key) =>
    p <- get ;;
    yield [(gauge_prefix p ++ key ++ ".value", Float value, timestamp)]).

Definition flush_meter_metrics (timestamp : Z) : method group unit :=
  p <- get ;;
  for_each (meter_metrics p) (fun '(key, metric) =>
    let '(metric, messages) := report metric timestamp in
    modify (fun p => set_meter_metrics
                       (Dict.set key metric (meter_metrics p)) p) ;;
    messages <- lift messages ;;
    yield messages).

Definition flush_plugin_metrics (interval : number) (timestamp : Z)
    : method group unit :=
  p <- get ;;
  for_each (plugin_metrics p) (fun '(key, metric) =>
    let '(metric, messages) := plugin_flush metric interval timestamp in
    modify (fun p => set_plugin_metrics
                       (Dict.set key metric (plugin_metrics p)) p) ;;
    messages <- lift messages ;;
    yield messages).

Definition flush_metrics_summary (num_stats : Z)
    (per_metric : Dict.t (Z * Float.t)) (timestamp : Z)
    : method group unit :=
  p <- get ;;
  yield [(internal_metrics_prefix p ++ "numStats", Int num_stats,
          timestamp)] ;;
  modify (set_last_flush_duration (Int 0)) ;;
  for_each per_metric (fun '(name, (value, duration)) =>
    p <- get ;;
    yield [(internal_metrics_prefix p ++ "flush." ++ name ++ ".count",
            Int value, timestamp);
           (internal_metrics_prefix p ++ "flush." ++ name ++ ".duration",
            Num.mul (Float duration) (Int 1000), timestamp)] ;;
    modify (fun p => set_log (log p ++ [Flushed value name duration]) p) ;;
    modify (fun p => set_last_flush_duration
                       (Num.add (last_flush_duration p) (Float duration))
                       p)) ;;
  modify (set_last_process_duration (Int 0)) ;;
  p <- get ;;
  for_each (process_timings p) (fun '(metric_type, duration) =>
    p <- get ;;
    match Dict.get metric_type (by_type p) with
    | None => raise KeyError
    | Some n =>
        yield [(internal_metrics_prefix p ++ "receive." ++ metric_type
                  ++ ".count", Int n, timestamp);
               (internal_metrics_prefix p ++ "receive." ++ metric_type
                  ++ ".duration", Num.mul duration (Int 1000), timestamp)] ;;
        modify (fun p => set_log
                           (log p ++ [Processing n metric_type duration]) p) ;;
        modify (fun p => set_last_process_duration
                           (Num.add (last_process_duration p) duration) p)
    end) ;;
  modify (set_process_timings []) ;;
  modify (set_by_type []).

(** [MessageProcessor.flush], consumed to its end or to the exception that
    stops it.  The defaults are [interval=10000] and [percent=90]. *)
Definition flush (interval percent : Z) : method emission unit :=
  let per_metric : Dict.t (Z * Float.t) := [] in
  let num_stats := 0 in
  interval <- lift (Num.truediv (Int interval) (Int 1000)) ;;
  t <- now ;;
  timestamp <- lift (Float.to_int t) ;;

  start <- now ;;
  events <- drain (flush_counter_metrics interval timestamp) ;;
  stop <- now ;;
  let duration := Float.sub stop start in
  let num_stats := num_stats + events in
  let per_metric := Dict.set "counter" (events, duration) per_metric in

  start <- now ;;
  events <- drain (flush_timer_metrics percent timestamp) ;;
  stop <- now ;;
  let duration := Float.sub stop start in
  let num_stats := num_stats + events in
  let per_metric := Dict.set "timer" (events, duration) per_metric in

  start <- now ;;
  events <- drain (flush_gauge_metrics timestamp) ;;
  stop <- now ;;
  let duration := Float.sub stop start in
  let num_stats := num_stats + events in
  let per_metric := Dict.set "gauge" (events, duration) per_metric in

  start <- now ;;
  events <- drain (flush_meter_metrics timestamp) ;;
  stop <- now ;;
  let duration := Float.sub stop start in
  let num_stats := num_stats + events in
  let per_metric := Dict.set "meter" (events, duration) per_metric in

  start <- now ;;
  events <- drain (flush_plugin_metrics interval timestamp) ;;
  stop <- now ;;
  let duration := Float.sub stop start in
  let num_stats := num_stats + events in
  let per_metric := Dict.set "plugin" (events, duration) per_metric in

  drain (flush_metrics_summary num_stats per_metric timestamp) ;;
  ret tt.

End MessageProcessor.

Arguments processor R F M : clear implicits.

(** ** Instances used to evaluate the model *)

(** The builtin [float] on bytes.  White space around the text is
    dropped and so are underscores that stand between two digits.  What is
    left is an optional sign followed by [inf], [infinity] or [nan] in any
    case, or by a decimal literal
    [(digits [. [digits]] | . digits) [(e|E) [sign] digits]],
    and is read as the float nearest to its value. *)
Module Literal.

Fixpoint digits_value (acc : Z) (s : string) : Z :=
  match s with
  | EmptyString => acc
  | String c s' =>
      digits_value (10 * acc + Z.of_N (Bytes.code c - Bytes.code "0")) s'
  end.

Definition sign (s : string) : bool * string :=
  match s with
  | String "-" s' => (true, s')
  | String "+" s' => (false, s')
  | _ => (false, s)
  end.

Definition is_empty (s : string) : bool :=
  match s with EmptyString => true | _ => false end.

Definition lower (c : ascii) : ascii :=
  if Bytes.in_range "A" "Z" c then ascii_of_N (Bytes.code c + 32) else c.

Fixpoint lowercase (s : string) : string :=
  match s with
  | EmptyString => EmptyString
  | String c s' => String (lower c) (lowercase s')
  end.

(** The text without its underscores; [None] when an underscore does not
    stand between two digits.  [prev] is the byte before [s]. *)
Fixpoint without_underscores (prev : ascii) (s : string) : option string :=
  match s with
  | EmptyString => if Ascii.eqb prev "_" then None else Some EmptyString
  | String c s' =>
      if Ascii.eqb c "_" then
        if Bytes.is_digit prev then without_underscores c s' else None
      else if Ascii.eqb prev "_" && negb (Bytes.is_digit c) then None
      else
        match without_underscores c s' with
        | Some r => Some (String c r)
        | None => None
        end
  end.

(** The exponent part: [Some 0] when absent. *)
Definition exponent (s : string) : option Z :=
  match s with
  | EmptyString => Some 0
  | String c s' =>
      if Ascii.eqb c "e" || Ascii.eqb c "E" then
        let '(neg, s') := sign s' in
        let '(ds, rest) := Bytes.span Bytes.is_digit s' in
        if is_empty ds || negb (is_empty rest) then None
        else Some (if neg then - digits_value 0 ds else digits_value 0 ds)
      else None
  end.

(** The float nearest to [m * 10 ^ e], for [m >= 0], with the sign asked
    for. *)
Definition scale (negative : bool) (m e : Z) : Float.t :=
  match m with
  | Zpos mantissa =>
      if 0 <=? e then
        binary_round Float.prec Float.emax negative
                     (mantissa * Z.to_pos (10 ^ e)) 0
      else
        Float.div (S754_finite negative mantissa 0)
                  (S754_finite false (Z.to_pos (10 ^ (- e))) 0)
  | _ => S754_zero negative
  end.

Definition decimal (negative : bool) (s : string) : option Float.t :=
  let '(ip, s) := Bytes.span Bytes.is_digit s in
  let '(fp, s) :=
    match s with
    | String "." s' => Bytes.span Bytes.is_digit s'
    | _ => (EmptyString, s)
    end in
  if is_empty ip && is_empty fp then None
  else
    match exponent s with
    | None => None
    | Some e =>
        Some (scale negative (digits_value 0 (ip ++ fp))
                    (e - Z.of_nat (String.length fp)))
    end.

Definition float (s : string) : option Float.t :=
  match without_underscores zero (Bytes.strip s) with
  | None => None
  | Some s =>
      let '(negative, body) := sign s in
      match decimal negative body with
      | Some x => Some x
      | None =>
          let name := lowercase body in
          if String.eqb name "inf" || String.eqb name "infinity"
          then Some (S754_infinity negative)
          else if String.eqb name "nan" then Some S754_nan
          else None
      end
  end.

End Literal.

(** A reporter that keeps the event count only: [(name, prefix, count)].
    The rates of [MeterMetricReporter] are not part of it. *)
#[export] Instance count_reporter
    : MeterMetricReporter (string * string * number) := {
  reporter_new name prefix := (name, prefix, Int 0);
  mark r v := let '(name, prefix, count) := r in
              ((name, prefix, Num.add count (Float v)), Ok tt);
  report r timestamp :=
    let '(name, prefix, count) := r in
    (r, Ok [(prefix ++ "." ++ name ++ ".count", count, timestamp)])
}.

(** A processor built with [plugins=None] has no factory and no plugin
    metric. *)
#[export] Instance no_plugin : Plugin Empty_set Empty_set := {
  metric_type f := match f with end;
  name f := match f with end;
  build_metric f := match f with end;
  plugin_process m := match m with end;
  plugin_flush m := match m with end
}.

(** A clock that advances by one second at every reading, from 1000. *)
Definition ticking (n : nat) : Float.t := Float.of_Z (1000 + Z.of_nat n).

(** A frozen clock. *)
Definition frozen (n : nat) : Float.t := Float.of_Z 1000.

(** ** The client: [Metrics.flush] and [Metrics.fully_qualify_name] *)

Module Metrics.

Definition newline : string := String (ascii_of_nat 10) EmptyString.

(** [self.connection]: [None], or the byte strings written to it so
    far. *)
Definition connection : Type := option (list string).

(** [data.encode('utf-8')]: a code point below 128 is one byte, another
    one is two. *)
Fixpoint encode (data : string) : string :=
  match data with
  | EmptyString => EmptyString
  | String c data' =>
      if (Bytes.code c <? 128)%N then String c (encode data')
      else String (ascii_of_N (192 + Bytes.code c / 64))
                  (String (ascii_of_N (128 + Bytes.code c mod 64))
                          (encode data'))
  end.

Definition write (data : string) : Gen connection Empty_set unit :=
  c <- get ;;
  match c with
  | None => ret tt
  | Some packets => modify (fun _ => Some (packets ++ [encode data])%list)
  end.

(** The [while _data:] loop, with the [self.write(data)] that follows it. *)
Fixpoint coalesce (data : string) (_data : list string)
    : Gen connection Empty_set unit :=
  match _data with
  | [] => write data
  | stat :: _data =>
      if (512 <=? String.length stat + String.length data + 1)%nat then
        write data ;;
        coalesce stat _data
      else coalesce (data ++ newline ++ stat) _data
  end.

(** [Metrics.flush].  [pipelined] lists what [metric.flush()] returns for
    the metrics of [self._metrics] that have a [flush], in the order of the
    dict. *)
Definition flush (pipelined : list (list string))
    : Gen connection Empty_set unit :=
  match concat pipelined with
  | [] => raise IndexError               (* [popleft] of an empty deque *)
  | data :: _data => coalesce data _data
  end.

(** [Metrics.fully_qualify_name] for an object whose [namespace] is
    [namespace]; [None] is [None]. *)
Definition fully_qualify_name (namespace name : option string) : string :=
  let fully_qualified_name := "" in
  let fully_qualified_name :=
    match namespace with
    | Some ns => ns
    | None => fully_qualified_name
    end in
  match name with
  | Some name =>
      if match namespace with
         | Some ns => (0 <? String.length ns)%nat
         | None => false
         end
      then fully_qualified_name ++ "." ++ name
      else name
  | None => fully_qualified_name
  end.

End Metrics.

(** The methods are unfolded by name in the proofs. *)
Arguments record_timing : simpl never.
Arguments compose_timer_metric : simpl never.
Arguments compose_counter_metric : simpl never.
Arguments compose_gauge_metric : simpl never.
Arguments compose_meter_metric : simpl never.
Arguments process_timer_metric : simpl never.
Arguments process_counter_metric : simpl never.
Arguments process_gauge_metric : simpl never.
Arguments process_meter_metric : simpl never.
Arguments process_plugin_metric : simpl never.
Arguments process_message : simpl never.
Arguments process : simpl never.
Arguments timer_statistics : simpl never.
Arguments flush_counter_metrics : simpl never.
Arguments flush_timer_metrics : simpl never.
Arguments flush_gauge_metrics : simpl never.
Arguments flush_meter_metrics : simpl never.
Arguments flush_plugin_metrics : simpl never.
Arguments flush_metrics_summary : simpl never.
Arguments flush : simpl never.
Arguments drain : simpl never.
Arguments fail : simpl never.

(** The arithmetic is not unfolded by simplification. *)
Arguments Float.add : simpl never.
Arguments Float.sub : simpl never.
Arguments Float.mul : simpl never.
Arguments Float.div : simpl never.
Arguments Float.of_Z : simpl never.
Arguments Float.of_int : simpl never.
Arguments Float.int_div : simpl never.
Arguments Float.to_int : simpl never.
Arguments Float.round : simpl never.
Arguments Float.ltb : simpl never.
Arguments Float.leb : simpl never.
Arguments Float.eqb : simpl never.
Arguments Num.add : simpl never.
Arguments Num.sub : simpl never.
Arguments Num.mul : simpl never.
Arguments Num.truediv : simpl never.
Arguments Num.to_int : simpl never.
Arguments Num.round : simpl never.
Arguments Num.eqb : simpl never.
Arguments Num.ltb : simpl never.
Arguments py_sum : simpl never.
Arguments normalize_key : simpl never.

(** ** Vocabulary of the statements *)

(** [m] leaves the component [f] of the state as it found it, whatever it
    returns or raises. *)
Definition keeps {S Y A X : Type} (f : S -> X) (m : Gen S Y A) : Prop :=
  forall s, f (state (m s)) = f s.

(** [m] returns, whatever the state. *)
Definition returns {S Y A : Type} (m : Gen S Y A) : Prop :=
  forall s, exists a, value (m s) = Ok a.


Section Counters.

Variable float : string -> option Float.t.

(** [float(rate)]. *)
Definition rate_value (rate : rate_arg) : result Float.t :=
  match rate with
  | RateInt z => Float.of_int z
  | RateBytes s =>
      match float s with
      | Some r => Ok r
      | None => Raise ValueError
      end
  end.

End Counters.


Section Flushes.

Variable time_function : nat -> Float.t.
Context {R F M : Type} `{MeterMetricReporter R} `{Plugin F M}.


End Flushes.

Section Clock.

Context {R F M : Type}.

(** The processor after [n] more readings of the clock. *)
Definition ticks (n : nat) (p : processor R F M) : processor R F M :=
  set_clock (n + clock p) p.

End Clock.

(** [int(a / b)]. *)
Definition int_quotient (a b : number) : result Z :=
  match Num.truediv a b with
  | Ok q => Num.to_int q
  | Raise e => Raise e
  end.

(** [k / 1000] is a float between 0 and 1 that is not 0. *)
Definition sub_second (k : nat) : bool :=
  match Num.truediv (Int (Z.of_nat k)) (Int 1000) with
  | Ok (Float x) => negb (Float.is_zero x) && Float.ltb x (Float.of_Z 1)
  | _ => false
  end.

(** [int(a / b)] where it is an integer, 0 where it raises. *)
Definition truncated_quotient (a b : number) : Z :=
  match int_quotient a b with
  | Ok z => z
  | Raise _ => 0
  end.

(** [math.floor(x)]. *)
Definition floor (x : Float.t) : result Z :=
  match x with
  | S754_nan => Raise ValueError
  | S754_infinity _ => Raise OverflowError
  | S754_zero _ => Ok 0
  | S754_finite s m e =>
      let q := Float.magnitude m e in
      if s then
        if (0 <=? e) || (Zpos m mod Z.shiftl 1 (- e) =? 0)
        then Ok (- q) else Ok (- (q + 1))
      else Ok q
  end.

(** The clock can be read as an integer at every reading. *)
Definition finite_clock (time_function : nat -> Float.t) : Prop :=
  forall n, Float.is_finite (time_function n) = true.

Section CounterVocabulary.

Context {R F M : Type}.

(** What the flush does to the slot of one counter. *)
Definition zero_slot (slot : string * number) (p : processor R F M)
    : processor R F M :=
  set_counter_metrics (Dict.set (fst slot) (Int 0) (counter_metrics p)) p.

(** The pair of metrics of one counter: the count per second of the
    interval, truncated, and the count. *)
Definition counter_group (p : processor R F M) (interval : number)
    (timestamp : Z) (slot : string * number) : group :=
  [(stats_prefix p ++ fst slot,
    Int (truncated_quotient (snd slot) interval), timestamp);
   (count_prefix p ++ fst slot, snd slot, timestamp)].

(** The count of a counter can be divided by the interval and the quotient
    turned into an integer. *)
Definition rated (interval : number) (slot : string * number) : Prop :=
  exists value, int_quotient (snd slot) interval = Ok value.

End CounterVocabulary.

Section CounterSamples.

Variable float : string -> option Float.t.

(** [message] is a counter line for [key] with value [v] and sampling rate
    [r]: a key that needs no normalising, a value field that [float] reads
    as [v], the type [c] and either no third field, and then [r] is 1, or a
    third field of which [RATE] keeps a text that [float] reads as [r]. *)
Definition counter_line (message key : string) (v r : Float.t) : Prop :=
  exists data vt,
    Bytes.split_once ":" (Bytes.strip message) = Some (key, data) /\
    normalize_key key = Ok key /\
    float vt = Some v /\
    ((Bytes.split "|" data = [vt; "c"] /\ r = Float.of_Z 1) \/
     (exists f3 g, Bytes.split "|" data = [vt; "c"; f3] /\
                   RATE_match f3 = Some g /\ float g = Some r)).

Record counter_sample : Type := Sample {
  sample_line : string;
  sample_key : string;
  sample_value : Float.t;
  sample_rate : Float.t
}.

(** A sample the processor accepts: a counter line whose rate is not 0. *)
Definition accepted (s : counter_sample) : Prop :=
  counter_line (sample_line s) (sample_key s) (sample_value s)
               (sample_rate s) /\
  Float.is_zero (sample_rate s) = false.

(** What a sample adds to the count of its key: [value * (1 / rate)]. *)
Definition contribution (s : counter_sample) : Float.t :=
  Float.mul (sample_value s) (Float.div (Float.of_Z 1) (sample_rate s)).

(** The count of [key] once the samples are taken in, from [count]: what
    the samples of [key] contribute is added in the order of arrival. *)
Definition total (key : string) (samples : list counter_sample)
    (count : number) : number :=
  fold_left (fun acc s =>
               if String.eqb (sample_key s) key
               then Num.add acc (Float (contribution s)) else acc)
            samples count.

End CounterSamples.

(** The value of a counter slot, the integer 0 for a key that has none. *)
Definition slot (key : string) (d : Dict.t number) : number :=
  match Dict.get key d with
  | Some c => c
  | None => Int 0
  end.

(** A pipelined counter line of [n + 4] bytes: a name of [n] bytes [a],
    then [:1|c]. *)
Fixpoint long_name (n : nat) : string :=
  match n with
  | O => EmptyString
  | S n' => String "a" (long_name n')
  end.

Definition long_line (n : nat) : string := long_name n ++ ":1|c".

(** No packet written to the connection is longer than 512 bytes. *)
Definition bounded (packets : Metrics.connection) : Prop :=
  match packets with
  | Some ps => Forall (fun s => (String.length s <= 512)%nat) ps
  | None => True
  end.

(** *** Timers, in the words of the specification *)

(** The order of the floats. *)
Definition fle (x y : Float.t) : Prop := Float.leb x y = true.

(** The place of a float that is not NaN in the order, as a triple of
    integers compared from left to right: its kind, then for a finite
    float of either sign its exponent and its mantissa. *)
Definition place (x : Float.t) : Z * Z * Z :=
  match x with
  | S754_infinity true => (-2, 0, 0)
  | S754_finite true m e => (-1, - e, - Zpos m)
  | S754_finite false m e => (1, e, Zpos m)
  | S754_infinity false => (2, 0, 0)
  | _ => (0, 0, 0)
  end.

Definition place_le (a b : Z * Z * Z) : Prop :=
  let '(a1, a2, a3) := a in
  let '(b1, b2, b3) := b in
  a1 < b1 \/ (a1 = b1 /\ (a2 < b2 \/ (a2 = b2 /\ a3 <= b3))).

(** No sample is NaN: the samples can be put in order. *)
Definition ordered (samples : list Float.t) : Prop :=
  Forall (fun x => Float.is_nan x = false) samples.

(** The share of the samples to drop, [(100 - percent) / 100.0]. *)
Definition threshold_value (percent : Z) : result number :=
  Num.truediv (Int (100 - percent)) (Float (Float.of_Z 100)).

(** [drop = round(threshold_value * n)]. *)
Definition drop (threshold : number) (n : Z) : result Z :=
  Num.round (Num.mul threshold (Int n)).

(** The first [index] samples of a sorted bucket. *)
Definition kept (index : Z) (sorted_samples : list Float.t)
    : list Float.t :=
  firstn (Z.to_nat index) sorted_samples.

(** The sum of the samples kept, divided by their number. *)
Definition mean_quotient (index : Z) (sorted_samples : list Float.t)
    : result number :=
  Num.truediv (py_sum (kept index sorted_samples)) (Int index).

(** The mean as the specification has it: the floor of the quotient. *)
Definition floor_mean (index : Z) (sorted_samples : list Float.t)
    : result Z :=
  match mean_quotient index sorted_samples with
  | Ok q => floor (Num.to_float q)
  | Raise e => Raise e
  end.

(** The mean as the code has it: the quotient truncated toward zero. *)
Definition truncated_mean (index : Z) (sorted_samples : list Float.t)
    : result Z :=
  match mean_quotient index sorted_samples with
  | Ok q => Num.to_int q
  | Raise e => Raise e
  end.

Definition is_minimum (x : Float.t) (l : list Float.t) : Prop :=
  In x l /\ forall y, In y l -> fle x y.

Definition is_maximum (x : Float.t) (l : list Float.t) : Prop :=
  In x l /\ forall y, In y l -> fle y x.

(** The five metrics of a bucket, in the order of their names. *)
Definition timer_group (prefix key : string) (percent timestamp : Z)
    (count : Z) (lower : Float.t) (mean : number)
    (upper threshold_upper : Float.t) : group :=
  [(prefix ++ key ++ ".count", Int count, timestamp);
   (prefix ++ key ++ ".lower", Float lower, timestamp);
   (prefix ++ key ++ ".mean", mean, timestamp);
   (prefix ++ key ++ ".upper", Float upper, timestamp);
   (prefix ++ key ++ ".upper_" ++ Bytes.of_int percent,
    Float threshold_upper, timestamp)].

(** The statistics of a sorted bucket can be computed: it has one sample,
    or the rounding keeps a sample and the mean of the samples kept is an
    integer. *)
Definition summable (threshold : number) (sorted_samples : list Float.t)
    : Prop :=
  let n := Z.of_nat (length sorted_samples) in
  2 <= n ->
  exists dropped mean,
    drop threshold n = Ok dropped /\ 1 <= n - dropped /\
    truncated_mean (n - dropped) sorted_samples = Ok mean.

(** The bucket can be flushed: its samples can be put in order and then
    their statistics computed. *)
Definition flushable (threshold : number) (samples : list Float.t) : Prop :=
  ordered samples /\ summable threshold (sort samples).

(** The share dropped at the default percent, 90: [10 / 100.0]. *)
Definition tenth : number :=
  Float (Float.div (Float.of_Z 10) (Float.of_Z 100)).

(** The statistics of a sorted bucket that can be flushed:
    [(mean, upper, threshold_upper, lower, count)]. *)
Definition statistics (threshold : number) (sorted_samples : list Float.t)
    : number * Float.t * Float.t * Float.t * Z :=
  let n := Z.of_nat (length sorted_samples) in
  let lower := hd Float.zero sorted_samples in
  let upper := last sorted_samples Float.zero in
  if 1 <? n then
    match drop threshold n with
    | Ok dropped =>
        let index := n - dropped in
        (Int (match truncated_mean index sorted_samples with
              | Ok mean => mean
              | Raise _ => 0
              end),
         upper, last (kept index sorted_samples) Float.zero, lower, n)
    | Raise _ => (Float lower, upper, upper, lower, n)
    end
  else (Float lower, upper, upper, lower, n).

Section TimerVocabulary.

Context {R F M : Type}.

(** What the flush yields for one bucket: nothing when it is empty. *)
Definition bucket_group (prefix : string) (percent : Z) (threshold : number)
    (timestamp : Z) (bucket : string * list Float.t) : list group :=
  if (0 <? length (snd bucket))%nat then
    let '(mean, upper, threshold_upper, lower, count) :=
      statistics threshold (sort (snd bucket)) in
    [timer_group prefix (fst bucket) percent timestamp count lower mean upper
                 threshold_upper]
  else [].

(** What the flush does to one bucket. *)
Definition empty_bucket (bucket : string * list Float.t)
    (p : processor R F M) : processor R F M :=
  if (0 <? length (snd bucket))%nat
  then set_timer_metrics (Dict.set (fst bucket) [] (timer_metrics p)) p
  else p.

End TimerVocabulary.

(** *** Packets *)

(** A text of code points below 128, which is its own encoding. *)
Definition is_ascii (s : string) : Prop :=
  Bytes.all_bytes (fun c => (Bytes.code c <? 128)%N) s = true.

(** The packet of a group of lines: the lines joined by newlines. *)
Definition packet_of (lines : list string) : string :=
  Bytes.join Metrics.newline lines.

(** The bytes written for a group of lines. *)
Definition packet_bytes (lines : list string) : string :=
  Metrics.encode (packet_of lines).

(** A group of lines that one packet may carry: one line of any length, or
    lines that make less than 512 characters once joined. *)
Definition fits (lines : list string) : Prop :=
  length lines = 1%nat \/ (String.length (packet_of lines) < 512)%nat.

(** No packet could have taken the first line of the next one: that line,
    a newline and the packet make 512 characters or more. *)
Fixpoint packed (groups : list (list string)) : Prop :=
  match groups with
  | [] => True
  | lines :: rest =>
      match rest with
      | [] => True
      | next :: _ =>
          (512 <= String.length (hd "" next)
                  + String.length (packet_of lines) + 1)%nat
      end /\ packed rest
  end.

(** *** Ingestion *)

(** The samples of a timer bucket, none for a key that has no bucket. *)
Definition bucket (key : string) (d : Dict.t (list Float.t))
    : list Float.t :=
  match Dict.get key d with
  | Some samples => samples
  | None => []
  end.

(** The number of lines of a type counted since the last flush. *)
Definition received (metric_type : string) (d : Dict.t Z) : Z :=
  match Dict.get metric_type d with
  | Some n => n
  | None => 0
  end.

(** The time spent on the lines of a type since the last flush. *)
Definition spent (metric_type : string) (d : Dict.t number) : number :=
  match Dict.get metric_type d with
  | Some t => t
  | None => Int 0
  end.

(** A line that [process] cannot cut into a key and two or three fields:
    it has no [:], or what follows the first [:] has no [|] or has more than
    three [|]-fields. *)
Definition malformed (message : string) : Prop :=
  Bytes.contains ":" message = false \/
  exists key data,
    Bytes.split_once ":" (Bytes.strip message) = Some (key, data) /\
    (Bytes.contains "|" data = false
     \/ (3 < length (Bytes.split "|" data))%nat).

(** [message] is a line for [key] with the fields [fields], two or three of
    them. *)
Definition line (message key : string) (fields : list string) : Prop :=
  exists data,
    Bytes.split_once ":" (Bytes.strip message) = Some (key, data) /\
    Bytes.split "|" data = fields /\
    (2 <= length fields <= 3)%nat.

(** One of the four types the processor handles itself. *)
Definition builtin (metric_type : string) : bool :=
  String.eqb metric_type "c" || String.eqb metric_type "ms"
  || String.eqb metric_type "g" || String.eqb metric_type "m".

Section TimingVocabulary.

Variable time_function : nat -> Float.t.
Context {R F M : Type}.

(** The processor once a line of type [metric_type], taken up at [start],
    is accounted for: the clock is read, the time spent since [start] is
    added to the time of the type and the line is counted. *)
Definition timing_recorded (metric_type : string) (start : Float.t)
    (p : processor R F M) : processor R F M :=
  let stop := time_function (clock p) in
  set_by_type
    (Dict.set metric_type (received metric_type (by_type p) + 1)
              (Dict.setdefault metric_type 0 (by_type p)))
    (set_process_timings
       (Dict.set metric_type
                 (Num.add (spent metric_type (process_timings p))
                          (Float (Float.sub stop start)))
                 (Dict.setdefault metric_type (Int 0) (process_timings p)))
       (set_clock (S (clock p)) p)).

(** The type is one the processor takes up: a builtin one, or one for which
    a plugin is registered. *)
Definition recognised (metric_type : string) (p : processor R F M) : bool :=
  builtin metric_type || Dict.mem metric_type (plugins p).

End TimingVocabulary.

Section HandlerVocabulary.

Variable float : string -> option Float.t.
Context {R F M : Type} `{MeterMetricReporter R} `{Plugin F M}.

(** What [process_message] calls for a line of a recognised type, between
    the reading of the clock and the accounting of the line. *)
Definition handler {Y : Type} (metric_type key : string)
    (fields : list string) (message : string) : method Y unit :=
  if String.eqb metric_type "c" then
    process_counter_metric float key fields message
  else if String.eqb metric_type "ms" then
    f0 <- item fields 0 ;; process_timer_metric float key f0 message
  else if String.eqb metric_type "g" then
    f0 <- item fields 0 ;; process_gauge_metric float key f0 message
  else if String.eqb metric_type "m" then
    f0 <- item fields 0 ;; process_meter_metric float key f0 message
  else process_plugin_metric metric_type key fields message.

End HandlerVocabulary.

(** *** Self-telemetry *)

(** The pair of metrics of one phase of the flush. *)
Definition flush_group (prefix : string) (timestamp : Z)
    (phase : string * (Z * Float.t)) : group :=
  let '(name, (value, duration)) := phase in
  [(prefix ++ "flush." ++ name ++ ".count", Int value, timestamp);
   (prefix ++ "flush." ++ name ++ ".duration",
    Num.mul (Float duration) (Int 1000), timestamp)].

(** The pair of metrics of one type of line: how many were counted, and the
    time spent on them. *)
Definition receive_group (prefix : string) (timestamp : Z)
    (counts : Dict.t Z) (timing : string * number) : group :=
  let '(metric_type, duration) := timing in
  [(prefix ++ "receive." ++ metric_type ++ ".count",
    Int (received metric_type counts), timestamp);
   (prefix ++ "receive." ++ metric_type ++ ".duration",
    Num.mul duration (Int 1000), timestamp)].

(** *** Timers after a flush *)

(** The dictionary of the timers once the flush has dealt with a bucket. *)
Definition emptied (d : Dict.t (list Float.t))
    (bucket : string * list Float.t) : Dict.t (list Float.t) :=
  if (0 <? length (snd bucket))%nat then Dict.set (fst bucket) [] d else d.

(** *** Names *)

Section NameVocabulary.

Context {R F M : Type}.

(** Every name [p] lists, [p'] lists. *)
Definition names_kept (p p' : processor R F M) : Prop :=
  forall name, In name (get_metric_names p) -> In name (get_metric_names p').

(** A method that forgets no name. *)
Definition keeps_names {Y A : Type} (m : method Y A) : Prop :=
  forall p : processor R F M, names_kept p (state (m p)).

End NameVocabulary.
(** * Properties *)

(** ** Key normalisation *)

Section NormalizeKey.

Import Bytes.

Lemma safe_not_space (c : ascii) : is_safe c = true -> is_space c = false.
Proof.
  destruct c as [[] [] [] [] [] [] [] []]; vm_compute; congruence.
Qed.

Lemma safe_not_slash (c : ascii) : is_safe c = true -> is_slash c = false.
Proof.
  destruct c as [[] [] [] [] [] [] [] []]; vm_compute; congruence.
Qed.

Lemma all_bytes_weaken (p q : ascii -> bool) (s : string) :
  (forall c, p c = true -> q c = true) ->
  all_bytes p s = true -> all_bytes q s = true.
Proof.
  intros Hpq. induction s as [|c s IH]; simpl; [trivial|].
  intros H. apply andb_prop in H as [Hc Hs].
  rewrite (Hpq _ Hc), IH; trivial.
Qed.

Lemma has_all_bytes (p : ascii -> bool) (s : string) :
  has p s = negb (all_bytes (fun c => negb (p c)) s).
Proof.
  induction s as [|c s IH]; simpl; [reflexivity|].
  rewrite IH. now destruct (p c).
Qed.

Lemma sub_str_cases (p : ascii -> bool) (key : string) :
  sub_str p key
  = if all_bytes (fun c => negb (p c)) key then Ok key else Raise TypeError.
Proof.
  unfold sub_str. rewrite has_all_bytes.
  now destruct (all_bytes _ key).
Qed.

Lemma normalize_key_fixed (k : string) :
  all_bytes is_safe k = true -> normalize_key k = Ok k.
Proof.
  intros Hsafe. unfold normalize_key.
  rewrite sub_str_cases.
  rewrite (all_bytes_weaken is_safe (fun c => negb (is_space c)) k); trivial.
  2:{ intros c Hc. now rewrite (safe_not_space c Hc). }
  cbn iota. rewrite sub_str_cases.
  rewrite (all_bytes_weaken is_safe (fun c => negb (is_slash c)) k); trivial.
  2:{ intros c Hc. now rewrite (safe_not_slash c Hc). }
  cbn iota. rewrite sub_str_cases.
  rewrite (all_bytes_weaken is_safe (fun c => negb (negb (is_safe c))) k);
    trivial.
  intros c Hc. now rewrite Hc.
Qed.

Lemma normalize_key_cases (k : string) :
  normalize_key k = if all_bytes is_safe k then Ok k else Raise TypeError.
Proof.
  destruct (all_bytes is_safe k) eqn:Hsafe; [now apply normalize_key_fixed|].
  unfold normalize_key. rewrite sub_str_cases.
  destruct (all_bytes (fun c => negb (is_space c)) k); [|reflexivity].
  rewrite sub_str_cases.
  destruct (all_bytes (fun c => negb (is_slash c)) k); [|reflexivity].
  rewrite sub_str_cases.
  destruct (all_bytes (fun c => negb (negb (is_safe c))) k) eqn:Hlast;
    [|reflexivity].
  rewrite (all_bytes_weaken (fun c => negb (negb (is_safe c))) is_safe k)
    in Hsafe; [discriminate| |exact Hlast].
  intros c Hc. now rewrite negb_involutive in Hc.
Qed.

Lemma normalize_key_raises_on_unsafe (k : string) :
  all_bytes is_safe k = false -> normalize_key k = Raise TypeError.
Proof.
  intros Hsafe. now rewrite normalize_key_cases, Hsafe.
Qed.

(** C8. [normalize_key] does not normalise: a key with a byte outside
    [[A-Za-z0-9._-]], among them whitespace and [/], makes it raise
    [TypeError], since the replacements are [str] and the patterns bytes. *)
Theorem normalize_key_raises_on_other_bytes (k : string) :
  all_bytes is_safe k = false -> normalize_key k = Raise TypeError.
Proof. apply normalize_key_raises_on_unsafe. Qed.

End NormalizeKey.

Lemma normalize_key_raises_on_other_bytes_witness :
  normalize_key "a b" = Raise TypeError
  /\ normalize_key "a/b" = Raise TypeError
  /\ normalize_key "a$b" = Raise TypeError.
Proof.
  split; [|split].
  - apply (normalize_key_raises_on_other_bytes "a b"). reflexivity.
  - apply (normalize_key_raises_on_other_bytes "a/b"). reflexivity.
  - apply (normalize_key_raises_on_other_bytes "a$b"). reflexivity.
Defined.

(** ** The monad *)

Section GenFacts.

Context {S Y : Type}.

Lemma outcome_eta {A : Type} (o : outcome S Y A) :
  match o with Outcome v s ys => Outcome v s ys end = o.
Proof. now destruct o. Qed.

Lemma bind_ok {A B : Type} (m : Gen S Y A) (k : A -> Gen S Y B) (s : S)
    (a : A) :
  value (m s) = Ok a ->
  bind m k s =
  Outcome (value (k a (state (m s)))) (state (k a (state (m s))))
          (yielded (m s) ++ yielded (k a (state (m s)))).
Proof.
  intros Hm. unfold bind. destruct (m s) as [[a'|e] s' ys]; simpl in *;
    [|discriminate].
  injection Hm as ->. now destruct (k a s').
Qed.

Lemma bind_raise {A B : Type} (m : Gen S Y A) (k : A -> Gen S Y B) (s : S)
    (e : exn) :
  value (m s) = Raise e ->
  bind m k s = Outcome (Raise e) (state (m s)) (yielded (m s)).
Proof.
  intros Hm. unfold bind. destruct (m s) as [[a'|e'] s' ys]; simpl in *;
    [discriminate|].
  now injection Hm as ->.
Qed.

Lemma bind_inv {A B : Type} (m : Gen S Y A) (k : A -> Gen S Y B) (s : S)
    (b : B) :
  value (bind m k s) = Ok b ->
  exists a, value (m s) = Ok a /\ value (k a (state (m s))) = Ok b.
Proof.
  unfold bind. destruct (m s) as [[a|e] s' ys]; simpl; [|discriminate].
  intros Hk. exists a. split; [reflexivity|].
  now destruct (k a s').
Qed.

Lemma keeps_ret {A X : Type} (f : S -> X) (a : A) : keeps f (ret (Y:=Y) a).
Proof. now intros s. Qed.

Lemma keeps_raise {A X : Type} (f : S -> X) (e : exn) :
  keeps f (raise (Y:=Y) (A:=A) e).
Proof. now intros s. Qed.

Lemma keeps_get {X : Type} (f : S -> X) : keeps f (get (Y:=Y)).
Proof. now intros s. Qed.

Lemma keeps_yield {X : Type} (f : S -> X) (y : Y) : keeps f (yield y).
Proof. now intros s. Qed.

Lemma keeps_lift {A X : Type} (f : S -> X) (r : result A) :
  keeps f (lift (Y:=Y) r).
Proof. now destruct r; intros s. Qed.

Lemma keeps_item {A X : Type} (f : S -> X) (l : list A) (i : nat) :
  keeps f (item (Y:=Y) l i).
Proof. unfold item. now destruct (nth_error l i); intros s. Qed.

Lemma keeps_last_item {A X : Type} (f : S -> X) (l : list A) :
  keeps f (last_item (Y:=Y) l).
Proof. unfold last_item. now destruct (rev l); intros s. Qed.

Lemma keeps_modify {X : Type} (f : S -> X) (g : S -> S) :
  (forall s, f (g s) = f s) -> keeps f (modify (Y:=Y) g).
Proof. intros Hg s. apply Hg. Qed.

Lemma keeps_bind {A B X : Type} (f : S -> X) (m : Gen S Y A)
    (k : A -> Gen S Y B) :
  keeps f m -> (forall a, keeps f (k a)) -> keeps f (bind m k).
Proof.
  intros Hm Hk s. unfold bind. specialize (Hm s).
  destruct (m s) as [[a|e] s' ys]; simpl in *; [|exact Hm].
  specialize (Hk a s'). destruct (k a s'). simpl in *. congruence.
Qed.

Lemma keeps_for_each {A X : Type} (f : S -> X) (l : list A)
    (body : A -> Gen S Y unit) :
  (forall x, keeps f (body x)) -> keeps f (for_each l body).
Proof.
  intros Hbody. induction l as [|x l IH]; simpl.
  - apply keeps_ret.
  - apply keeps_bind; auto.
Qed.

(** A loop whose body always returns, yields one value at each turn and
    keeps an invariant of the state. *)
Lemma for_each_yields_map {A : Type} (l : list A) (body : A -> Gen S Y unit)
    (one : A -> Y) (inv : S -> Prop) :
  (forall x s, inv s ->
     exists s', body x s = Outcome (Ok tt) s' [one x] /\ inv s') ->
  forall s, inv s ->
    exists s', for_each l body s = Outcome (Ok tt) s' (map one l) /\ inv s'.
Proof.
  intros Hbody. induction l as [|x l IH]; intros s Hs.
  - exists s. split; [reflexivity|exact Hs].
  - destruct (Hbody x s Hs) as (s1 & E1 & H1).
    destruct (IH s1 H1) as (s2 & E2 & H2).
    exists s2. split; [|exact H2].
    cbn [for_each]. unfold bind. rewrite E1, E2. reflexivity.
Qed.

(** The same loop, with the state it ends in. *)
Lemma for_each_fold {A : Type} (l : list A) (body : A -> Gen S Y unit)
    (one : A -> Y) (step : A -> S -> S) (inv : S -> Prop) :
  (forall x s, inv s ->
     body x s = Outcome (Ok tt) (step x s) [one x] /\ inv (step x s)) ->
  forall s, inv s ->
    for_each l body s =
    Outcome (Ok tt) (fold_left (fun s x => step x s) l s) (map one l).
Proof.
  intros Hbody. induction l as [|x l IH]; intros s Hs; [reflexivity|].
  destruct (Hbody x s Hs) as [E1 H1].
  cbn [for_each fold_left map]. unfold bind. rewrite E1, (IH _ H1).
  reflexivity.
Qed.

(** A loop whose body returns at every element of the list, whatever it
    yields there. *)
Lemma for_each_flat {A : Type} (l : list A) (body : A -> Gen S Y unit)
    (one : A -> list Y) (step : A -> S -> S) (inv : S -> Prop) :
  (forall x s, In x l -> inv s ->
     body x s = Outcome (Ok tt) (step x s) (one x) /\ inv (step x s)) ->
  forall s, inv s ->
    for_each l body s =
    Outcome (Ok tt) (fold_left (fun s x => step x s) l s) (flat_map one l).
Proof.
  induction l as [|x l IH]; intros Hbody s Hs; [reflexivity|].
  destruct (Hbody x s (or_introl eq_refl) Hs) as [E1 H1].
  cbn [for_each fold_left flat_map]. unfold bind. rewrite E1.
  rewrite (IH (fun y q Hy => Hbody y q (or_intror Hy)) _ H1).
  reflexivity.
Qed.

Lemma last_item_eq {A : Type} (l : list A) (d : A) (s : S) :
  l <> [] -> last_item l s = Outcome (Y:=Y) (Ok (last l d)) s [].
Proof.
  intros Hne. destruct (exists_last Hne) as (l0 & a & ->).
  unfold last_item. rewrite rev_unit, last_last. reflexivity.
Qed.

Lemma bind_yielded {A B : Type} (m : Gen S Y A) (k : A -> Gen S Y B)
    (s : S) :
  exists more, yielded (bind m k s) = (yielded (m s) ++ more)%list.
Proof.
  unfold bind. destruct (m s) as [[a|e] s' ys]; simpl.
  - destruct (k a s') as [v s'' ys']. now exists ys'.
  - exists []. now rewrite app_nil_r.
Qed.

End GenFacts.

Lemma keeps_drain {S X : Type} (f : S -> X) (g : Gen S (list emission) unit) :
  keeps f g -> keeps f (drain g).
Proof.
  intros Hg s. unfold drain. specialize (Hg s).
  now destruct (g s) as [[a|e] s' ys].
Qed.

Create HintDb frame discriminated.

#[export] Hint Extern 1 (_ = _) => reflexivity : frame.

(** Frame conditions are proved by following the structure of the code;
    the methods already treated are in the hint database [frame]. *)
Ltac frame_step :=
  lazymatch goal with
  | |- keeps _ (bind _ _) => apply keeps_bind; [|intros ?]
  | |- keeps _ (ret _) => apply keeps_ret
  | |- keeps _ (raise _) => apply keeps_raise
  | |- keeps _ get => apply keeps_get
  | |- keeps _ (yield _) => apply keeps_yield
  | |- keeps _ (lift _) => apply keeps_lift
  | |- keeps _ (item _ _) => apply keeps_item
  | |- keeps _ (last_item _) => apply keeps_last_item
  | |- keeps _ (drain _) => apply keeps_drain
  | |- keeps _ (for_each _ _) => apply keeps_for_each; intros ?
  | |- keeps _ (modify _) =>
      apply keeps_modify; intros ?;
      first [reflexivity | match goal with H : _ |- _ => apply H end]
  | |- keeps _ (match ?x with _ => _ end) => destruct x
  | |- keeps _ (let _ := _ in _) => cbv zeta
  | |- keeps _ _ => solve [eauto with frame]
  end.

Ltac frame := repeat frame_step.

(** ** Frame conditions of the processor *)

Section Frames.

Variable float : string -> option Float.t.
Variable time_function : nat -> Float.t.
Context {R F M : Type} `{MeterMetricReporter R} `{Plugin F M}.
Context {X : Type} (f : processor R F M -> X).

Lemma keeps_now {Y : Type} :
  (forall n p, f (set_clock n p) = f p) ->
  keeps f (now (Y:=Y) time_function).
Proof. intros Hf p. apply Hf. Qed.

Lemma keeps_fail {Y : Type} (message : string) :
  (forall l p, f (set_log l p) = f p) -> keeps f (fail (Y:=Y) message).
Proof. intros Hf p. apply Hf. Qed.

Hint Resolve keeps_now keeps_fail : frame.

Lemma keeps_record_timing {Y : Type} (metric_type : string)
    (start : Float.t) :
  (forall n p, f (set_clock n p) = f p) ->
  (forall v p, f (set_process_timings v p) = f p) ->
  (forall v p, f (set_by_type v p) = f p) ->
  keeps f (record_timing (Y:=Y) time_function metric_type start).
Proof. intros Hclock Htimings Htypes. unfold record_timing. frame. Qed.

Lemma keeps_flush_counter_metrics (interval : number) (timestamp : Z) :
  (forall v p, f (set_counter_metrics v p) = f p) ->
  keeps f (flush_counter_metrics interval timestamp).
Proof. intros Hf. unfold flush_counter_metrics. frame. Qed.

Lemma keeps_timer_statistics (threshold : number) (timers : list Float.t) :
  keeps f (timer_statistics threshold timers).
Proof. unfold timer_statistics. frame. Qed.

Hint Resolve keeps_timer_statistics : frame.

Lemma keeps_flush_timer_metrics (percent timestamp : Z) :
  (forall v p, f (set_timer_metrics v p) = f p) ->
  keeps f (flush_timer_metrics percent timestamp).
Proof. intros Hf. unfold flush_timer_metrics. frame. Qed.

Lemma keeps_flush_gauge_metrics (timestamp : Z) :
  keeps f (flush_gauge_metrics timestamp).
Proof. unfold flush_gauge_metrics. frame. Qed.

Lemma keeps_flush_meter_metrics (timestamp : Z) :
  (forall v p, f (set_meter_metrics v p) = f p) ->
  keeps f (flush_meter_metrics timestamp).
Proof. intros Hf. unfold flush_meter_metrics. frame. Qed.

Lemma keeps_flush_plugin_metrics (interval : number) (timestamp : Z) :
  (forall v p, f (set_plugin_metrics v p) = f p) ->
  keeps f (flush_plugin_metrics interval timestamp).
Proof. intros Hf. unfold flush_plugin_metrics. frame. Qed.

Lemma keeps_flush_metrics_summary (num_stats : Z)
    (per_metric : Dict.t (Z * Float.t)) (timestamp : Z) :
  (forall v p, f (set_last_flush_duration v p) = f p) ->
  (forall v p, f (set_last_process_duration v p) = f p) ->
  (forall v p, f (set_log v p) = f p) ->
  (forall v p, f (set_process_timings v p) = f p) ->
  (forall v p, f (set_by_type v p) = f p) ->
  keeps f (flush_metrics_summary num_stats per_metric timestamp).
Proof.
  intros Hflush Hprocess Hlog Htimings Htypes.
  unfold flush_metrics_summary. frame.
Qed.

End Frames.

#[export] Hint Resolve keeps_now keeps_fail keeps_record_timing
  keeps_flush_counter_metrics keeps_timer_statistics
  keeps_flush_timer_metrics keeps_flush_gauge_metrics
  keeps_flush_meter_metrics keeps_flush_plugin_metrics
  keeps_flush_metrics_summary : frame.

Section FlushFrames.

Variable time_function : nat -> Float.t.
Context {R F M : Type} `{MeterMetricReporter R} `{Plugin F M}.



End FlushFrames.

(** ** Splitting a payload *)

Section Payload.

Variable float : string -> option Float.t.
Variable time_function : nat -> Float.t.
Context {R F M : Type} `{MeterMetricReporter R} `{Plugin F M}.

Lemma contains_split_once (sep : ascii) (s : string) :
  Bytes.contains sep s =
  match Bytes.split_once sep s with Some _ => true | None => false end.
Proof.
  induction s as [|c s IH]; simpl; [reflexivity|].
  destruct (Ascii.eqb c sep); simpl; [reflexivity|].
  rewrite IH. now destruct (Bytes.split_once sep s) as [[a b]|].
Qed.

Lemma contains_lstrip (sep : ascii) (s : string) :
  Bytes.contains sep (Bytes.lstrip s) = true -> Bytes.contains sep s = true.
Proof.
  induction s as [|c s IH]; simpl; [trivial|].
  destruct (Bytes.is_space c); simpl; [|trivial].
  intros Hc. rewrite (IH Hc). apply orb_true_r.
Qed.

Lemma contains_rstrip (sep : ascii) (s : string) :
  Bytes.contains sep (Bytes.rstrip s) = true -> Bytes.contains sep s = true.
Proof.
  induction s as [|c s IH]; simpl; [trivial|].
  destruct (Bytes.rstrip s) as [|d r] eqn:Hr.
  - destruct (Bytes.is_space c); simpl; [discriminate|].
    rewrite orb_false_r. intros ->. reflexivity.
  - simpl in *. destruct (Ascii.eqb c sep); simpl; [trivial|]. exact IH.
Qed.

Lemma contains_strip (sep : ascii) (s : string) :
  Bytes.contains sep (Bytes.strip s) = true -> Bytes.contains sep s = true.
Proof.
  intros Hc. now apply contains_lstrip, contains_rstrip.
Qed.

Lemma split_without (sep : ascii) (s : string) :
  Bytes.contains sep s = false -> Bytes.split sep s = [s].
Proof.
  induction s as [|c s IH]; simpl; [reflexivity|].
  destruct (Ascii.eqb c sep); simpl; [discriminate|].
  intros Hc. now rewrite (IH Hc).
Qed.

(** A payload with a [:] and two or three [|]-fields reaches
    [normalize_key]. *)
Lemma process_split {Y : Type} (message key data : string)
    (fields : list string) :
  Bytes.split_once ":" (Bytes.strip message) = Some (key, data) ->
  Bytes.split "|" data = fields ->
  (2 <= length fields <= 3)%nat ->
  forall p : processor R F M,
    process (Y:=Y) float time_function message p =
    (key <- lift (normalize_key key) ;;
     metric_type <- item fields 1 ;;
     process_message float time_function message metric_type key fields) p.
Proof.
  intros Hkey Hfields Hlen p. unfold process.
  assert (Hcolon : Bytes.contains ":" message = true).
  { apply contains_strip. rewrite contains_split_once, Hkey. reflexivity. }
  rewrite Hcolon, Hkey. simpl negb. cbv iota.
  destruct (Bytes.contains "|" data) eqn:Hbar.
  - simpl negb. cbv iota. rewrite Hfields.
    replace ((length fields <? 2)%nat || (3 <? length fields)%nat)
      with false; [reflexivity|].
    symmetry. apply orb_false_iff. split; apply Nat.ltb_ge; lia.
  - apply split_without in Hbar. rewrite Hbar in Hfields. subst fields.
    simpl in Hlen. lia.
Qed.

(** With a key that needs no normalising it reaches [process_message]. *)
Lemma process_fields {Y : Type} (message key data : string)
    (fields : list string) :
  Bytes.split_once ":" (Bytes.strip message) = Some (key, data) ->
  Bytes.split "|" data = fields ->
  (2 <= length fields <= 3)%nat ->
  normalize_key key = Ok key ->
  forall p : processor R F M,
    process (Y:=Y) float time_function message p =
    (metric_type <- item fields 1 ;;
     process_message float time_function message metric_type key fields) p.
Proof.
  intros Hkey Hfields Hlen Hsafe p.
  rewrite (process_split message key data fields Hkey Hfields Hlen).
  unfold bind at 1. rewrite Hsafe. cbn [lift ret].
  now destruct (bind _ _ p).
Qed.

(** With another key [normalize_key] raises, and so does [process], which
    has done nothing yet. *)
Lemma process_other_key {Y : Type} (message key data : string)
    (fields : list string) (e : exn) :
  Bytes.split_once ":" (Bytes.strip message) = Some (key, data) ->
  Bytes.split "|" data = fields ->
  (2 <= length fields <= 3)%nat ->
  normalize_key key = Raise e ->
  forall p : processor R F M,
    process (Y:=Y) float time_function message p = Outcome (Raise e) p [].
Proof.
  intros Hkey Hfields Hlen Hraise p.
  rewrite (process_split message key data fields Hkey Hfields Hlen).
  unfold bind. now rewrite Hraise.
Qed.

End Payload.

(** ** Dictionaries *)

Section DictFacts.

Context {V : Type}.

Lemma get_set_same (k : string) (v : V) (d : Dict.t V) :
  Dict.get k (Dict.set k v d) = Some v.
Proof.
  induction d as [|[k' v'] d IH]; simpl.
  - now rewrite String.eqb_refl.
  - destruct (String.eqb k k') eqn:Hk; simpl; rewrite ?String.eqb_refl, ?Hk;
      auto.
Qed.

Lemma get_set_other (k k' : string) (v : V) (d : Dict.t V) :
  k <> k' -> Dict.get k' (Dict.set k v d) = Dict.get k' d.
Proof.
  intros Hne. induction d as [|[k0 v0] d IH]; simpl.
  - destruct (String.eqb_spec k' k); congruence.
  - destruct (String.eqb_spec k k0); simpl.
    + subst k0. destruct (String.eqb_spec k' k); congruence.
    + now rewrite IH.
Qed.

Lemma get_setdefault_same (k : string) (v : V) (d : Dict.t V) :
  Dict.get k (Dict.setdefault k v d) =
  Some (match Dict.get k d with Some v' => v' | None => v end).
Proof.
  unfold Dict.setdefault, Dict.mem.
  destruct (Dict.get k d) as [v'|] eqn:Hget; [exact Hget|].
  apply get_set_same.
Qed.

Lemma get_setdefault_other (k k' : string) (v : V) (d : Dict.t V) :
  k <> k' -> Dict.get k' (Dict.setdefault k v d) = Dict.get k' d.
Proof.
  intros Hne. unfold Dict.setdefault. destruct (Dict.mem k d); [reflexivity|].
  now apply get_set_other.
Qed.

End DictFacts.

Section Ingestion2.

Variable float : string -> option Float.t.
Variable time_function : nat -> Float.t.
Context {R F M : Type} `{MeterMetricReporter R} `{Plugin F M}.

Lemma set_counter_metrics_same (p : processor R F M) :
  set_counter_metrics (counter_metrics p) p = p.
Proof. now destruct p. Qed.

Lemma one_over (r : Float.t) :
  Num.truediv (Int 1) (Float r)
  = if Float.is_zero r then Raise ZeroDivisionError
    else Ok (Float (Float.div (Float.of_Z 1) r)).
Proof. reflexivity. Qed.

(** What [compose_counter_metric] does, by cases on [float(rate)]. *)
Lemma compose_counter_metric_cases {Y : Type} (key : string) (x : Float.t)
    (rate : rate_arg) (p : processor R F M) :
  let d := Dict.setdefault key (Int 0) (counter_metrics p) in
  let count := slot key (counter_metrics p) in
  compose_counter_metric (Y:=Y) float key x rate p =
  match rate_value float rate with
  | Raise e => Outcome (Raise e) (set_counter_metrics d p) []
  | Ok r =>
      if Float.is_zero r
      then Outcome (Raise ZeroDivisionError) (set_counter_metrics d p) []
      else Outcome (Ok tt)
             (set_counter_metrics
                (Dict.set key
                   (Num.add count
                      (Float (Float.mul x (Float.div (Float.of_Z 1) r))))
                   d) p) []
  end.
Proof.
  intros d count. unfold compose_counter_metric.
  assert (Hd : Dict.get key d = Some count) by apply get_setdefault_same.
  unfold d, Dict.setdefault in *.
  assert (Hrate : forall q : processor R F M,
            float_of_rate (Y:=Y) float rate q
            = match rate_value float rate with
              | Ok r => Outcome (Ok r) q []
              | Raise e => Outcome (Raise e) q []
              end).
  { intros q. destruct rate as [z|s]; cbn [float_of_rate rate_value].
    - now destruct (Float.of_int z).
    - unfold py_float. now destruct (float s). }
  destruct (Dict.mem key (counter_metrics p)) eqn:Hmem;
    cbn -[float_of_rate]; rewrite Hmem; cbn -[float_of_rate]; rewrite Hd;
    cbn -[float_of_rate]; rewrite Hrate;
    (destruct (rate_value float rate) as [r|e]; [|now destruct p]);
    rewrite one_over; destruct (Float.is_zero r); cbn; now destruct p.
Qed.


Lemma record_timing_returns {Y : Type} (metric_type : string)
    (start : Float.t) (p : processor R F M) :
  value (record_timing (Y:=Y) time_function metric_type start p) = Ok tt.
Proof.
  unfold record_timing. cbn.
  rewrite get_setdefault_same. cbn.
  rewrite get_setdefault_same. reflexivity.
Qed.


End Ingestion2.
Section CounterRate.

Variable float : string -> option Float.t.
Variable time_function : nat -> Float.t.
Context {R F M : Type} `{MeterMetricReporter R} `{Plugin F M}.

Lemma process_counter_line (message key data v f3 : string) (x : Float.t)
    (p : processor R F M) :
  Bytes.split_once ":" (Bytes.strip message) = Some (key, data) ->
  Bytes.split "|" data = [v; "c"; f3] ->
  normalize_key key = Ok key ->
  float v = Some x ->
  process (Y:=emission) float time_function message p =
  (match RATE_match f3 with
   | None => fail message
   | Some rate => compose_counter_metric float key x (RateBytes rate)
   end ;;
   record_timing time_function "c" (time_function (clock p)))
    (set_clock (S (clock p)) p).
Proof.
  intros Hkey Hfields Hsafe Hv.
  rewrite (process_fields float time_function message key data _ Hkey Hfields)
    by (simpl; lia || exact Hsafe).
  unfold process_message, process_counter_metric. cbn. rewrite Hv. cbn.
  rewrite !outcome_eta.
  reflexivity.
Qed.


End CounterRate.



Section UnparseableValue.

Variable float : string -> option Float.t.
Variable time_function : nat -> Float.t.
Context {R F M : Type} `{MeterMetricReporter R} `{Plugin F M}.

(** A gauge or meter line whose value field is not the text of a float is
    logged by [fail], and then [process] raises [UnboundLocalError] to its
    caller: the [except] clauses of [process_gauge_metric] and
    [process_meter_metric] call [fail] without returning. *)
Lemma unparseable_value_raises
    (message key data v kind : string) (p : processor R F M) :
  Bytes.split_once ":" (Bytes.strip message) = Some (key, data) ->
  Bytes.split "|" data = [v; kind] ->
  normalize_key key = Ok key ->
  kind = "g" \/ kind = "m" ->
  Bytes.contains ":" v = false ->
  float v = None ->
  let o := process (Y:=emission) float time_function message p in
  value o = Raise UnboundLocalError /\
  log (state o) = (log p ++ [BadLine message])%list.
Proof.
  intros Hkey Hfields Hsafe Hkind Hv Hfloat o. subst o.
  rewrite (process_fields float time_function message key data _ Hkey Hfields)
    by (simpl; lia || exact Hsafe).
  apply split_without in Hv.
  destruct Hkind as [-> | ->].
  - unfold process_message, process_gauge_metric. cbn.
    rewrite Hv. cbn. rewrite Hfloat. unfold fail. cbn. split; reflexivity.
  - unfold process_message, process_meter_metric. cbn.
    rewrite Hv. cbn. rewrite Hfloat. unfold fail. cbn. split; reflexivity.
Qed.

End UnparseableValue.

(** C1, where the code departs from it: [process] raises to its caller on
    the gauge line [g:abc|g] and on the meter line [m:abc|m], after it has
    logged them. *)
Theorem gauge_meter_unparseable_value_raises :
  let p : processor (string * string * number) Empty_set Empty_set :=
    MessageProcessor [] in
  let gauge := process (Y:=emission) Literal.float frozen "g:abc|g" p in
  let meter := process (Y:=emission) Literal.float frozen "m:abc|m" p in
  value gauge = Raise UnboundLocalError /\
  log (state gauge) = [BadLine "g:abc|g"] /\
  value meter = Raise UnboundLocalError /\
  log (state meter) = [BadLine "m:abc|m"].
Proof.
  intros p gauge meter.
  destruct (unparseable_value_raises Literal.float frozen
              "g:abc|g" "g" "abc|g" "abc" "g" p eq_refl eq_refl eq_refl
              (or_introl eq_refl) eq_refl eq_refl) as [Hg Hglog].
  destruct (unparseable_value_raises Literal.float frozen
              "m:abc|m" "m" "abc|m" "abc" "m" p eq_refl eq_refl eq_refl
              (or_intror eq_refl) eq_refl eq_refl) as [Hm Hmlog].
  repeat split; assumption.
Qed.
(** ** Gauges *)

Section Gauges.

Variable time_function : nat -> Float.t.
Context {R F M : Type} `{MeterMetricReporter R} `{Plugin F M}.




(** A flush that runs to its end went through its six phases. *)
Lemma flush_ok_inv (interval percent : Z) (p : processor R F M) :
  value (flush time_function interval percent p) = Ok tt ->
  exists seconds timestamp s1 s2 s3 s4 s5 s6 g1 g2 g3 g4 g5 g6
         d1 d2 d3 d4 d5,
    Num.truediv (Int interval) (Int 1000) = Ok seconds /\
    Float.to_int (time_function (clock p)) = Ok timestamp /\
    flush_counter_metrics seconds timestamp (ticks 2 p)
      = Outcome (Ok tt) s1 g1 /\
    flush_timer_metrics percent timestamp (ticks 2 s1)
      = Outcome (Ok tt) s2 g2 /\
    flush_gauge_metrics timestamp (ticks 2 s2) = Outcome (Ok tt) s3 g3 /\
    flush_meter_metrics timestamp (ticks 2 s3) = Outcome (Ok tt) s4 g4 /\
    flush_plugin_metrics seconds timestamp (ticks 2 s4)
      = Outcome (Ok tt) s5 g5 /\
    flush_metrics_summary
      (Z.of_nat (length g1) + Z.of_nat (length g2) + Z.of_nat (length g3)
       + Z.of_nat (length g4) + Z.of_nat (length g5))
      [("counter", (Z.of_nat (length g1), d1));
       ("timer", (Z.of_nat (length g2), d2));
       ("gauge", (Z.of_nat (length g3), d3));
       ("meter", (Z.of_nat (length g4), d4));
       ("plugin", (Z.of_nat (length g5), d5))]
      timestamp (ticks 1 s5) = Outcome (Ok tt) s6 g6 /\
    flush time_function interval percent p =
    Outcome (Ok tt) s6
            (concat g1 ++ concat g2 ++ concat g3 ++ concat g4 ++ concat g5
             ++ concat g6)%list.
Proof.
  unfold flush.
  destruct (Num.truediv (Int interval) (Int 1000)) as [seconds|e0] eqn:E0;
    cbn; [|discriminate].
  destruct (Float.to_int (time_function (clock p))) as [timestamp|et]
    eqn:Et; cbn; [|discriminate].
  unfold drain, ticks. cbn.
  destruct (flush_counter_metrics _ _ _) as [[[]|e1] s1 g1] eqn:E1; cbn;
    [|discriminate].
  destruct (flush_timer_metrics _ _ _) as [[[]|e2] s2 g2] eqn:E2; cbn;
    [|discriminate].
  destruct (flush_gauge_metrics _ _) as [[[]|e3] s3 g3] eqn:E3; cbn;
    [|discriminate].
  destruct (flush_meter_metrics _ _) as [[[]|e4] s4 g4] eqn:E4; cbn;
    [|discriminate].
  destruct (flush_plugin_metrics _ _ _) as [[[]|e5] s5 g5] eqn:E5; cbn;
    [|discriminate].
  destruct (flush_metrics_summary _ _ _ _) as [[[]|e6] s6 g6] eqn:E6; cbn;
    [|discriminate].
  intros _. rewrite app_nil_r.
  exists seconds, timestamp, s1, s2, s3, s4, s5, s6, g1, g2, g3, g4, g5, g6.
  do 5 eexists.
  repeat split; first [reflexivity | eassumption].
Qed.



End Gauges.


(** ** Self-telemetry *)

Section Summary.

Variable time_function : nat -> Float.t.
Context {R F M : Type} `{MeterMetricReporter R} `{Plugin F M}.

Lemma flush_metrics_summary_inv (num_stats c t g m pl : Z)
    (dc dt dg dm dpl : Float.t) (timestamp : Z) (s s' : processor R F M)
    (groups : list group) :
  flush_metrics_summary num_stats
    [("counter", (c, dc)); ("timer", (t, dt)); ("gauge", (g, dg));
     ("meter", (m, dm)); ("plugin", (pl, dpl))] timestamp s
  = Outcome (Ok tt) s' groups ->
  let prefix := internal_metrics_prefix s in
  exists received,
    groups =
    List.app
     [[(prefix ++ "numStats", Int num_stats, timestamp)];
      [(prefix ++ "flush.counter.count", Int c, timestamp);
       (prefix ++ "flush.counter.duration", Num.mul (Float dc) (Int 1000),
        timestamp)];
      [(prefix ++ "flush.timer.count", Int t, timestamp);
       (prefix ++ "flush.timer.duration", Num.mul (Float dt) (Int 1000),
        timestamp)];
      [(prefix ++ "flush.gauge.count", Int g, timestamp);
       (prefix ++ "flush.gauge.duration", Num.mul (Float dg) (Int 1000),
        timestamp)];
      [(prefix ++ "flush.meter.count", Int m, timestamp);
       (prefix ++ "flush.meter.duration", Num.mul (Float dm) (Int 1000),
        timestamp)];
      [(prefix ++ "flush.plugin.count", Int pl, timestamp);
       (prefix ++ "flush.plugin.duration", Num.mul (Float dpl) (Int 1000),
        timestamp)]]
     received.
Proof.
  intros E prefix.
  pose (one := fun x : string * (Z * Float.t) =>
                 let '(name, (value, duration)) := x in
                 [(prefix ++ "flush." ++ name ++ ".count",
                   Int value, timestamp);
                  (prefix ++ "flush." ++ name ++ ".duration",
                   Num.mul (Float duration) (Int 1000), timestamp)]).
  revert E. unfold flush_metrics_summary.
  cbn -[String.append for_each].
  match goal with
  | |- context [for_each ?l ?body ?s0] =>
      destruct (for_each_yields_map l body one
                  (fun q => internal_metrics_prefix q = prefix)) with (s := s0)
        as (s1 & E1 & _)
  end.
  { intros [name [value duration]] q Hq. eexists. split.
    - cbn -[String.append]. rewrite Hq. reflexivity.
    - exact Hq. }
  { reflexivity. }
  rewrite E1. clear E1.
  cbn -[String.append for_each map].
  destruct (for_each _ _ _) as [[[]|e] s2 received];
    cbn -[String.append map]; [|discriminate].
  intros E. injection E as _ <-.
  exists (received ++ [])%list. reflexivity.
Qed.

(** C7. In a flush that runs to its end, the value emitted for
    [statsd.numStats] is the sum of the five values emitted in the same
    flush for [statsd.flush.<kind>.count], for the kinds counter, timer,
    gauge, meter and plugin. *)
Theorem numStats_is_sum_of_flush_counts (interval percent : Z)
    (p : processor R F M) :
  internal_metrics_prefix p = "statsd." ->
  value (flush time_function interval percent p) = Ok tt ->
  exists pre received timestamp c t g m pl dc dt dg dm dpl,
    yielded (flush time_function interval percent p) =
    (pre ++
     [("statsd.numStats", Int (c + t + g + m + pl), timestamp);
      ("statsd.flush.counter.count", Int c, timestamp);
      ("statsd.flush.counter.duration", dc, timestamp);
      ("statsd.flush.timer.count", Int t, timestamp);
      ("statsd.flush.timer.duration", dt, timestamp);
      ("statsd.flush.gauge.count", Int g, timestamp);
      ("statsd.flush.gauge.duration", dg, timestamp);
      ("statsd.flush.meter.count", Int m, timestamp);
      ("statsd.flush.meter.duration", dm, timestamp);
      ("statsd.flush.plugin.count", Int pl, timestamp);
      ("statsd.flush.plugin.duration", dpl, timestamp)]
     ++ received)%list.
Proof.
  intros Hprefix Hok. apply flush_ok_inv in Hok.
  destruct Hok as (seconds & ts & s1 & s2 & s3 & s4 & s5 & s6
                   & g1 & g2 & g3 & g4 & g5 & g6 & d1 & d2 & d3 & d4 & d5
                   & _ & _ & E1 & E2 & E3 & E4 & E5 & E6 & ->).
  pose proof (keeps_flush_counter_metrics internal_metrics_prefix
                seconds ts ltac:(reflexivity) (ticks 2 p)) as K1.
  pose proof (keeps_flush_timer_metrics internal_metrics_prefix percent ts
                ltac:(reflexivity) (ticks 2 s1)) as K2.
  pose proof (keeps_flush_gauge_metrics internal_metrics_prefix ts
                (ticks 2 s2)) as K3.
  pose proof (keeps_flush_meter_metrics internal_metrics_prefix ts
                ltac:(reflexivity) (ticks 2 s3)) as K4.
  pose proof (keeps_flush_plugin_metrics internal_metrics_prefix
                seconds ts ltac:(reflexivity) (ticks 2 s4)) as K5.
  rewrite E1 in K1. rewrite E2 in K2. rewrite E3 in K3. rewrite E4 in K4.
  rewrite E5 in K5. cbn in K1, K2, K3, K4, K5.
  apply flush_metrics_summary_inv in E6. cbv zeta in E6.
  destruct E6 as [received ->].
  cbn [ticks set_clock internal_metrics_prefix] in *.
  replace (internal_metrics_prefix s5) with "statsd." by congruence.
  cbn [yielded].
  exists (concat g1 ++ concat g2 ++ concat g3 ++ concat g4 ++ concat g5)%list,
         (concat received), ts.
  exists (Z.of_nat (length g1)), (Z.of_nat (length g2)),
         (Z.of_nat (length g3)), (Z.of_nat (length g4)),
         (Z.of_nat (length g5)).
  exists (Num.mul (Float d1) (Int 1000)), (Num.mul (Float d2) (Int 1000)),
         (Num.mul (Float d3) (Int 1000)), (Num.mul (Float d4) (Int 1000)),
         (Num.mul (Float d5) (Int 1000)).
  rewrite <- !app_assoc. reflexivity.
Qed.

End Summary.


Lemma numStats_is_sum_of_flush_counts_witness :
  let p : processor (string * string * number) Empty_set Empty_set :=
    state (for_each ["foo:1|c"; "t:100|ms"; "t:200|ms"; "g:42|g"; "u:7|ms"]
                    (process (Y:=emission) Literal.float ticking)
                    (MessageProcessor [])) in
  exists pre received timestamp c t g m pl dc dt dg dm dpl,
    yielded (flush ticking 10000 90 p) =
    (pre ++
     [("statsd.numStats", Int (c + t + g + m + pl), timestamp);
      ("statsd.flush.counter.count", Int c, timestamp);
      ("statsd.flush.counter.duration", dc, timestamp);
      ("statsd.flush.timer.count", Int t, timestamp);
      ("statsd.flush.timer.duration", dt, timestamp);
      ("statsd.flush.gauge.count", Int g, timestamp);
      ("statsd.flush.gauge.duration", dg, timestamp);
      ("statsd.flush.meter.count", Int m, timestamp);
      ("statsd.flush.meter.duration", dm, timestamp);
      ("statsd.flush.plugin.count", Int pl, timestamp);
      ("statsd.flush.plugin.duration", dpl, timestamp)]
     ++ received)%list.
Proof.
  intros p.
  apply numStats_is_sum_of_flush_counts; vm_compute; reflexivity.
Defined.
(** ** Counters *)

Section CounterFlush.

Variable time_function : nat -> Float.t.
Context {R F M : Type} `{MeterMetricReporter R} `{Plugin F M}.

(** [flush] divides the interval by 1000, reads the clock twice, runs the
    counters with the quotient, and goes on with phases that leave the
    counters alone. *)
Lemma flush_counters_then_rest (interval percent : Z) :
  exists rest : Z -> Float.t -> number -> Z
                -> method (R:=R) (F:=F) (M:=M) emission unit,
    (forall events start seconds timestamp,
        keeps counter_metrics (rest events start seconds timestamp)) /\
    forall p,
      flush time_function interval percent p =
      (seconds <- lift (Num.truediv (Int interval) (Int 1000)) ;;
       t <- now time_function ;;
       timestamp <- lift (Float.to_int t) ;;
       start <- now time_function ;;
       events <- drain (flush_counter_metrics seconds timestamp) ;;
       rest events start seconds timestamp) p.
Proof.
  eexists. split; cycle 1.
  - intros p. unfold flush. reflexivity.
  - intros events start seconds timestamp. cbv beta. frame.
Qed.

Lemma flush_counter_phase (interval percent : Z) (p : processor R F M)
    (seconds : number) (timestamp : Z) :
  Num.truediv (Int interval) (Int 1000) = Ok seconds ->
  Float.to_int (time_function (clock p)) = Ok timestamp ->
  let counters := flush_counter_metrics seconds timestamp (ticks 2 p) in
  let o := flush time_function interval percent p in
  (forall e, value counters = Raise e ->
             value o = Raise e /\ yielded o = concat (yielded counters)) /\
  (exists more, yielded o = (concat (yielded counters) ++ more)%list) /\
  counter_metrics (state o) = counter_metrics (state counters).
Proof.
  intros Hseconds Htimestamp counters o. subst o.
  destruct (flush_counters_then_rest interval percent) as (rest & Hrest & ->).
  rewrite Hseconds. cbn -[drain]. rewrite Htimestamp. cbn -[drain].
  change (set_clock (S (S (clock p))) (set_clock (S (clock p)) p))
    with (ticks 2 p).
  unfold drain. fold counters.
  destruct counters as [[[]|e] s1 g1]; cbn.
  - specialize (Hrest (Z.of_nat (length g1)) (time_function (S (clock p)))
                      seconds timestamp s1).
    destruct (rest _ _ _ _ s1) as [v s2 ys]. cbn in *.
    split; [discriminate|]. split; [now exists ys|exact Hrest].
  - split; [|split].
    + intros e' [= <-]. split; reflexivity.
    + exists []. now rewrite app_nil_r.
    + reflexivity.
Qed.

Lemma flat_map_singletons {A B : Type} (f : A -> B) (l : list A) :
  flat_map (fun x => [f x]) l = map f l.
Proof. induction l as [|x l IH]; simpl; congruence. Qed.

Lemma int_quotient_ok (a b : number) (value : Z) :
  int_quotient a b = Ok value ->
  exists q, Num.truediv a b = Ok q /\ Num.to_int q = Ok value.
Proof.
  unfold int_quotient. destruct (Num.truediv a b) as [q|e]; [|discriminate].
  intros Hq. now exists q.
Qed.

(** What the loop of the counters does with one counter. *)
Lemma flush_counter_step (interval : number) (timestamp : Z) (key : string)
    (count : number) (q : processor R F M) :
  (modify (fun p => set_counter_metrics
                      (Dict.set key (Int 0) (counter_metrics p)) p) ;;
   quotient <- lift (Num.truediv count interval) ;;
   value <- lift (Num.to_int quotient) ;;
   p <- get ;;
   yield [(stats_prefix p ++ key, Int value, timestamp);
          (count_prefix p ++ key, count, timestamp)]) q
  = match int_quotient count interval with
    | Ok value =>
        Outcome (Ok tt) (zero_slot (key, count) q)
                [[(stats_prefix q ++ key, Int value, timestamp);
                  (count_prefix q ++ key, count, timestamp)]]
    | Raise e => Outcome (Raise e) (zero_slot (key, count) q) []
    end.
Proof.
  unfold int_quotient. cbn.
  destruct (Num.truediv count interval) as [quotient|e]; cbn;
    [|reflexivity].
  destruct (Num.to_int quotient) as [value|e]; reflexivity.
Qed.

(** When every count can be rated the counters are flushed to the end. *)
Lemma flush_counter_metrics_eq (interval : number) (timestamp : Z)
    (p : processor R F M) :
  Forall (rated interval) (counter_metrics p) ->
  flush_counter_metrics interval timestamp p =
  Outcome (Ok tt)
    (fold_left (fun q slot => zero_slot slot q) (counter_metrics p) p)
    (map (counter_group p interval timestamp) (counter_metrics p)).
Proof.
  intros Hrated. unfold flush_counter_metrics. cbn -[for_each].
  rewrite (for_each_flat (counter_metrics p) _
             (fun slot => [counter_group p interval timestamp slot])
             zero_slot
             (fun q => stats_prefix q = stats_prefix p /\
                       count_prefix q = count_prefix p)).
  - now rewrite flat_map_singletons.
  - intros [key count] q Hin [Hs Hc]. split; [|split; assumption].
    rewrite flush_counter_step.
    rewrite Forall_forall in Hrated.
    destruct (Hrated _ Hin) as [value Hvalue]. cbn [snd] in Hvalue.
    unfold counter_group, truncated_quotient. cbn [fst snd].
    now rewrite Hvalue, Hs, Hc.
  - split; reflexivity.
Qed.

(** A count that cannot be rated stops the flush at the first counter. *)
Lemma flush_counter_metrics_stops (interval : number) (timestamp : Z)
    (p : processor R F M) (key : string) (count : number)
    (rest : Dict.t number) (e : exn) :
  counter_metrics p = (key, count) :: rest ->
  int_quotient count interval = Raise e ->
  flush_counter_metrics interval timestamp p =
  Outcome (Raise e) (zero_slot (key, count) p) [].
Proof.
  intros Hp Hraise. unfold flush_counter_metrics. cbn -[for_each].
  rewrite Hp. cbn [for_each]. unfold bind at 1.
  rewrite flush_counter_step, Hraise. reflexivity.
Qed.

(** The first counter is the first thing a flush yields. *)
Lemma flush_counter_metrics_first (interval : number) (timestamp : Z)
    (p : processor R F M) (key : string) (count : number)
    (rest : Dict.t number) (value : Z) :
  counter_metrics p = (key, count) :: rest ->
  int_quotient count interval = Ok value ->
  exists more,
    yielded (flush_counter_metrics interval timestamp p) =
    [(stats_prefix p ++ key, Int value, timestamp);
     (count_prefix p ++ key, count, timestamp)] :: more.
Proof.
  intros Hp Hvalue. unfold flush_counter_metrics. cbn -[for_each].
  rewrite Hp. cbn [for_each]. unfold bind at 1.
  rewrite flush_counter_step, Hvalue.
  destruct (for_each rest _ _) as [v s ys]. now exists ys.
Qed.

(** The intervals from 1 to 999 give a divisor that is not 0. *)
Lemma sub_second_intervals : forallb sub_second (seq 1 999) = true.
Proof. vm_compute. reflexivity. Qed.

(** C6, amended.  [flush] turns its interval, in milliseconds,
    into seconds by the division [interval / 1000], which gives a float and
    does not truncate, and divides the counters by that float: the first
    counter is yielded first, with its count divided by the seconds and
    truncated, or stops the flush when that is no integer.  An interval of
    1500 divides by 3/2, an interval between 0 and 1000 by a float between
    0 and 1 that is not 0, and an interval of 0 by zero. *)
Theorem flush_interval_in_seconds (interval percent : Z)
    (p : processor R F M) (key : string) (count : number)
    (rest : Dict.t number) (seconds : number) (timestamp : Z) :
  counter_metrics p = (key, count) :: rest ->
  Num.truediv (Int interval) (Int 1000) = Ok seconds ->
  Float.to_int (time_function (clock p)) = Ok timestamp ->
  let o := flush time_function interval percent p in
  (forall value, int_quotient count seconds = Ok value ->
     exists more,
       yielded o =
       (stats_prefix p ++ key, Int value, timestamp)
       :: (count_prefix p ++ key, count, timestamp) :: more) /\
  (forall e, int_quotient count seconds = Raise e ->
     value o = Raise e /\ yielded o = []) /\
  (interval = 1500 ->
     seconds = Float (Float.div (Float.of_Z 3) (Float.of_Z 2))) /\
  (0 < interval < 1000 ->
     exists x, seconds = Float x /\ Float.is_zero x = false /\
               Float.ltb x (Float.of_Z 1) = true) /\
  (interval = 0 ->
     seconds = Float Float.zero /\
     forall c, Num.float count = Ok c ->
               int_quotient count seconds = Raise ZeroDivisionError).
Proof.
  intros Hp Hseconds Htimestamp o.
  destruct (flush_counter_phase interval percent p seconds timestamp
              Hseconds Htimestamp) as (Hraise & Hout & _).
  fold o in Hraise, Hout.
  split; [|split; [|split; [|split]]].
  - intros value Hvalue.
    destruct (flush_counter_metrics_first seconds timestamp (ticks 2 p)
                key count rest value Hp Hvalue) as [groups Hgroups].
    destruct Hout as [more Hout]. rewrite Hgroups in Hout.
    eexists. rewrite Hout. reflexivity.
  - intros e He.
    rewrite (flush_counter_metrics_stops seconds timestamp (ticks 2 p)
               key count rest e Hp He) in Hraise.
    apply (Hraise e). reflexivity.
  - intros ->. vm_compute in Hseconds. injection Hseconds as <-.
    vm_compute. reflexivity.
  - intros Hrange.
    pose proof sub_second_intervals as Hall.
    rewrite forallb_forall in Hall.
    specialize (Hall (Z.to_nat interval)).
    unfold sub_second in Hall. rewrite Z2Nat.id in Hall by lia.
    rewrite Hseconds in Hall.
    assert (Hin : In (Z.to_nat interval) (seq 1 999))
      by (apply in_seq; lia).
    specialize (Hall Hin). destruct seconds as [z|x]; [discriminate|].
    apply andb_true_iff in Hall as [Hzero Hless].
    exists x. split; [reflexivity|]. split; [|exact Hless].
    now apply negb_true_iff.
  - intros ->. vm_compute in Hseconds. injection Hseconds as <-.
    split; [reflexivity|].
    intros c Hc. unfold int_quotient, Num.truediv.
    destruct count as [z|x].
    + cbn [Num.float] in *. now rewrite Hc.
    + reflexivity.
Qed.

End CounterFlush.

Lemma flush_interval_in_seconds_witness :
  let p : processor (string * string * number) Empty_set Empty_set :=
    state (process (Y:=emission) Literal.float frozen "foo:3|c"
                   (MessageProcessor [])) in
  (exists more,
     yielded (flush frozen 1500 90 p) =
     ("stats.foo", Int 2, 1000)
     :: ("stats_counts.foo", Float (Float.of_Z 3), 1000) :: more) /\
  value (flush frozen 0 90 p) = Raise ZeroDivisionError.
Proof.
  intros p.
  assert (Hp : counter_metrics p = [("foo", Float (Float.of_Z 3))])
    by (vm_compute; reflexivity).
  assert (Hclock : Float.to_int (frozen (clock p)) = Ok 1000)
    by (vm_compute; reflexivity).
  split.
  - assert (Hseconds : Num.truediv (Int 1500) (Int 1000)
                       = Ok (Float (Float.div (Float.of_Z 3) (Float.of_Z 2))))
      by (vm_compute; reflexivity).
    destruct (flush_interval_in_seconds frozen 1500 90 p "foo"
                (Float (Float.of_Z 3)) [] _ 1000 Hp Hseconds Hclock)
      as (Hfirst & _).
    apply (Hfirst 2). vm_compute. reflexivity.
  - assert (Hseconds : Num.truediv (Int 0) (Int 1000) = Ok (Float Float.zero))
      by (vm_compute; reflexivity).
    destruct (flush_interval_in_seconds frozen 0 90 p "foo"
                (Float (Float.of_Z 3)) [] _ 1000 Hp Hseconds Hclock)
      as (_ & Hstop & _).
    apply (Hstop ZeroDivisionError). vm_compute. reflexivity.
Defined.

(** C6, where the code departs from it: with the counter [foo] at 3, a
    flush of 1500 ms yields [stats.foo = 2], the count divided by 3/2, where
    a divisor of 1 would give 3; and a flush of 999 ms divides by no zero:
    it runs to its end and yields [stats.foo = 3]. *)
Lemma flush_does_not_truncate_interval :
  let p : processor (string * string * number) Empty_set Empty_set :=
    state (process (Y:=emission) Literal.float frozen "foo:3|c"
                   (MessageProcessor [])) in
  hd_error (yielded (flush frozen 1500 90 p))
    = Some ("stats.foo", Int 2, 1000) /\
  value (flush frozen 999 90 p) = Ok tt /\
  hd_error (yielded (flush frozen 999 90 p))
    = Some ("stats.foo", Int 3, 1000).
Proof.
  intros p. split; [|split]; vm_compute; reflexivity.
Qed.
Section CounterIngest.

Variable float : string -> option Float.t.
Variable time_function : nat -> Float.t.
Context {R F M : Type} `{MeterMetricReporter R} `{Plugin F M}.

Lemma process_counter_sample (message key : string) (v r : Float.t)
    (p : processor R F M) :
  counter_line float message key v r ->
  exists rate,
    rate_value float rate = Ok r /\
    process (Y:=emission) float time_function message p =
    (compose_counter_metric float key v rate ;;
     record_timing time_function "c" (time_function (clock p)))
      (set_clock (S (clock p)) p).
Proof.
  intros (data & vt & Hkey & Hsafe & Hv & Hfields).
  destruct Hfields as [[Hfields ->] | (f3 & g & Hfields & Hrate & Hg)].
  - exists (RateInt 1). split; [reflexivity|].
    rewrite (process_fields float time_function message key data _
               Hkey Hfields) by (simpl; lia || exact Hsafe).
    unfold process_message, process_counter_metric. cbn. rewrite Hv. cbn.
    rewrite !outcome_eta. reflexivity.
  - exists (RateBytes g). split; [cbn; now rewrite Hg|].
    rewrite (process_counter_line float time_function _ _ _ _ _ _ _
               Hkey Hfields Hsafe Hv), Hrate.
    reflexivity.
Qed.

(** An accepted sample adds [v * (1 / r)] to the slot of its key, which it
    creates at 0 when the key is new. *)
Lemma process_counter_effect (s : counter_sample) (p : processor R F M) :
  accepted float s ->
  let o := process (Y:=emission) float time_function (sample_line s) p in
  value o = Ok tt /\
  counter_metrics (state o) =
  Dict.set (sample_key s)
           (Num.add (slot (sample_key s) (counter_metrics p))
                    (Float (contribution s)))
           (Dict.setdefault (sample_key s) (Int 0) (counter_metrics p)) /\
  stats_prefix (state o) = stats_prefix p /\
  count_prefix (state o) = count_prefix p.
Proof.
  intros [Hline Hrate] o. subst o.
  destruct (process_counter_sample _ _ _ _ p Hline) as (rate & Hr & ->).
  unfold bind. rewrite compose_counter_metric_cases, Hr, Hrate.
  set (p2 := set_counter_metrics _ _).
  pose proof (record_timing_returns (Y:=emission) time_function "c"
                (time_function (clock p)) p2) as Hret.
  pose proof (keeps_record_timing time_function counter_metrics
                (Y:=emission) "c" (time_function (clock p))
                ltac:(reflexivity) ltac:(reflexivity) ltac:(reflexivity) p2)
    as Hcnt.
  pose proof (keeps_record_timing time_function stats_prefix
                (Y:=emission) "c" (time_function (clock p))
                ltac:(reflexivity) ltac:(reflexivity) ltac:(reflexivity) p2)
    as Hsp.
  pose proof (keeps_record_timing time_function count_prefix
                (Y:=emission) "c" (time_function (clock p))
                ltac:(reflexivity) ltac:(reflexivity) ltac:(reflexivity) p2)
    as Hcp.
  destruct (record_timing _ _ _ _) as [v' s' ys']. cbn in *.
  repeat split; assumption.
Qed.

Lemma get_in {V : Type} (k : string) (v : V) (d : Dict.t V) :
  Dict.get k d = Some v -> In (k, v) d.
Proof.
  induction d as [|[k' v'] d IH]; simpl; [discriminate|].
  destruct (String.eqb_spec k k') as [->|Hne].
  - intros [= ->]. now left.
  - intros Hget. right. auto.
Qed.

Lemma slot_after_sample (k key : string) (x : number) (d : Dict.t number) :
  slot k (Dict.set key x (Dict.setdefault key (Int 0) d)) =
  if String.eqb key k then x else slot k d.
Proof.
  unfold slot. destruct (String.eqb_spec key k) as [->|Hne].
  - now rewrite get_set_same.
  - now rewrite get_set_other, get_setdefault_other.
Qed.

Lemma mem_after_sample (k key : string) (x : number) (d : Dict.t number) :
  Dict.mem k (Dict.set key x (Dict.setdefault key (Int 0) d)) =
  String.eqb key k || Dict.mem k d.
Proof.
  unfold Dict.mem. destruct (String.eqb_spec key k) as [->|Hne]; simpl.
  - now rewrite get_set_same.
  - now rewrite get_set_other, get_setdefault_other.
Qed.

(** After a run of accepted samples every slot holds what the samples of
    its key have added to it, one after the other. *)
Lemma ingest_counters (samples : list counter_sample) :
  Forall (accepted float) samples ->
  forall p : processor R F M,
    let o := for_each (map sample_line samples)
                      (process (Y:=emission) float time_function) p in
    value o = Ok tt /\
    stats_prefix (state o) = stats_prefix p /\
    count_prefix (state o) = count_prefix p /\
    forall k,
      slot k (counter_metrics (state o))
      = total k samples (slot k (counter_metrics p)) /\
      (Dict.mem k (counter_metrics p) = true \/
       In k (map sample_key samples) ->
       Dict.mem k (counter_metrics (state o)) = true).
Proof.
  induction 1 as [|s samples Hs _ IH]; intros p.
  - cbn. repeat split; auto.
    intros [Hmem | []]. exact Hmem.
  - cbn [map for_each]. unfold bind.
    destruct (process_counter_effect s p Hs) as (Hv & Hc & Hsp & Hcp).
    destruct (process float time_function (sample_line s) p)
      as [[[]|e] p1 ys1]; cbn in Hv, Hc, Hsp, Hcp; [|discriminate].
    specialize (IH p1). cbv zeta in IH.
    destruct (for_each _ _ p1) as [v2 p2 ys2]. cbn in *.
    destruct IH as (IHv & IHsp & IHcp & IHk).
    repeat split; try congruence.
    + destruct (IHk k) as [-> _]. rewrite Hc, slot_after_sample.
      unfold total. cbn [fold_left].
      destruct (String.eqb_spec (sample_key s) k) as [->|Hne]; reflexivity.
    + intros Hk. apply (IHk k). rewrite Hc, mem_after_sample.
      destruct Hk as [-> | [<- | Hin]].
      * left. apply orb_true_r.
      * left. now rewrite String.eqb_refl.
      * now right.
Qed.

End CounterIngest.

Section CounterTotals.

Variable float : string -> option Float.t.
Variable time_function : nat -> Float.t.
Context {R F M : Type} `{MeterMetricReporter R} `{Plugin F M}.

Lemma counters_after_zeroing (l : list (string * number))
    (q : processor R F M) :
  counter_metrics (fold_left (fun q slot => zero_slot slot q) l q) =
  fold_left (fun d slot => Dict.set (fst slot) (Int 0) d) l
            (counter_metrics q).
Proof.
  revert q. induction l as [|x l IH]; intros q; [reflexivity|].
  cbn [fold_left]. now rewrite IH.
Qed.

Lemma get_after_zeroing (k : string) (l : list (string * number))
    (d : Dict.t number) :
  In k (map fst l) \/ Dict.get k d = Some (Int 0) ->
  Dict.get k (fold_left (fun d slot => Dict.set (fst slot) (Int 0) d) l d)
  = Some (Int 0).
Proof.
  revert d. induction l as [|[k' c] l IH]; intros d Hk; cbn [fold_left fst].
  - destruct Hk as [[] | Hk]. exact Hk.
  - apply IH. destruct (String.eqb_spec k' k) as [->|Hne].
    + right. apply get_set_same.
    + destruct Hk as [[Heq | Hin] | Hget].
      * contradiction.
      * now left.
      * right. now rewrite get_set_other.
Qed.

Lemma to_int_finite (x : Float.t) :
  Float.is_finite x = true -> exists z, Float.to_int x = Ok z.
Proof.
  destruct x; try discriminate; intros _; eexists; reflexivity.
Qed.

(** C2, amended.  After a run of accepted counter samples since
    the last flush, the next flush emits, for every key [k] of the run,
    [stats_counts.k] with the count of [k], which is what the samples of [k]
    have added to 0 in the order of their arrival, each its
    [v * (1 / r)] in floating point, and [stats.k] with that count divided
    by the interval in seconds and truncated toward zero to an integer; it
    leaves the slot of [k] in place, at 0. *)
Theorem counter_flush_totals (samples : list counter_sample)
    (p : processor R F M) (interval percent : Z) (key : string)
    (seconds : number) :
  stats_prefix p = "stats." ->
  count_prefix p = "stats_counts." ->
  (forall k, slot k (counter_metrics p) = Int 0) ->
  Forall (accepted float) samples ->
  In key (map sample_key samples) ->
  finite_clock time_function ->
  Num.truediv (Int interval) (Int 1000) = Ok seconds ->
  let ingest := for_each (map sample_line samples)
                         (process (Y:=emission) float time_function) p in
  Forall (rated seconds) (counter_metrics (state ingest)) ->
  let o := flush time_function interval percent (state ingest) in
  let count := total key samples (Int 0) in
  value ingest = Ok tt /\
  exists value timestamp,
    int_quotient count seconds = Ok value /\
    In ("stats_counts." ++ key, count, timestamp) (yielded o) /\
    In ("stats." ++ key, Int value, timestamp) (yielded o) /\
    Dict.get key (counter_metrics (state o)) = Some (Int 0).
Proof.
  intros Hstats Hcounts Hzero Hsamples Hkey Hclock Hseconds ingest Hrated
         o count.
  destruct (ingest_counters float time_function samples Hsamples p)
    as (Hv & Hsp & Hcp & Hk).
  fold ingest in Hv, Hsp, Hcp, Hk.
  split; [exact Hv|].
  set (q := state ingest) in *.
  destruct (Hk key) as [Hslot Hmem].
  specialize (Hmem (or_intror Hkey)).
  unfold Dict.mem in Hmem. unfold slot at 1 in Hslot.
  destruct (Dict.get key (counter_metrics q)) as [c|] eqn:Hget;
    [|discriminate].
  rewrite (Hzero key) in Hslot. fold count in Hslot. subst c.
  destruct (to_int_finite _ (Hclock (clock q))) as [timestamp Htimestamp].
  assert (Hin : In (key, count) (counter_metrics q)) by now apply get_in.
  pose proof Hrated as Hall. rewrite Forall_forall in Hall.
  destruct (Hall _ Hin) as [value Hvalue]. cbn [snd] in Hvalue.
  exists value, timestamp. split; [exact Hvalue|].
  destruct (flush_counter_phase time_function interval percent q seconds
              timestamp Hseconds Htimestamp) as (_ & [more Hout] & Hstate).
  fold o in Hout, Hstate.
  rewrite (flush_counter_metrics_eq seconds timestamp (ticks 2 q) Hrated)
    in Hout, Hstate.
  cbn [yielded state] in Hout, Hstate.
  change (counter_metrics (ticks 2 q)) with (counter_metrics q) in *.
  assert (Hgroup : In (counter_group (ticks 2 q) seconds timestamp
                                     (key, count))
                      (map (counter_group (ticks 2 q) seconds timestamp)
                           (counter_metrics q))).
  { apply in_map, Hin. }
  unfold counter_group in Hgroup at 1. cbn [fst snd] in Hgroup.
  unfold truncated_quotient in Hgroup. rewrite Hvalue in Hgroup.
  change (stats_prefix (ticks 2 q)) with (stats_prefix q) in Hgroup.
  change (count_prefix (ticks 2 q)) with (count_prefix q) in Hgroup.
  rewrite Hsp, Hcp, Hstats, Hcounts in Hgroup.
  repeat split.
  - rewrite Hout. apply in_or_app. left.
    apply in_concat. eexists. split; [exact Hgroup|]. right. now left.
  - rewrite Hout. apply in_or_app. left.
    apply in_concat. eexists. split; [exact Hgroup|]. now left.
  - rewrite Hstate, counters_after_zeroing.
    apply get_after_zeroing. left.
    change (counter_metrics (ticks 2 q)) with (counter_metrics q).
    now apply (in_map fst) in Hin.
Qed.

End CounterTotals.

Lemma counter_flush_totals_witness :
  let p : processor (string * string * number) Empty_set Empty_set :=
    MessageProcessor [] in
  let ingest := for_each ["foo:1|c"; "foo:10|c|@0.1"]
                         (process (Y:=emission) Literal.float frozen)
                         p in
  let o := flush frozen 10000 90 (state ingest) in
  exists timestamp,
    In ("stats_counts.foo", Float (Float.of_Z 101), timestamp) (yielded o) /\
    In ("stats.foo", Int 10, timestamp) (yielded o) /\
    Dict.get "foo" (counter_metrics (state o)) = Some (Int 0).
Proof.
  intros p ingest o.
  pose (tenth := Float.div (Float.of_Z 1) (Float.of_Z 10)).
  assert (H1 : accepted Literal.float
                 (Sample "foo:1|c" "foo" (Float.of_Z 1) (Float.of_Z 1))).
  { split; [|reflexivity].
    exists "1|c", "1".
    cbn [sample_line sample_key sample_value sample_rate].
    split; [reflexivity|]. split; [reflexivity|]. split; [reflexivity|].
    left. split; reflexivity. }
  assert (H2 : accepted Literal.float
                 (Sample "foo:10|c|@0.1" "foo" (Float.of_Z 10) tenth)).
  { split; [|reflexivity].
    exists "10|c|@0.1", "10".
    cbn [sample_line sample_key sample_value sample_rate].
    split; [reflexivity|]. split; [reflexivity|]. split; [reflexivity|].
    right. exists "@0.1", "0.1".
    split; [reflexivity|]. split; [reflexivity|].
    vm_compute. reflexivity. }
  assert (Hseconds : Num.truediv (Int 10000) (Int 1000)
                     = Ok (Float (Float.of_Z 10)))
    by (vm_compute; reflexivity).
  assert (Hrated : Forall (rated (Float (Float.of_Z 10)))
                          (counter_metrics (state ingest))).
  { assert (Hslots : counter_metrics (state ingest)
                     = [("foo", Float (Float.of_Z 101))])
      by (vm_compute; reflexivity).
    rewrite Hslots. apply Forall_cons; [|apply Forall_nil].
    exists 10. vm_compute. reflexivity. }
  pose proof (counter_flush_totals Literal.float frozen
              [Sample "foo:1|c" "foo" (Float.of_Z 1) (Float.of_Z 1);
               Sample "foo:10|c|@0.1" "foo" (Float.of_Z 10) tenth]
              p 10000 90 "foo" (Float (Float.of_Z 10)) eq_refl eq_refl
              (fun k => eq_refl)
              (Forall_cons _ H1 (Forall_cons _ H2 (Forall_nil _)))
              (or_introl eq_refl) (fun n => eq_refl) Hseconds Hrated)
    as Hthm.
  cbv zeta in Hthm.
  destruct Hthm as (_ & value & timestamp & Hvalue & Hraw & Hrate & Hslot).
  exists timestamp.
  assert (Hten : value = 10).
  { clear - Hvalue. vm_compute in Hvalue. injection Hvalue as <-.
    reflexivity. }
  subst value.
  split; [exact Hraw|]. split; [exact Hrate|exact Hslot].
Defined.
(** C2, where the code departs from it: after [foo:1|c] and [foo:2|c] a
    flush of 10000 ms emits [stats.foo = 0], the quotient 3/10 truncated,
    and no [stats.foo] with the value 3/10. *)
Lemma counter_rate_is_truncated :
  let p : processor (string * string * number) Empty_set Empty_set :=
    MessageProcessor [] in
  let ingest := for_each ["foo:1|c"; "foo:2|c"]
                         (process (Y:=emission) Literal.float frozen)
                         p in
  let o := flush frozen 10000 90 (state ingest) in
  In ("stats_counts.foo", Float (Float.of_Z 3), 1000) (yielded o) /\
  In ("stats.foo", Int 0, 1000) (yielded o) /\
  forall v timestamp,
    In ("stats.foo", v, timestamp) (yielded o) ->
    Num.eqb v (Float (Float.div (Float.of_Z 3) (Float.of_Z 10))) = false.
Proof.
  intros p ingest o.
  assert (Hout : exists l, yielded o = l /\
                   Forall (fun e => fst (fst e) = "stats.foo" ->
                                    snd (fst e) = Int 0) l /\
                   In ("stats_counts.foo", Float (Float.of_Z 3), 1000) l /\
                   In ("stats.foo", Int 0, 1000) l).
  { eexists. split; [vm_compute; reflexivity|].
    split; [|split].
    - repeat (apply Forall_cons;
              [cbn [fst snd]; intros Hname;
               first [reflexivity | discriminate Hname]|]).
      apply Forall_nil.
    - repeat first [left; reflexivity | right].
    - repeat first [left; reflexivity | right]. }
  destruct Hout as (l & -> & Hall & Hraw & Hrate).
  split; [exact Hraw|]. split; [exact Hrate|].
  intros v timestamp Hin.
  rewrite Forall_forall in Hall. specialize (Hall _ Hin eq_refl).
  cbn [fst snd] in Hall. subst v. reflexivity.
Qed.

(** ** The client *)

Lemma length_append (a b : string) :
  String.length (a ++ b) = (String.length a + String.length b)%nat.
Proof. induction a as [|c a IH]; simpl; [reflexivity|]. now rewrite IH. Qed.

(** ASCII text is its own encoding. *)
Lemma encode_ascii (data : string) :
  is_ascii data -> Metrics.encode data = data.
Proof.
  unfold is_ascii. induction data as [|c data IH]; simpl; [reflexivity|].
  intros Hall. apply andb_prop in Hall as [Hc Hdata].
  now rewrite Hc, IH.
Qed.

Lemma all_bytes_append (p : ascii -> bool) (a b : string) :
  Bytes.all_bytes p (a ++ b)
  = Bytes.all_bytes p a && Bytes.all_bytes p b.
Proof.
  induction a as [|x a IH]; simpl; [reflexivity|].
  now rewrite IH, andb_assoc.
Qed.

Lemma Metrics_write_bounded (data : string) (c : Metrics.connection) :
  is_ascii data -> (String.length data <= 512)%nat -> bounded c ->
  bounded (state (Metrics.write data c)).
Proof.
  intros Hascii Hdata Hc. unfold Metrics.write.
  destruct c as [ps|]; cbn; [|exact I].
  rewrite encode_ascii by exact Hascii.
  apply Forall_app. split; [exact Hc|]. now constructor.
Qed.

Lemma Metrics_coalesce_bounded (_data : list string) :
  Forall (fun s => is_ascii s /\ (String.length s <= 512)%nat) _data ->
  forall (data : string) (c : Metrics.connection),
    is_ascii data -> (String.length data <= 512)%nat -> bounded c ->
    bounded (state (Metrics.coalesce data _data c)).
Proof.
  induction 1 as [|stat _data [Hascii Hstat] _ IH];
    intros data c Hd Hdata Hc.
  - now apply Metrics_write_bounded.
  - cbn [Metrics.coalesce].
    destruct (512 <=? String.length stat + String.length data + 1)%nat
      eqn:Hfull.
    + unfold bind.
      pose proof (Metrics_write_bounded data c Hd Hdata Hc) as Hw.
      destruct (Metrics.write data c) as [[[]|e] c1 ys]; cbn in Hw; [|exact Hw].
      specialize (IH stat c1 Hascii Hstat Hw).
      now destruct (Metrics.coalesce stat _data c1).
    + apply IH; [| |exact Hc].
      * unfold is_ascii in *. rewrite !all_bytes_append, Hd, Hascii.
        reflexivity.
      * apply Nat.leb_gt in Hfull. rewrite !length_append. simpl. lia.
Qed.

(** What holds of the coalescing: when the lines are ASCII and none is
    longer than 512 bytes, no packet is. *)
Lemma Metrics_flush_bounded (pipelined : list (list string))
    (c : Metrics.connection) :
  Forall (fun s => is_ascii s /\ (String.length s <= 512)%nat)
         (concat pipelined) ->
  bounded c -> bounded (state (Metrics.flush pipelined c)).
Proof.
  intros Hlines Hc. unfold Metrics.flush.
  destruct (concat pipelined) as [|data _data]; [exact Hc|].
  inversion Hlines as [|? ? [Hascii Hdata] Hrest]; subst.
  now apply Metrics_coalesce_bounded.
Qed.

Lemma length_long_name (n : nat) : String.length (long_name n) = n.
Proof. induction n; simpl; congruence. Qed.

Lemma ascii_long_name (n : nat) :
  Bytes.all_bytes (fun c => (Bytes.code c <? 128)%N) (long_name n) = true.
Proof. induction n; simpl; auto. Qed.

(** C9, where the code departs from it.  The comment of [Metrics.flush]
    says that 512 bytes is the largest packet and that it is not exceeded,
    but a pipelined line is never split or dropped: a line of 513 bytes is
    written as a packet of 513 bytes; and with nothing pipelined [flush]
    raises [IndexError]. *)
Theorem oversize_line_is_written_whole :
  String.length (long_line 509) = 513%nat /\
  Metrics.flush [[long_line 509]] (Some []) =
    Outcome (Ok tt) (Some [long_line 509]) [] /\
  value (Metrics.flush [] (Some [])) = Raise IndexError.
Proof.
  split; [|split].
  - unfold long_line. now rewrite length_append, length_long_name.
  - unfold Metrics.flush, long_line. cbn [concat app Metrics.coalesce].
    unfold Metrics.write, bind.
    cbn [get value state yielded modify app].
    rewrite encode_ascii; [reflexivity|].
    unfold is_ascii. now rewrite all_bytes_append, ascii_long_name.
  - reflexivity.
Qed.
(** ** Timers *)

(** *** The order of the floats *)

Section FloatOrder.

Lemma leb_place (x y : Float.t) :
  Float.is_nan x = false -> Float.is_nan y = false ->
  (Float.leb x y = true <-> place_le (place x) (place y)).
Proof.
  unfold Float.leb, SFleb, SFcompare, place_le, place.
  destruct x as [sx|sx| |sx mx ex], y as [sy|sy| |sy my ey];
    try discriminate; intros _ _;
    try destruct sx; try destruct sy;
    try (split; [intros _; lia | reflexivity]);
    try (split; [discriminate | intros Hle; lia]).
  - destruct (Z.compare_spec ex ey) as [->|Hlt|Hgt].
    + change (Pos.compare_cont Eq mx my) with (Pos.compare mx my).
      destruct (Pos.compare_spec mx my) as [->|Hm|Hm]; simpl;
        (split; [intros; lia | intros; reflexivity || lia]) || split;
        try discriminate; intros; lia.
    + split; [discriminate | intros; lia].
    + split; [intros _; lia | reflexivity].
  - destruct (Z.compare_spec ex ey) as [->|Hlt|Hgt].
    + change (Pos.compare_cont Eq mx my) with (Pos.compare mx my).
      destruct (Pos.compare_spec mx my) as [->|Hm|Hm]; simpl;
        (split; [intros; lia | intros; reflexivity || lia]) || split;
        try discriminate; intros; lia.
    + split; [intros _; lia | reflexivity].
    + split; [discriminate | intros; lia].
Qed.

Lemma leb_not_nan (x y : Float.t) :
  fle x y -> Float.is_nan x = false /\ Float.is_nan y = false.
Proof.
  unfold fle, Float.leb, SFleb, SFcompare.
  destruct x, y; try discriminate; split; reflexivity.
Qed.

Lemma fle_refl (x : Float.t) : Float.is_nan x = false -> fle x x.
Proof.
  intros Hx. apply leb_place; trivial.
  unfold place_le. destruct (place x) as [[a b] c]. lia.
Qed.

Lemma fle_trans (x y z : Float.t) : fle x y -> fle y z -> fle x z.
Proof.
  intros Hxy Hyz.
  destruct (leb_not_nan x y Hxy) as [Hx Hy].
  destruct (leb_not_nan y z Hyz) as [_ Hz].
  apply leb_place in Hxy, Hyz; trivial. apply leb_place; trivial.
  unfold place_le in *.
  destruct (place x) as [[a1 a2] a3], (place y) as [[b1 b2] b3],
           (place z) as [[c1 c2] c3].
  lia.
Qed.

Lemma ltb_fle (x y : Float.t) : Float.ltb x y = true -> fle x y.
Proof.
  unfold fle, Float.ltb, Float.leb, SFltb, SFleb.
  now destruct (SFcompare x y) as [[]|].
Qed.

Lemma SFcompare_antisym (x y : Float.t) :
  SFcompare x y
  = match SFcompare y x with
    | Some c => Some (CompOpp c)
    | None => None
    end.
Proof.
  unfold SFcompare.
  destruct x as [sx|sx| |sx mx ex], y as [sy|sy| |sy my ey];
    try reflexivity; try destruct sx; try destruct sy; try reflexivity;
    rewrite (Z.compare_antisym ex ey);
    change (Pos.compare_cont Eq mx my) with (Pos.compare mx my);
    change (Pos.compare_cont Eq my mx) with (Pos.compare my mx);
    rewrite (Pos.compare_antisym mx my);
    destruct (ex ?= ey); try reflexivity;
    destruct (Pos.compare mx my); reflexivity.
Qed.

Lemma SFcompare_not_nan (x y : Float.t) :
  Float.is_nan x = false -> Float.is_nan y = false ->
  exists c, SFcompare x y = Some c.
Proof.
  unfold SFcompare.
  destruct x as [sx|sx| |sx mx ex], y as [sy|sy| |sy my ey];
    try discriminate; intros _ _; eexists; reflexivity.
Qed.

Lemma not_ltb_fle (x y : Float.t) :
  Float.is_nan x = false -> Float.is_nan y = false ->
  Float.ltb y x = false -> fle x y.
Proof.
  intros Hx Hy. unfold fle, Float.ltb, Float.leb, SFltb, SFleb.
  rewrite (SFcompare_antisym x y).
  destruct (SFcompare_not_nan y x Hy Hx) as [c ->].
  now destruct c.
Qed.

End FloatOrder.

(** *** Sorting *)

Section SortFacts.

Lemma insert_sorted_in (x y : Float.t) (l : list Float.t) :
  In y (insert_sorted x l) <-> y = x \/ In y l.
Proof.
  induction l as [|z l IH]; simpl; [intuition|].
  destruct (Float.ltb z x); simpl; [|intuition].
  rewrite IH. intuition.
Qed.

Lemma sort_in (y : Float.t) (l : list Float.t) : In y (sort l) <-> In y l.
Proof.
  induction l as [|x l IH]; simpl; [reflexivity|].
  unfold sort in *. simpl. rewrite insert_sorted_in, IH. intuition.
Qed.

Lemma insert_sorted_length (x : Float.t) (l : list Float.t) :
  length (insert_sorted x l) = S (length l).
Proof.
  induction l as [|z l IH]; simpl; [reflexivity|].
  destruct (Float.ltb z x); simpl; congruence.
Qed.

Lemma sort_length (l : list Float.t) : length (sort l) = length l.
Proof.
  induction l as [|x l IH]; simpl; [reflexivity|].
  unfold sort in *. simpl. now rewrite insert_sorted_length, IH.
Qed.

Lemma insert_sorted_sorted (x : Float.t) (l : list Float.t) :
  Float.is_nan x = false -> ordered l ->
  StronglySorted fle l -> StronglySorted fle (insert_sorted x l).
Proof.
  intros Hx Hl Hs. induction Hs as [|z l Hs IH Hz]; simpl.
  - constructor; constructor.
  - inversion Hl as [|? ? Hzn Hln]; subst.
    destruct (Float.ltb z x) eqn:Hzx.
    + constructor; [now apply IH|].
      apply Forall_forall. intros a Ha.
      apply insert_sorted_in in Ha as [-> | Ha].
      * now apply ltb_fle.
      * rewrite Forall_forall in Hz. auto.
    + assert (Hxz : fle x z) by now apply not_ltb_fle.
      constructor.
      * now constructor.
      * constructor; [exact Hxz|].
        eapply Forall_impl; [|exact Hz].
        intros a Ha. now apply fle_trans with z.
Qed.

Lemma ordered_insert (x : Float.t) (l : list Float.t) :
  Float.is_nan x = false -> ordered l -> ordered (insert_sorted x l).
Proof.
  intros Hx Hl. apply Forall_forall. intros y Hy.
  apply insert_sorted_in in Hy as [-> | Hy]; [exact Hx|].
  unfold ordered in Hl. rewrite Forall_forall in Hl. auto.
Qed.

Lemma ordered_sort (l : list Float.t) : ordered l -> ordered (sort l).
Proof.
  intros Hl. apply Forall_forall. intros y Hy.
  pose proof (proj1 (sort_in y l) Hy) as Hin.
  unfold ordered in Hl. rewrite Forall_forall in Hl. exact (Hl y Hin).
Qed.

Lemma sort_sorted (l : list Float.t) :
  ordered l -> StronglySorted fle (sort l).
Proof.
  induction 1 as [|x l Hx Hl IH]; [constructor|].
  unfold sort in *. simpl. apply insert_sorted_sorted; trivial.
  now apply ordered_sort.
Qed.

Lemma sorted_hd_minimum (l : list Float.t) :
  l <> [] -> ordered l -> StronglySorted fle l ->
  is_minimum (hd Float.zero l) l.
Proof.
  intros Hne Ho Hs. destruct l as [|x l]; [contradiction|].
  inversion Hs as [|? ? _ Hx]; subst. inversion Ho; subst.
  split; [now left|].
  intros y [<- | Hy]; [now apply fle_refl|].
  rewrite Forall_forall in Hx. auto.
Qed.

Lemma sorted_last_maximum (l : list Float.t) :
  l <> [] -> ordered l -> StronglySorted fle l ->
  is_maximum (last l Float.zero) l.
Proof.
  intros Hne Ho Hs. induction Hs as [|x l Hl IH Hx]; [contradiction|].
  inversion Ho as [|? ? Hxn Hln]; subst.
  destruct l as [|y l].
  - split; [now left|]. intros z [<- | []]. now apply fle_refl.
  - destruct (IH ltac:(discriminate) Hln) as [Hin Hmax].
    change (last (x :: y :: l) Float.zero) with (last (y :: l) Float.zero).
    split; [now right|].
    intros z [<- | Hz]; [|auto].
    rewrite Forall_forall in Hx. auto.
Qed.

Lemma insert_sorted_permutation (x : Float.t) (l : list Float.t) :
  Permutation (insert_sorted x l) (x :: l).
Proof.
  induction l as [|y l IH]; simpl; [reflexivity|].
  destruct (Float.ltb y x); [|reflexivity].
  rewrite IH. apply perm_swap.
Qed.

Lemma sort_permutation (l : list Float.t) : Permutation (sort l) l.
Proof.
  induction l as [|x l IH]; [reflexivity|].
  unfold sort in *. simpl. rewrite insert_sorted_permutation.
  now constructor.
Qed.

Lemma is_minimum_sort (x : Float.t) (l : list Float.t) :
  is_minimum x (sort l) -> is_minimum x l.
Proof.
  intros [Hin Hmin]. split; [now apply sort_in|].
  intros y Hy. apply Hmin. now apply sort_in.
Qed.

Lemma is_maximum_sort (x : Float.t) (l : list Float.t) :
  is_maximum x (sort l) -> is_maximum x l.
Proof.
  intros [Hin Hmax]. split; [now apply sort_in|].
  intros y Hy. apply Hmax. now apply sort_in.
Qed.

End SortFacts.

(** *** The statistics of a bucket *)

Section TimerStatistics.

Context {R F M : Type}.

Lemma slice_to_kept (index : Z) (l : list Float.t) :
  0 <= index -> slice_to l index = kept index l.
Proof.
  intros Hindex. unfold slice_to, kept.
  destruct (Z.ltb_spec index 0); [lia|reflexivity].
Qed.

Lemma kept_nonempty (index : Z) (l : list Float.t) :
  l <> [] -> 1 <= index -> kept index l <> [].
Proof.
  intros Hne Hindex. unfold kept.
  destruct l as [|x l]; [contradiction|].
  destruct (Z.to_nat index) eqn:Hn; [lia|]. discriminate.
Qed.

(** On a sorted bucket whose statistics can be computed, the code computes
    the statistics of the specification, with the mean truncated. *)
Lemma timer_statistics_eq (threshold : number) (l : list Float.t)
    (p : processor R F M) :
  l <> [] -> summable threshold l ->
  timer_statistics threshold l p
  = Outcome (Ok (statistics threshold l)) p [].
Proof.
  intros Hne Hsummable. unfold timer_statistics, statistics.
  cbv zeta. unfold bind.
  destruct l as [|x l]; [contradiction|].
  cbn [item nth_error ret hd].
  rewrite (last_item_eq _ Float.zero) by discriminate.
  set (n := Z.of_nat (length (x :: l))) in *.
  destruct (Z.ltb_spec 1 n) as [Hn | Hn]; [|reflexivity].
  destruct (Hsummable ltac:(fold n; lia))
    as (dropped & mean & Hdrop & Hindex & Hmean).
  fold n in Hdrop, Hindex, Hmean.
  unfold drop in Hdrop. rewrite Hdrop. cbn [lift ret].
  rewrite slice_to_kept by lia.
  rewrite (last_item_eq _ Float.zero)
    by (apply kept_nonempty; [discriminate|exact Hindex]).
  unfold drop. rewrite Hdrop, Hmean.
  unfold truncated_mean, mean_quotient in Hmean.
  destruct (Num.truediv _ _) as [q|e]; [|discriminate].
  cbn [lift ret]. rewrite Hmean. reflexivity.
Qed.

End TimerStatistics.

Section TimerGroup.

Lemma ascii_compare_refl (c : ascii) : Ascii.compare c c = Eq.
Proof. unfold Ascii.compare. apply N.compare_refl. Qed.

Lemma compare_append (pre a b : string) :
  String.compare (pre ++ a) (pre ++ b) = String.compare a b.
Proof.
  induction pre as [|c pre IH]; simpl; [reflexivity|].
  now rewrite ascii_compare_refl.
Qed.

Lemma emission_ltb_prefix (pre key a b : string) (va vb : number)
    (ta tb : Z) :
  emission_ltb (pre ++ key ++ a, va, ta) (pre ++ key ++ b, vb, tb) =
  emission_ltb (a, va, ta) (b, vb, tb).
Proof. unfold emission_ltb. now rewrite !compare_append. Qed.

Lemma emission_ltb_lt (a b : string) (va vb : number) (ta tb : Z) :
  String.compare a b = Lt -> emission_ltb (a, va, ta) (b, vb, tb) = true.
Proof. intros Hab. unfold emission_ltb. now rewrite Hab. Qed.

Lemma emission_ltb_gt (a b : string) (va vb : number) (ta tb : Z) :
  String.compare a b = Gt -> emission_ltb (a, va, ta) (b, vb, tb) = false.
Proof. intros Hab. unfold emission_ltb. now rewrite Hab. Qed.

Ltac order_names :=
  rewrite emission_ltb_prefix;
  first [rewrite emission_ltb_lt by reflexivity
        |rewrite emission_ltb_gt by reflexivity];
  cbv iota.

(** [sorted] puts the five metrics of a bucket in the order [.count],
    [.lower], [.mean], [.upper], [.upper_<percent>]. *)
Lemma sorted_timer_group (prefix key : string) (percent timestamp count : Z)
    (lower upper threshold_upper : Float.t) (mean : number) :
  sorted (map (fun '(item, value) =>
                 (prefix ++ key ++ item, value, timestamp))
              [(".mean", mean);
               (".upper", Float upper);
               (".upper_" ++ Bytes.of_int percent, Float threshold_upper);
               (".lower", Float lower);
               (".count", Int count)]) =
  timer_group prefix key percent timestamp count lower mean upper
              threshold_upper.
Proof.
  unfold sorted, timer_group. cbn [map fold_right].
  generalize (Bytes.of_int percent). intros suffix.
  cbn [insert_emission]. order_names.
  cbn [insert_emission]. order_names. order_names.
  cbn [insert_emission]. order_names. order_names. order_names.
  cbn [insert_emission]. order_names. order_names. order_names.
  reflexivity.
Qed.

End TimerGroup.

Section TimerFlush.

Context {R F M : Type} `{MeterMetricReporter R} `{Plugin F M}.

Lemma sort_nonempty (timers : list Float.t) :
  (0 <? length timers)%nat = true -> sort timers <> [].
Proof.
  intros Hlen Hnil. apply Nat.ltb_lt in Hlen.
  rewrite <- sort_length, Hnil in Hlen. simpl in Hlen. lia.
Qed.

(** When every bucket can be flushed, the timers are flushed to the
    end. *)
Lemma flush_timer_metrics_eq (percent timestamp : Z) (threshold : number)
    (p : processor R F M) :
  threshold_value percent = Ok threshold ->
  (forall key timers, In (key, timers) (timer_metrics p) ->
                      flushable threshold timers) ->
  flush_timer_metrics percent timestamp p =
  Outcome (Ok tt)
    (fold_left (fun q bucket => empty_bucket bucket q) (timer_metrics p) p)
    (flat_map (bucket_group (timer_prefix p) percent threshold timestamp)
              (timer_metrics p)).
Proof.
  intros Hthreshold Hflushable. unfold flush_timer_metrics.
  unfold threshold_value in Hthreshold. unfold bind at 1.
  rewrite Hthreshold.
  cbn -[for_each sorted sort map String.append Nat.ltb].
  rewrite (for_each_flat (timer_metrics p) _
             (bucket_group (timer_prefix p) percent threshold timestamp)
             empty_bucket
             (fun q => timer_prefix q = timer_prefix p)).
  - reflexivity.
  - intros [key timers] q Hin Hq.
    unfold bucket_group, empty_bucket. cbn [fst snd].
    destruct (0 <? length timers)%nat eqn:Hlen.
    + split; [|exact Hq].
      cbn -[sorted sort map String.append statistics].
      rewrite !outcome_eta.
      rewrite timer_statistics_eq
        by (try apply sort_nonempty; try apply (Hflushable key timers);
            eauto).
      destruct (statistics threshold (sort timers))
        as [[[[mean upper] threshold_upper] lower] count].
      cbn -[sorted sort map String.append].
      rewrite sorted_timer_group.
      change (timer_prefix (set_timer_metrics
                              (Dict.set key [] (timer_metrics q)) q))
        with (timer_prefix q).
      rewrite Hq. reflexivity.
    + split; [reflexivity|exact Hq].
  - reflexivity.
Qed.

(** The group of a non-empty bucket is among those the flush yields. *)
Lemma flush_timer_metrics_bucket (percent timestamp : Z)
    (threshold : number) (p : processor R F M) (key : string)
    (timers : list Float.t) :
  threshold_value percent = Ok threshold ->
  (forall k ts, In (k, ts) (timer_metrics p) -> flushable threshold ts) ->
  In (key, timers) (timer_metrics p) -> timers <> [] ->
  value (flush_timer_metrics percent timestamp p) = Ok tt /\
  In (let '(mean, upper, threshold_upper, lower, count) :=
        statistics threshold (sort timers) in
      timer_group (timer_prefix p) key percent timestamp count lower mean
                  upper threshold_upper)
     (yielded (flush_timer_metrics percent timestamp p)).
Proof.
  intros Hthreshold Hflushable Hin Hne.
  rewrite (flush_timer_metrics_eq percent timestamp threshold p
             Hthreshold Hflushable).
  split; [reflexivity|]. cbn [yielded].
  apply in_flat_map. exists (key, timers). split; [exact Hin|].
  unfold bucket_group. cbn [fst snd].
  destruct timers as [|x timers]; [contradiction|].
  cbn [length Nat.ltb Nat.leb].
  destruct (statistics threshold (sort (x :: timers)))
    as [[[[mean upper] threshold_upper] lower] count].
  left. reflexivity.
Qed.

End TimerFlush.
Section TimerStatisticsClaim.

Context {R F M : Type} `{MeterMetricReporter R} `{Plugin F M}.

Lemma floor_of_truncated (q : Float.t) (truncated : Z) :
  Float.to_int q = Ok truncated -> Float.ltb q Float.zero = false ->
  floor q = Ok truncated.
Proof.
  destruct q as [s|s| |s m e]; try discriminate; [trivial|].
  destruct s; [discriminate|]. trivial.
Qed.

(** C3, amended.  With [threshold_value = (100 - percent) / 100.0], when
    every bucket can be flushed (no sample is NaN and, for the buckets of
    two samples or more, with [drop = round(threshold_value * n)] computed
    on floats, [1 <= n - drop] and the mean is an integer), the flush of
    the timers returns and, for every bucket with [n >= 1] samples, yields
    the group of its five metrics where, [sorted_timers] being the samples
    in ascending order: [.count] is [n], [.lower] the minimum and [.upper]
    the maximum; for [n = 1] the mean is [lower] and the threshold is
    [upper]; for [n >= 2] the threshold is the last of the first [n - drop]
    samples and the mean is their sum divided by [n - drop] and truncated
    toward zero, which is the floor of the quotient when the quotient is
    not negative. *)
Theorem timer_flush_statistics (percent timestamp : Z) (threshold : number)
    (p : processor R F M) (key : string) (timers : list Float.t) :
  threshold_value percent = Ok threshold ->
  (forall k ts, In (k, ts) (timer_metrics p) -> flushable threshold ts) ->
  In (key, timers) (timer_metrics p) -> timers <> [] ->
  let n := Z.of_nat (length timers) in
  let o := flush_timer_metrics percent timestamp p in
  let sorted_timers := sort timers in
  exists lower mean upper threshold_upper,
    Permutation sorted_timers timers /\
    StronglySorted fle sorted_timers /\
    value o = Ok tt /\
    In (timer_group (timer_prefix p) key percent timestamp n lower mean upper
                    threshold_upper) (yielded o) /\
    is_minimum lower timers /\ is_maximum upper timers /\
    (n = 1 -> mean = Float lower /\ threshold_upper = upper) /\
    (2 <= n ->
     exists dropped truncated,
       drop threshold n = Ok dropped /\
       threshold_upper = last (kept (n - dropped) sorted_timers) Float.zero /\
       truncated_mean (n - dropped) sorted_timers = Ok truncated /\
       mean = Int truncated /\
       forall q,
         mean_quotient (n - dropped) sorted_timers = Ok (Float q) ->
         Float.ltb q Float.zero = false -> floor q = Ok truncated).
Proof.
  intros Hthreshold Hflushable Hin Hne n o sorted_timers. subst sorted_timers.
  destruct (flush_timer_metrics_bucket percent timestamp threshold p key
              timers Hthreshold Hflushable Hin Hne) as [Hvalue Hgroup].
  fold o in Hvalue, Hgroup.
  destruct (Hflushable key timers Hin) as [Hordered Hsummable].
  assert (Hsorted : StronglySorted fle (sort timers))
    by now apply sort_sorted.
  assert (Hso : ordered (sort timers)) by now apply ordered_sort.
  assert (Hsne : sort timers <> []).
  { intros Hnil. apply Hne. apply length_zero_iff_nil.
    now rewrite <- sort_length, Hnil. }
  assert (Hlower : is_minimum (hd Float.zero (sort timers)) timers)
    by now apply is_minimum_sort, sorted_hd_minimum.
  assert (Hupper : is_maximum (last (sort timers) Float.zero) timers)
    by now apply is_maximum_sort, sorted_last_maximum.
  unfold statistics in Hgroup. unfold summable in Hsummable.
  rewrite sort_length in Hgroup, Hsummable. fold n in Hgroup, Hsummable.
  exists (hd Float.zero (sort timers)).
  destruct (Z.ltb_spec 1 n) as [Hn | Hn].
  - destruct (Hsummable ltac:(lia))
      as (dropped & truncated & Hdrop & Hindex & Hmean).
    rewrite Hdrop, Hmean in Hgroup.
    exists (Int truncated), (last (sort timers) Float.zero),
           (last (kept (n - dropped) (sort timers)) Float.zero).
    split; [apply sort_permutation|]. split; [exact Hsorted|].
    split; [exact Hvalue|]. split; [exact Hgroup|].
    split; [exact Hlower|]. split; [exact Hupper|].
    split; [lia|]. intros _. exists dropped, truncated.
    split; [exact Hdrop|]. split; [reflexivity|]. split; [exact Hmean|].
    split; [reflexivity|].
    intros q Hq Hsign. unfold truncated_mean in Hmean. rewrite Hq in Hmean.
    now apply floor_of_truncated.
  - exists (Float (hd Float.zero (sort timers))),
           (last (sort timers) Float.zero), (last (sort timers) Float.zero).
    split; [apply sort_permutation|]. split; [exact Hsorted|].
    split; [exact Hvalue|]. split; [exact Hgroup|].
    split; [exact Hlower|]. split; [exact Hupper|].
    split; [intros _; split; reflexivity|]. lia.
Qed.

End TimerStatisticsClaim.

Lemma timer_flush_statistics_witness :
  let p : processor (string * string * number) Empty_set Empty_set :=
    state (for_each ["t:100|ms"; "t:300|ms"; "t:200|ms"]
                    (process (Y:=emission) Literal.float frozen)
                    (MessageProcessor [])) in
  let o := flush_timer_metrics 90 1000 p in
  value o = Ok tt /\
  In (timer_group "stats.timers." "t" 90 1000 3 (Float.of_Z 100) (Int 200)
                  (Float.of_Z 300) (Float.of_Z 300)) (yielded o).
Proof.
  intros p o.
  pose (timers := [Float.of_Z 100; Float.of_Z 300; Float.of_Z 200]).
  assert (Hp : timer_metrics p = [("t", timers)])
    by (vm_compute; reflexivity).
  assert (Hthreshold : threshold_value 90 = Ok tenth)
    by (vm_compute; reflexivity).
  assert (Hflushable : forall k ts, In (k, ts) (timer_metrics p) ->
                                    flushable tenth ts).
  { rewrite Hp. intros k ts [E | []]. injection E as _ <-. split.
    - repeat constructor.
    - intros _. exists 0, 200. vm_compute. repeat split; congruence. }
  assert (Hin : In ("t", timers) (timer_metrics p))
    by (rewrite Hp; now left).
  destruct (timer_flush_statistics 90 1000 tenth p "t" timers
              Hthreshold Hflushable Hin ltac:(discriminate))
    as (lower & mean & upper & threshold_upper
        & Hperm & Hsorted & Hvalue & Hgroup & Hlower & Hupper & _ & Hmany).
  split; [exact Hvalue|].
  destruct (Hmany ltac:(cbn; lia))
    as (dropped & truncated & Hdrop & Hthr & Htruncated & Hmean & _).
  assert (Hd : dropped = 0).
  { clear - Hdrop. vm_compute in Hdrop. now injection Hdrop as <-. }
  subst dropped.
  assert (Ht : truncated = 200).
  { clear - Htruncated. vm_compute in Htruncated.
    now injection Htruncated as <-. }
  subst truncated mean.
  assert (Hthr' : threshold_upper = Float.of_Z 300)
    by (rewrite Hthr; vm_compute; reflexivity).
  assert (Hl : lower = Float.of_Z 100).
  { destruct Hlower as [Hl Hmin].
    pose proof (Hmin _ (or_introl eq_refl)) as H100.
    clear - Hl H100.
    destruct Hl as [<- | [<- | [<- | []]]];
      [reflexivity | vm_compute in H100; discriminate
       | vm_compute in H100; discriminate]. }
  assert (Hu : upper = Float.of_Z 300).
  { destruct Hupper as [Hu Hmax].
    pose proof (Hmax _ (or_intror (or_introl eq_refl))) as H300.
    clear - Hu H300.
    destruct Hu as [<- | [<- | [<- | []]]];
      [vm_compute in H300; discriminate | reflexivity
       | vm_compute in H300; discriminate]. }
  rewrite Hthr', Hl, Hu in Hgroup. exact Hgroup.
Defined.

(** A bucket of two samples [-1.5]: the mean yielded is [-1], the quotient
    [-1.5] truncated toward zero, where the floor is [-2]; and at percent 0
    the rounding drops both samples and the flush raises [IndexError]. *)
Lemma timer_mean_is_truncated :
  let p : processor (string * string * number) Empty_set Empty_set :=
    state (for_each ["t:-1.5|ms"; "t:-1.5|ms"]
                    (process (Y:=emission) Literal.float frozen)
                    (MessageProcessor [])) in
  (exists lower upper threshold_upper,
     yielded (flush_timer_metrics 90 1000 p) =
     [timer_group "stats.timers." "t" 90 1000 2 lower (Int (-1)) upper
                  threshold_upper]) /\
  (exists samples,
     Dict.get "t" (timer_metrics p) = Some samples /\
     drop tenth 2 = Ok 0 /\
     floor_mean 2 (sort samples) = Ok (-2)) /\
  value (flush_timer_metrics 0 1000 p) = Raise IndexError.
Proof.
  intros p. split; [|split].
  - eexists _, _, _. vm_compute. reflexivity.
  - eexists. split; [vm_compute; reflexivity|].
    split; vm_compute; reflexivity.
  - vm_compute. reflexivity.
Qed.

Section TimerBounds.

Lemma in_firstn {A : Type} (k : nat) (l : list A) (x : A) :
  In x (firstn k l) -> In x l.
Proof.
  revert l. induction k as [|k IH]; intros [|y l]; simpl; try tauto.
  intros [E | Hin]; [now left | right; now apply IH].
Qed.

Lemma last_in {A : Type} (l : list A) (d : A) : l <> [] -> In (last l d) l.
Proof.
  induction l as [|x l IH]; [contradiction|]. intros _.
  destruct l as [|y l]; [now left|].
  right. apply IH. discriminate.
Qed.

(** The last of the samples kept lies between the first and the last of
    the sorted bucket. *)
Lemma kept_last_bounds (index : Z) (s : list Float.t) :
  s <> [] -> ordered s -> StronglySorted fle s -> 1 <= index ->
  fle (hd Float.zero s) (last (kept index s) Float.zero) /\
  fle (last (kept index s) Float.zero) (last s Float.zero).
Proof.
  intros Hne Ho Hs Hindex.
  assert (Hin : In (last (kept index s) Float.zero) s).
  { apply (in_firstn (Z.to_nat index)). apply last_in.
    now apply kept_nonempty. }
  split.
  - now apply (sorted_hd_minimum s Hne Ho Hs).
  - now apply (sorted_last_maximum s Hne Ho Hs).
Qed.

End TimerBounds.

Section TimerBoundsClaim.

Context {R F M : Type} `{MeterMetricReporter R} `{Plugin F M}.

(** C4, amended.  At the default percent 90, where the share dropped is
    [10 / 100.0], when every bucket can be flushed (no sample is NaN and,
    for the buckets of two samples or more, the rounding keeps a sample and
    the mean of the samples kept is an integer), the flush of the timers
    returns and, for every non-empty bucket, yields the group of its five
    metrics where [.count] is the number of samples of the bucket and
    [lower <= threshold_upper <= upper]; the mean is [lower] when the
    bucket has one sample. *)
Theorem timer_flush_bounds (timestamp : Z) (p : processor R F M)
    (key : string) (timers : list Float.t) :
  (forall k ts, In (k, ts) (timer_metrics p) -> flushable tenth ts) ->
  In (key, timers) (timer_metrics p) -> timers <> [] ->
  let o := flush_timer_metrics 90 timestamp p in
  exists lower mean upper threshold_upper,
    value o = Ok tt /\
    In (timer_group (timer_prefix p) key 90 timestamp
                    (Z.of_nat (length timers)) lower mean upper
                    threshold_upper) (yielded o) /\
    fle lower threshold_upper /\ fle threshold_upper upper /\
    (length timers = 1%nat -> mean = Float lower).
Proof.
  intros Hflushable Hin Hne o.
  destruct (flush_timer_metrics_bucket 90 timestamp tenth p key timers
              eq_refl Hflushable Hin Hne) as [Hvalue Hgroup].
  fold o in Hvalue, Hgroup.
  destruct (Hflushable key timers Hin) as [Hordered Hsummable].
  assert (Hsorted : StronglySorted fle (sort timers))
    by now apply sort_sorted.
  assert (Hso : ordered (sort timers)) by now apply ordered_sort.
  assert (Hsne : sort timers <> []).
  { intros Hnil. apply Hne. apply length_zero_iff_nil.
    now rewrite <- sort_length, Hnil. }
  unfold statistics in Hgroup. unfold summable in Hsummable.
  rewrite sort_length in Hgroup, Hsummable.
  exists (hd Float.zero (sort timers)).
  destruct (Z.ltb_spec 1 (Z.of_nat (length timers))) as [Hn | Hn].
  - destruct (Hsummable ltac:(lia))
      as (dropped & truncated & Hdrop & Hindex & Hmean).
    rewrite Hdrop, Hmean in Hgroup.
    destruct (kept_last_bounds (Z.of_nat (length timers) - dropped)
                (sort timers) Hsne Hso Hsorted Hindex) as [Hlow Hhigh].
    exists (Int truncated), (last (sort timers) Float.zero),
           (last (kept (Z.of_nat (length timers) - dropped) (sort timers))
                 Float.zero).
    split; [exact Hvalue|]. split; [exact Hgroup|].
    split; [exact Hlow|]. split; [exact Hhigh|]. lia.
  - exists (Float (hd Float.zero (sort timers))),
           (last (sort timers) Float.zero), (last (sort timers) Float.zero).
    split; [exact Hvalue|]. split; [exact Hgroup|].
    destruct (sorted_last_maximum (sort timers) Hsne Hso Hsorted)
      as [Hlast Hmax].
    split; [apply Hmax; now destruct (sort timers); [|left]|].
    split; [|reflexivity].
    apply fle_refl. unfold ordered in Hso. rewrite Forall_forall in Hso.
    now apply Hso.
Qed.

End TimerBoundsClaim.

Lemma timer_flush_bounds_witness :
  let p : processor (string * string * number) Empty_set Empty_set :=
    state (for_each ["api:12.5|ms"; "api:7|ms"]
                    (process (Y:=emission) Literal.float frozen)
                    (MessageProcessor [])) in
  let o := flush_timer_metrics 90 1000 p in
  exists lower mean upper threshold_upper,
    value o = Ok tt /\
    In (timer_group "stats.timers." "api" 90 1000 2 lower mean upper
                    threshold_upper) (yielded o) /\
    fle lower threshold_upper /\ fle threshold_upper upper.
Proof.
  intros p o.
  pose (timers := [Float.div (Float.of_Z 25) (Float.of_Z 2); Float.of_Z 7]).
  assert (Hp : timer_metrics p = [("api", timers)])
    by (vm_compute; reflexivity).
  assert (Hflushable : forall k ts, In (k, ts) (timer_metrics p) ->
                                    flushable tenth ts).
  { rewrite Hp. intros k ts [E | []]. injection E as _ <-. split.
    - repeat constructor.
    - intros _. exists 0, 9. vm_compute. repeat split; congruence. }
  assert (Hin : In ("api", timers) (timer_metrics p))
    by (rewrite Hp; now left).
  destruct (timer_flush_bounds 1000 p "api" timers Hflushable Hin
              ltac:(discriminate))
    as (lower & mean & upper & threshold_upper
        & Hvalue & Hgroup & Hlow & Hhigh & _).
  exists lower, mean, upper, threshold_upper.
  split; [exact Hvalue|]. split; [exact Hgroup|].
  split; [exact Hlow | exact Hhigh].
Defined.

(** A bucket of two samples [0.5]: the mean yielded is [0], the quotient
    [0.5] truncated, below the lower bound [0.5].  A bucket of two samples
    [-0.5]: the mean yielded is [0], above [threshold_upper = -0.5].  A
    bucket of two samples [inf]: the mean is not an integer and the flush
    raises [OverflowError]. *)
Lemma timer_mean_below_lower :
  let fresh : processor (string * string * number) Empty_set Empty_set :=
    MessageProcessor [] in
  let after lines :=
    state (for_each lines (process (Y:=emission) Literal.float frozen)
                    fresh) in
  let half := Float.div (Float.of_Z 1) (Float.of_Z 2) in
  let minus_half := Float.div (Float.of_Z (-1)) (Float.of_Z 2) in
  yielded (flush_timer_metrics 90 1000 (after ["t:0.5|ms"; "t:0.5|ms"])) =
  [timer_group "stats.timers." "t" 90 1000 2 half (Int 0) half half] /\
  Num.ltb (Int 0) (Float half) = true /\
  yielded (flush_timer_metrics 90 1000 (after ["t:-0.5|ms"; "t:-0.5|ms"])) =
  [timer_group "stats.timers." "t" 90 1000 2 minus_half (Int 0) minus_half
               minus_half] /\
  Num.ltb (Float minus_half) (Int 0) = true /\
  value (flush_timer_metrics 90 1000 (after ["t:inf|ms"; "t:inf|ms"])) =
  Raise OverflowError.
Proof.
  intros fresh after half minus_half.
  repeat split; vm_compute; reflexivity.
Qed.

(** ** The client: how [Metrics.flush] groups the lines *)

Section Packets.

Lemma string_app_assoc (a b c : string) : (a ++ b) ++ c = a ++ b ++ c.
Proof. induction a as [|x a IH]; simpl; [reflexivity|]. now rewrite IH. Qed.

Lemma packet_of_snoc (lines : list string) (stat : string) :
  lines <> [] ->
  packet_of (lines ++ [stat]) = packet_of lines ++ Metrics.newline ++ stat.
Proof.
  unfold packet_of. induction lines as [|x lines IH]; [contradiction|].
  intros _. destruct lines as [|y lines]; [reflexivity|].
  change (Bytes.join Metrics.newline ((x :: y :: lines) ++ [stat]))
    with (x ++ Metrics.newline
            ++ Bytes.join Metrics.newline ((y :: lines) ++ [stat])).
  rewrite IH by discriminate.
  change (Bytes.join Metrics.newline (x :: y :: lines))
    with (x ++ Metrics.newline ++ Bytes.join Metrics.newline (y :: lines)).
  now rewrite !string_app_assoc.
Qed.

Lemma is_ascii_packet_of (lines : list string) :
  Forall is_ascii lines -> is_ascii (packet_of lines).
Proof.
  unfold is_ascii, packet_of. induction 1 as [|x lines Hx _ IH]; [reflexivity|].
  destruct lines as [|y lines]; [exact Hx|].
  change (Bytes.join Metrics.newline (x :: y :: lines))
    with (x ++ Metrics.newline ++ Bytes.join Metrics.newline (y :: lines)).
  rewrite !all_bytes_append, Hx, IH. reflexivity.
Qed.

Lemma Metrics_write_connected (data : string) (packets : list string) :
  Metrics.write data (Some packets)
  = Outcome (Ok tt) (Some (packets ++ [Metrics.encode data])%list) [].
Proof. reflexivity. Qed.

(** The loop carries the packet of the group it is filling. *)
Lemma Metrics_coalesce_groups (_data lines : list string)
    (packets : list string) :
  lines <> [] -> fits lines ->
  exists groups,
    concat groups = (lines ++ _data)%list /\
    Forall (fun g => g <> []) groups /\
    Forall fits groups /\
    packed groups /\
    hd [] groups = firstn (length (hd [] groups)) (lines ++ _data)%list /\
    (length lines <= length (hd [] groups))%nat /\
    Metrics.coalesce (packet_of lines) _data (Some packets)
    = Outcome (Ok tt) (Some (packets ++ map packet_bytes groups)%list) [].
Proof.
  revert lines packets.
  induction _data as [|stat _data IH]; intros lines packets Hne Hfits.
  - exists [lines]. cbn [concat map Metrics.coalesce hd].
    rewrite !app_nil_r, firstn_all.
    repeat split; auto.
  - cbn [Metrics.coalesce].
    destruct (512 <=? String.length stat + String.length (packet_of lines)
                      + 1)%nat eqn:Hfull.
    + destruct (IH [stat] (packets ++ [packet_bytes lines])%list)
        as (groups & Hcat & Hnes & Hfit & Hpacked & Hhd & Hlen & Hrun);
        [discriminate | now left |].
      exists (lines :: groups). cbn [concat map hd].
      split; [now rewrite Hcat|].
      split; [now constructor|]. split; [now constructor|].
      split.
      { cbn [packed]. split; [|exact Hpacked].
        destruct groups as [|next groups]; [exact I|].
        cbn [hd] in Hhd. rewrite Hhd.
        destruct next as [|n0 next]; [inversion Hnes; congruence|].
        cbn [length firstn app hd]. now apply Nat.leb_le. }
      split; [now rewrite firstn_app, Nat.sub_diag, firstn_all, firstn_O,
                          app_nil_r|].
      split; [lia|].
      unfold bind. rewrite Metrics_write_connected.
      fold (packet_bytes lines).
      change (packet_of [stat]) with stat in Hrun.
      rewrite Hrun. rewrite <- app_assoc. reflexivity.
    + apply Nat.leb_gt in Hfull.
      destruct (IH (lines ++ [stat])%list packets)
        as (groups & Hcat & Hnes & Hfit & Hpacked & Hhd & Hlen & Hrun).
      * now destruct lines.
      * right. rewrite packet_of_snoc by exact Hne.
        rewrite !length_append. cbn [String.length Metrics.newline]. lia.
      * exists groups. rewrite <- app_assoc in Hcat, Hhd.
        cbn [app] in Hcat, Hhd.
        rewrite length_app in Hlen. cbn [length] in Hlen.
        repeat split; auto; [lia|].
        rewrite packet_of_snoc in Hrun by exact Hne. exact Hrun.
Qed.

End Packets.

Section ClientFlush.

Lemma Metrics_flush_groups (pipelined : list (list string))
    (packets : list string) :
  concat pipelined <> [] ->
  exists groups,
    concat groups = concat pipelined /\
    Forall (fun g => g <> []) groups /\
    Forall fits groups /\
    packed groups /\
    Metrics.flush pipelined (Some packets)
    = Outcome (Ok tt) (Some (packets ++ map packet_bytes groups)%list) [].
Proof.
  intros Hne. unfold Metrics.flush.
  destruct (concat pipelined) as [|data _data]; [contradiction|].
  destruct (Metrics_coalesce_groups _data [data] packets)
    as (groups & Hcat & Hnes & Hfit & Hpacked & _ & _ & Hrun);
    [discriminate | now left |].
  exists groups. auto.
Qed.

(** The packets of ASCII lines go out as they are. *)
Lemma packet_bytes_ascii (groups : list (list string)) :
  Forall is_ascii (concat groups) ->
  map packet_bytes groups = map packet_of groups.
Proof.
  induction groups as [|g groups IH]; [reflexivity|].
  cbn [concat map]. intros Hall. apply Forall_app in Hall as [Hg Hrest].
  rewrite IH by exact Hrest. f_equal.
  unfold packet_bytes. now apply encode_ascii, is_ascii_packet_of.
Qed.

Lemma Metrics_coalesce_without_connection (_data : list string)
    (data : string) :
  Metrics.coalesce data _data None = Outcome (Ok tt) None [].
Proof.
  revert data. induction _data as [|stat _data IH]; intros data;
    [reflexivity|].
  cbn [Metrics.coalesce].
  destruct (512 <=? String.length stat + String.length data + 1)%nat;
    [|apply IH].
  unfold bind. cbn. now rewrite IH.
Qed.

(** X1. [Metrics.flush] loses no pipelined line and keeps them in order:
    when something is pipelined, every line is ASCII and there is a
    connection, it returns, and the packets it writes, after those written
    before, are the lines cut into consecutive non-empty groups, each group
    joined by newlines into one packet. *)
Theorem Metrics_flush_keeps_every_line (pipelined : list (list string))
    (packets : list string) :
  concat pipelined <> [] -> Forall is_ascii (concat pipelined) ->
  exists groups,
    concat groups = concat pipelined /\
    Forall (fun g => g <> []) groups /\
    Metrics.flush pipelined (Some packets)
    = Outcome (Ok tt) (Some (packets ++ map packet_of groups)%list) [].
Proof.
  intros Hne Hascii.
  destruct (Metrics_flush_groups pipelined packets Hne)
    as (groups & Hcat & Hnes & _ & _ & Hrun).
  exists groups. rewrite Hrun, packet_bytes_ascii by now rewrite Hcat.
  auto.
Qed.


(** X3. [Metrics.flush] fills every packet: it starts a new packet only
    when the next line, a newline and the packet so far make 512
    characters or more. *)
Theorem Metrics_flush_fills_packets (pipelined : list (list string))
    (packets : list string) :
  concat pipelined <> [] ->
  exists groups,
    concat groups = concat pipelined /\
    state (Metrics.flush pipelined (Some packets))
    = Some (packets ++ map packet_bytes groups)%list /\
    packed groups.
Proof.
  intros Hne.
  destruct (Metrics_flush_groups pipelined packets Hne)
    as (groups & Hcat & _ & _ & Hpacked & Hrun).
  exists groups. rewrite Hrun. auto.
Qed.

(** X4. Without a connection [Metrics.flush] writes nothing and returns,
    whatever the lines hold, as long as something is pipelined. *)
Theorem Metrics_flush_without_connection (pipelined : list (list string)) :
  concat pipelined <> [] ->
  Metrics.flush pipelined None = Outcome (Ok tt) None [].
Proof.
  intros Hne. unfold Metrics.flush.
  destruct (concat pipelined) as [|data _data]; [contradiction|].
  apply Metrics_coalesce_without_connection.
Qed.

End ClientFlush.

Lemma Metrics_flush_keeps_every_line_witness :
  exists groups,
    concat groups = ["a:1|c"; "b:2|c"; "t:3|ms"] /\
    Forall (fun g => g <> []) groups /\
    Metrics.flush [["a:1|c"; "b:2|c"]; ["t:3|ms"]] (Some ["sent"])
    = Outcome (Ok tt) (Some ("sent" :: map packet_of groups)) [].
Proof.
  apply (Metrics_flush_keeps_every_line
           [["a:1|c"; "b:2|c"]; ["t:3|ms"]] ["sent"]).
  - discriminate.
  - repeat constructor.
Defined.


Lemma Metrics_flush_fills_packets_witness :
  exists groups,
    concat groups = [long_line 300; "b:2|c"; long_line 300] /\
    state (Metrics.flush [[long_line 300; "b:2|c"]; [long_line 300]]
                         (Some []))
    = Some (map packet_bytes groups) /\
    packed groups.
Proof.
  apply (Metrics_flush_fills_packets
           [[long_line 300; "b:2|c"]; [long_line 300]] []).
  discriminate.
Defined.

Lemma Metrics_flush_without_connection_witness :
  Metrics.flush [["a:1|c"]; []; ["b:2|c"]] None = Outcome (Ok tt) None [].
Proof.
  apply (Metrics_flush_without_connection [["a:1|c"]; []; ["b:2|c"]]).
  discriminate.
Defined.

(** ** More on key normalisation *)

Section NormalizeKeyBytes.

Import Bytes.

(** X5. A key that [normalize_key] returns holds only bytes that graphite
    accepts: letters, digits, [_], [-] and [.]. *)
Theorem normalize_key_accepted_bytes (k k' : string) :
  normalize_key k = Ok k' -> all_bytes is_safe k' = true.
Proof.
  rewrite normalize_key_cases.
  destruct (all_bytes is_safe k) eqn:Hsafe; [|discriminate].
  now intros [= <-].
Qed.

(** X6. A key made of letters, digits, [_], [-] and [.] only is its own
    normal form. *)
Theorem normalize_key_leaves_accepted_keys (k : string) :
  all_bytes is_safe k = true -> normalize_key k = Ok k.
Proof. apply normalize_key_fixed. Qed.

(** X7. [normalize_key] replaces nothing: the key it returns is the key it
    was given. *)
Theorem normalize_key_replaces_nothing (k k' : string) :
  normalize_key k = Ok k' -> k' = k.
Proof.
  rewrite normalize_key_cases.
  destruct (all_bytes is_safe k); [|discriminate].
  now intros [= <-].
Qed.

End NormalizeKeyBytes.

Lemma normalize_key_accepted_bytes_witness :
  normalize_key "web-01.requests_total" = Ok "web-01.requests_total" /\
  Bytes.all_bytes Bytes.is_safe "web-01.requests_total" = true.
Proof.
  split; [reflexivity|].
  apply (normalize_key_accepted_bytes "web-01.requests_total").
  reflexivity.
Defined.

Lemma normalize_key_leaves_accepted_keys_witness :
  normalize_key "web-01.requests_total" = Ok "web-01.requests_total".
Proof.
  apply (normalize_key_leaves_accepted_keys "web-01.requests_total").
  reflexivity.
Defined.

Lemma normalize_key_replaces_nothing_witness :
  normalize_key "web-01.requests_total" = Ok "web-01.requests_total" /\
  "web-01.requests_total" = "web-01.requests_total".
Proof.
  split; [reflexivity|].
  apply (normalize_key_replaces_nothing "web-01.requests_total").
  reflexivity.
Defined.

(** ** Ingestion: what [process] does with a line *)

Section DictMore.

Context {V : Type}.

Lemma get_set_setdefault_other (k k' : string) (v v0 : V) (d : Dict.t V) :
  k' <> k ->
  Dict.get k' (Dict.set k v (Dict.setdefault k v0 d)) = Dict.get k' d.
Proof.
  intros Hne. rewrite get_set_other by congruence.
  apply get_setdefault_other. congruence.
Qed.

End DictMore.

Section GenMore.

Context {S Y : Type}.

Lemma bind_assoc {A B C : Type} (m : Gen S Y A) (k : A -> Gen S Y B)
    (h : B -> Gen S Y C) (s : S) :
  bind (bind m k) h s = bind m (fun a => bind (k a) h) s.
Proof.
  unfold bind. destruct (m s) as [[a|e] s1 ys1]; [|reflexivity].
  destruct (k a s1) as [[b|e] s2 ys2]; [|reflexivity].
  destruct (h b s2) as [v s3 ys3]. now rewrite app_assoc.
Qed.

Lemma bind_ret_l {A B : Type} (a : A) (k : A -> Gen S Y B) (s : S) :
  bind (ret a) k s = k a s.
Proof. unfold bind, ret. now destruct (k a s). Qed.

Lemma bind_modify {B : Type} (g : S -> S) (k : unit -> Gen S Y B) (s : S) :
  bind (modify g) k s = k tt (g s).
Proof. unfold bind, modify. now destruct (k tt (g s)). Qed.

Lemma bind_get {B : Type} (k : S -> Gen S Y B) (s : S) :
  bind get k s = k s s.
Proof. unfold bind, get. now destruct (k s s). Qed.

End GenMore.

Section IngestFrames.

Variable float : string -> option Float.t.
Context {R F M : Type} `{MeterMetricReporter R} `{Plugin F M}.
Context {X : Type} (f : processor R F M -> X).

Lemma keeps_process_timer_metric {Y : Type} (key duration message : string) :
  (forall v p, f (set_timer_metrics v p) = f p) ->
  (forall l p, f (set_log l p) = f p) ->
  keeps f (process_timer_metric (Y:=Y) float key duration message).
Proof.
  intros Htimers Hlog. unfold process_timer_metric, compose_timer_metric.
  frame.
Qed.

Lemma keeps_process_counter_metric {Y : Type} (key : string)
    (composite : list string) (message : string) :
  (forall v p, f (set_counter_metrics v p) = f p) ->
  (forall l p, f (set_log l p) = f p) ->
  keeps f (process_counter_metric (Y:=Y) float key composite message).
Proof.
  intros Hcounters Hlog.
  unfold process_counter_metric, compose_counter_metric, float_of_rate,
    py_float.
  frame.
Qed.

Lemma keeps_process_gauge_metric {Y : Type} (key composite message : string) :
  (forall v p, f (set_gauge_metrics v p) = f p) ->
  (forall l p, f (set_log l p) = f p) ->
  keeps f (process_gauge_metric (Y:=Y) float key composite message).
Proof.
  intros Hgauges Hlog. unfold process_gauge_metric, compose_gauge_metric.
  frame.
Qed.

Lemma keeps_process_meter_metric {Y : Type} (key composite message : string) :
  (forall v p, f (set_meter_metrics v p) = f p) ->
  (forall l p, f (set_log l p) = f p) ->
  (forall l p, f (set_stdout l p) = f p) ->
  keeps f (process_meter_metric (Y:=Y) float key composite message).
Proof.
  intros Hmeters Hlog Hout. unfold process_meter_metric, compose_meter_metric.
  frame.
Qed.

Lemma keeps_process_plugin_metric {Y : Type} (metric_type key : string)
    (items : list string) (message : string) :
  (forall v p, f (set_plugin_metrics v p) = f p) ->
  keeps f (process_plugin_metric (Y:=Y) metric_type key items message).
Proof.
  intros Hplugins. unfold process_plugin_metric.
  frame.
Qed.

Hint Resolve keeps_process_timer_metric keeps_process_counter_metric
  keeps_process_gauge_metric keeps_process_meter_metric
  keeps_process_plugin_metric : frame.

Lemma keeps_handler {Y : Type} (metric_type key : string)
    (fields : list string) (message : string) :
  (forall v p, f (set_timer_metrics v p) = f p) ->
  (forall v p, f (set_counter_metrics v p) = f p) ->
  (forall v p, f (set_gauge_metrics v p) = f p) ->
  (forall v p, f (set_meter_metrics v p) = f p) ->
  (forall v p, f (set_plugin_metrics v p) = f p) ->
  (forall l p, f (set_log l p) = f p) ->
  (forall l p, f (set_stdout l p) = f p) ->
  keeps f (handler (Y:=Y) float metric_type key fields message).
Proof.
  intros Htimers Hcounters Hgauges Hmeters Hplugins Hlog Hout.
  unfold handler.
  destruct (String.eqb metric_type "c"); [eauto with frame|].
  destruct (String.eqb metric_type "ms"); [frame|].
  destruct (String.eqb metric_type "g"); [frame|].
  destruct (String.eqb metric_type "m"); [frame|].
  eauto with frame.
Qed.

End IngestFrames.

#[export] Hint Resolve keeps_process_timer_metric keeps_process_counter_metric
  keeps_process_gauge_metric keeps_process_meter_metric
  keeps_process_plugin_metric keeps_handler : frame.

Section Ingestion.

Variable float : string -> option Float.t.
Variable time_function : nat -> Float.t.
Context {R F M : Type} `{MeterMetricReporter R} `{Plugin F M}.

Lemma record_timing_eq {Y : Type} (metric_type : string) (start : Float.t)
    (p : processor R F M) :
  record_timing (Y:=Y) time_function metric_type start p
  = Outcome (Ok tt) (timing_recorded time_function metric_type start p) [].
Proof.
  unfold record_timing, timing_recorded, received, spent.
  cbn -[Dict.set Dict.setdefault Num.add Float.sub].
  rewrite get_setdefault_same.
  cbn -[Dict.set Dict.setdefault Num.add Float.sub].
  rewrite get_setdefault_same.
  cbn -[Dict.set Dict.setdefault Num.add Float.sub].
  reflexivity.
Qed.

Lemma bind_now {Y B : Type} (k : Float.t -> method Y B) (p : processor R F M) :
  bind (now time_function) k p
  = k (time_function (clock p)) (set_clock (S (clock p)) p).
Proof. unfold bind, now. now destruct (k _ _). Qed.

(** A line with a key that [normalize_key] returns and two or three fields
    reaches [process_message] with its second field as the type. *)
Lemma process_line {Y : Type} (message key : string) (fields : list string)
    (metric_type : string) (p : processor R F M) :
  line message key fields -> normalize_key key = Ok key ->
  nth_error fields 1 = Some metric_type ->
  process (Y:=Y) float time_function message p
  = process_message float time_function message metric_type key fields p.
Proof.
  intros (data & Hkey & Hfields & Hlen) Hsafe Htype.
  rewrite (process_fields float time_function message key data fields
             Hkey Hfields Hlen Hsafe).
  unfold item. rewrite Htype.
  exact (bind_ret_l metric_type
           (fun t => process_message float time_function message t
                                     key fields) p).
Qed.

(** A line with any other key: [normalize_key] raises [TypeError] and
    [process] with it, before anything is done. *)
Lemma process_line_other_key {Y : Type} (message key : string)
    (fields : list string) (p : processor R F M) :
  line message key fields -> Bytes.all_bytes Bytes.is_safe key = false ->
  process (Y:=Y) float time_function message p
  = Outcome (Raise TypeError) p [].
Proof.
  intros (data & Hkey & Hfields & Hlen) Hunsafe.
  apply (process_other_key float time_function message key data fields
           TypeError Hkey Hfields Hlen).
  now apply normalize_key_raises_on_unsafe.
Qed.

(** A handler followed by the accounting of the line. *)
Lemma timed_eq {Y : Type} (handler : method Y unit) (metric_type : string)
    (p : processor R F M) :
  (start <- now time_function ;;
   handler ;;
   record_timing time_function metric_type start) p
  = match handler (set_clock (S (clock p)) p) with
    | Outcome (Ok _) s ys =>
        Outcome (Ok tt)
                (timing_recorded time_function metric_type
                                 (time_function (clock p)) s) ys
    | Outcome (Raise e) s ys => Outcome (Raise e) s ys
    end.
Proof.
  rewrite bind_now. unfold bind.
  destruct (handler _) as [[[]|e] s ys]; [|reflexivity].
  rewrite record_timing_eq. now rewrite app_nil_r.
Qed.

(** A line of a recognised type: the clock is read, the handler of the type
    is called and, when it returns, the line is accounted for. *)
Lemma process_message_handler {Y : Type} (message metric_type key : string)
    (fields : list string) (p : processor R F M) :
  recognised metric_type p = true ->
  process_message (Y:=Y) float time_function message metric_type key fields p
  = (start <- now time_function ;;
     handler float metric_type key fields message ;;
     record_timing time_function metric_type start) p.
Proof.
  unfold recognised, builtin, process_message, handler. intros Hrec.
  rewrite !bind_now.
  destruct (String.eqb metric_type "c"); [reflexivity|].
  destruct (String.eqb metric_type "ms"); [now rewrite bind_assoc|].
  destruct (String.eqb metric_type "g"); [now rewrite bind_assoc|].
  destruct (String.eqb metric_type "m"); [now rewrite bind_assoc|].
  cbn [orb] in Hrec. rewrite bind_get. cbn [plugins set_clock].
  now rewrite Hrec.
Qed.

(** A line of any other type: the clock is read and the line is logged. *)
Lemma process_message_unrecognised {Y : Type}
    (message metric_type key : string) (fields : list string)
    (p : processor R F M) :
  recognised metric_type p = false ->
  process_message (Y:=Y) float time_function message metric_type key fields p
  = Outcome (Ok tt)
            (set_log (log p ++ [BadLine message])
                     (set_clock (S (clock p)) p)) [].
Proof.
  unfold recognised, builtin, process_message. intros Hrec.
  apply orb_false_iff in Hrec as [Hb Hplugin].
  apply orb_false_iff in Hb as [Hb Em].
  apply orb_false_iff in Hb as [Hb Eg].
  apply orb_false_iff in Hb as [Ec Ems].
  rewrite bind_now, Ec, Ems, Eg, Em, bind_get. cbn [plugins set_clock].
  rewrite Hplugin. reflexivity.
Qed.

End Ingestion.

Section Lines.

Variable float : string -> option Float.t.
Variable time_function : nat -> Float.t.
Context {R F M : Type} `{MeterMetricReporter R} `{Plugin F M}.

Lemma fail_eq {Y : Type} (message : string) (p : processor R F M) :
  fail (Y:=Y) message p
  = Outcome (Ok tt) (set_log (log p ++ [BadLine message]) p) [].
Proof. reflexivity. Qed.

Lemma process_malformed {Y : Type} (message : string)
    (p : processor R F M) :
  malformed message ->
  process (Y:=Y) float time_function message p
  = Outcome (Ok tt) (set_log (log p ++ [BadLine message]) p) [].
Proof.
  intros [Hno | (key & data & Hkey & Hdata)]; unfold process.
  - rewrite Hno. apply fail_eq.
  - assert (Hcolon : Bytes.contains ":" message = true).
    { apply contains_strip. rewrite contains_split_once, Hkey. reflexivity. }
    rewrite Hcolon, Hkey. cbn [negb].
    destruct (Bytes.contains "|" data) eqn:Hbar; cbn [negb];
      [|apply fail_eq].
    destruct Hdata as [Hnone | Hmany]; [discriminate|].
    apply Nat.ltb_lt in Hmany. rewrite Hmany, orb_true_r. apply fail_eq.
Qed.

(** X8. A line that [process] cannot cut into a key and two or three
    fields (no [:], or no [|] after the first [:], or more than three
    [|]-fields) is logged as a bad line and dropped: [process] returns,
    reads no clock, and changes nothing but the log. *)
Theorem malformed_line_is_logged_and_dropped (message : string)
    (p : processor R F M) :
  malformed message ->
  process (Y:=emission) float time_function message p
  = Outcome (Ok tt) (set_log (log p ++ [BadLine message]) p) [].
Proof. apply process_malformed. Qed.

Lemma process_unknown_type {Y : Type} (message key : string)
    (fields : list string) (metric_type : string) (p : processor R F M) :
  line message key fields -> normalize_key key = Ok key ->
  nth_error fields 1 = Some metric_type ->
  recognised metric_type p = false ->
  process (Y:=Y) float time_function message p
  = Outcome (Ok tt)
            (set_log (log p ++ [BadLine message])
                     (set_clock (S (clock p)) p)) [].
Proof.
  intros Hline Hsafe Htype Hrec.
  rewrite (process_line float time_function message key fields metric_type
             p Hline Hsafe Htype).
  now apply process_message_unrecognised.
Qed.

(** X9. A well-formed line whose type is neither [c], [ms], [g] nor [m]
    and has no plugin: when every byte of its key is of [[A-Za-z0-9._-]]
    the line is logged as a bad line and dropped, [process] returns after
    one reading of the clock and counts the line for no type; when its key
    has another byte [process] raises [TypeError] and changes nothing. *)
Theorem unknown_type_is_logged_and_dropped (message key : string)
    (fields : list string) (metric_type : string) (p : processor R F M) :
  line message key fields -> nth_error fields 1 = Some metric_type ->
  recognised metric_type p = false ->
  let o := process (Y:=emission) float time_function message p in
  (Bytes.all_bytes Bytes.is_safe key = true ->
   o = Outcome (Ok tt)
               (set_log (log p ++ [BadLine message])
                        (set_clock (S (clock p)) p)) []) /\
  (Bytes.all_bytes Bytes.is_safe key = false ->
   o = Outcome (Raise TypeError) p []).
Proof.
  intros Hline Htype Hrec o. split; intros Hkey.
  - apply (process_unknown_type message key fields metric_type p Hline);
      trivial.
    now apply normalize_key_fixed.
  - now apply (process_line_other_key float time_function message key
                 fields p Hline).
Qed.

(** X10. [by_type] counts the lines of a recognised type for which
    [process] returns: such a line adds one to the count of its type, a line
    on which [process] raises adds nothing, and the counts of the other
    types stay as they are. *)
Theorem received_lines_are_counted (message key : string)
    (fields : list string) (metric_type : string) (p : processor R F M) :
  line message key fields -> nth_error fields 1 = Some metric_type ->
  recognised metric_type p = true ->
  let o := process (Y:=emission) float time_function message p in
  received metric_type (by_type (state o))
  = received metric_type (by_type p)
    + match value o with Ok _ => 1 | Raise _ => 0 end /\
  forall other, other <> metric_type ->
    Dict.get other (by_type (state o)) = Dict.get other (by_type p).
Proof.
  intros Hline Htype Hrec o. subst o.
  destruct (Bytes.all_bytes Bytes.is_safe key) eqn:Hkey.
  2:{ rewrite (process_line_other_key float time_function message key
                 fields p Hline Hkey).
      cbn [state value]. split; [lia|reflexivity]. }
  rewrite (process_line float time_function message key fields metric_type
             p Hline (normalize_key_fixed key Hkey) Htype).
  rewrite process_message_handler by exact Hrec.
  rewrite timed_eq.
  pose proof (keeps_handler float by_type (Y:=emission) metric_type
                key fields message
                ltac:(reflexivity) ltac:(reflexivity) ltac:(reflexivity)
                ltac:(reflexivity) ltac:(reflexivity) ltac:(reflexivity)
                ltac:(reflexivity) (set_clock (S (clock p)) p)) as Hkeeps.
  cbn [by_type set_clock] in Hkeeps.
  destruct (handler _ _ _ _ _ _) as [[[]|e] s ys]; cbn [state value] in *.
  - unfold timing_recorded. cbn [by_type set_by_type]. rewrite Hkeeps. split.
    + unfold received at 1. now rewrite get_set_same.
    + intros other Hother. now apply get_set_setdefault_other.
  - rewrite Hkeeps. split; [lia|reflexivity].
Qed.

End Lines.

Lemma malformed_line_is_logged_and_dropped_witness :
  let p : processor (string * string * number) Empty_set Empty_set :=
    MessageProcessor [] in
  process (Y:=emission) Literal.float frozen "a:1|c|@1|x" p
  = Outcome (Ok tt) (set_log [BadLine "a:1|c|@1|x"] p) [].
Proof.
  intros p.
  apply (malformed_line_is_logged_and_dropped Literal.float frozen
           "a:1|c|@1|x" p).
  right. exists "a", "1|c|@1|x". split; [reflexivity|].
  right. cbn. lia.
Defined.

Lemma unknown_type_is_logged_and_dropped_witness :
  let p : processor (string * string * number) Empty_set Empty_set :=
    MessageProcessor [] in
  process (Y:=emission) Literal.float frozen "a:1|h" p
  = Outcome (Ok tt) (set_log [BadLine "a:1|h"] (set_clock 1 p)) [] /\
  process (Y:=emission) Literal.float frozen "a b:1|h" p
  = Outcome (Raise TypeError) p [].
Proof.
  intros p. split.
  - apply (unknown_type_is_logged_and_dropped Literal.float frozen
             "a:1|h" "a" ["1"; "h"] "h" p); try reflexivity.
    exists "1|h". split; [reflexivity|]. split; [reflexivity|]. cbn. lia.
  - apply (unknown_type_is_logged_and_dropped Literal.float frozen
             "a b:1|h" "a b" ["1"; "h"] "h" p); try reflexivity.
    exists "1|h". split; [reflexivity|]. split; [reflexivity|]. cbn. lia.
Defined.

Lemma received_lines_are_counted_witness :
  let p : processor (string * string * number) Empty_set Empty_set :=
    MessageProcessor [] in
  received "c" (by_type (state (process (Y:=emission) Literal.float
                                        frozen "foo:1|c" p))) = 1 /\
  received "c" (by_type (state (process (Y:=emission) Literal.float
                                        frozen "foo:1|c|@0" p))) = 0.
Proof.
  intros p.
  assert (H1 : line "foo:1|c" "foo" ["1"; "c"]).
  { exists "1|c". split; [reflexivity|]. split; [reflexivity|]. cbn. lia. }
  assert (H2 : line "foo:1|c|@0" "foo" ["1"; "c"; "@0"]).
  { exists "1|c|@0". split; [reflexivity|]. split; [reflexivity|].
    cbn. lia. }
  destruct (received_lines_are_counted Literal.float frozen
              "foo:1|c" "foo" ["1"; "c"] "c" p H1 eq_refl eq_refl)
    as [Hone _].
  destruct (received_lines_are_counted Literal.float frozen
              "foo:1|c|@0" "foo" ["1"; "c"; "@0"] "c" p H2 eq_refl eq_refl)
    as [Hnone _].
  split; [rewrite Hone | rewrite Hnone]; vm_compute; reflexivity.
Defined.

Section TimerLines.

Variable float : string -> option Float.t.
Variable time_function : nat -> Float.t.
Context {R F M : Type} `{MeterMetricReporter R} `{Plugin F M}.

Lemma compose_timer_metric_eq {Y : Type} (key : string) (duration : Float.t)
    (p : processor R F M) :
  compose_timer_metric (Y:=Y) key duration p
  = Outcome (Ok tt)
      (set_timer_metrics
         (Dict.set key (bucket key (timer_metrics p) ++ [duration])%list
                   (Dict.setdefault key [] (timer_metrics p))) p) [].
Proof.
  unfold compose_timer_metric, bucket, Dict.setdefault, Dict.mem.
  destruct (Dict.get key (timer_metrics p)) as [samples|] eqn:Hget.
  - cbn -[Dict.set]. rewrite Hget. cbn -[Dict.set]. rewrite Hget.
    reflexivity.
  - cbn -[Dict.set]. rewrite Hget. cbn -[Dict.set]. rewrite get_set_same.
    reflexivity.
Qed.

Lemma handler_timer {Y : Type} (key f0 : string) (rest : list string)
    (message : string) (p : processor R F M) :
  handler (Y:=Y) float "ms" key (f0 :: rest) message p
  = process_timer_metric float key f0 message p.
Proof.
  exact (bind_ret_l f0
           (fun f0 => process_timer_metric float key f0 message) p).
Qed.

Lemma timer_line_eq (message key f0 : string) (rest : list string)
    (p : processor R F M) :
  line message key (f0 :: "ms" :: rest) ->
  Bytes.all_bytes Bytes.is_safe key = true ->
  process (Y:=emission) float time_function message p
  = match process_timer_metric float key f0 message
                               (set_clock (S (clock p)) p) with
    | Outcome (Ok _) s ys =>
        Outcome (Ok tt)
                (timing_recorded time_function "ms"
                                 (time_function (clock p)) s) ys
    | Outcome (Raise e) s ys => Outcome (Raise e) s ys
    end.
Proof.
  intros Hline Hkey.
  rewrite (process_line float time_function message key _ "ms" p Hline
             (normalize_key_fixed key Hkey) eq_refl).
  rewrite process_message_handler by reflexivity.
  rewrite timed_eq, handler_timer. reflexivity.
Qed.

(** X11. A timer line whose key has only bytes of [[A-Za-z0-9._-]] and
    whose duration [float] reads is stored: [process] returns, yields and
    logs nothing, and the duration becomes the last sample of the bucket of
    the key, a new bucket if the key had none; the other buckets stay as
    they are. *)
Theorem timer_sample_is_appended (message key f0 : string)
    (rest : list string) (duration : Float.t) (p : processor R F M) :
  line message key (f0 :: "ms" :: rest) ->
  Bytes.all_bytes Bytes.is_safe key = true -> float f0 = Some duration ->
  let o := process (Y:=emission) float time_function message p in
  value o = Ok tt /\ yielded o = [] /\ log (state o) = log p /\
  Dict.get key (timer_metrics (state o))
  = Some (bucket key (timer_metrics p) ++ [duration])%list /\
  forall other, other <> key ->
    Dict.get other (timer_metrics (state o))
    = Dict.get other (timer_metrics p).
Proof.
  intros Hline Hkey Hfloat o. subst o.
  rewrite (timer_line_eq message key f0 rest p Hline Hkey).
  unfold process_timer_metric. rewrite Hfloat, compose_timer_metric_eq.
  cbn [value yielded state timing_recorded timer_metrics set_by_type
       set_process_timings set_clock set_timer_metrics log].
  split; [reflexivity|]. split; [reflexivity|]. split; [reflexivity|].
  split; [apply get_set_same|].
  intros other Hother. now apply get_set_setdefault_other.
Qed.

(** X12. A timer line whose key has only bytes of [[A-Za-z0-9._-]] and
    whose duration [float] does not read is logged as a bad line and stored
    nowhere, without an exception; yet it is counted in [by_type] as a
    received [ms] line. *)
Theorem rejected_timer_line_is_counted (message key f0 : string)
    (rest : list string) (p : processor R F M) :
  line message key (f0 :: "ms" :: rest) ->
  Bytes.all_bytes Bytes.is_safe key = true -> float f0 = None ->
  let o := process (Y:=emission) float time_function message p in
  value o = Ok tt /\
  timer_metrics (state o) = timer_metrics p /\
  log (state o) = (log p ++ [BadLine message])%list /\
  received "ms" (by_type (state o)) = received "ms" (by_type p) + 1.
Proof.
  intros Hline Hkey Hfloat o. subst o.
  rewrite (timer_line_eq message key f0 rest p Hline Hkey).
  unfold process_timer_metric. rewrite Hfloat, fail_eq.
  cbn [value yielded state timing_recorded timer_metrics set_by_type
       set_process_timings set_clock set_log log by_type].
  split; [reflexivity|]. split; [reflexivity|]. split; [reflexivity|].
  unfold received at 1. now rewrite get_set_same.
Qed.

End TimerLines.

Lemma timer_sample_is_appended_witness :
  let p : processor (string * string * number) Empty_set Empty_set :=
    state (process (Y:=emission) Literal.float frozen "a_b:5|ms"
                   (MessageProcessor [])) in
  let o := process (Y:=emission) Literal.float frozen " a_b:7.5|ms"
                   p in
  value o = Ok tt /\
  Dict.get "a_b" (timer_metrics (state o))
  = Some [Float.of_Z 5; Float.div (Float.of_Z 15) (Float.of_Z 2)].
Proof.
  intros p o.
  assert (Hline : line " a_b:7.5|ms" "a_b" ["7.5"; "ms"]).
  { exists "7.5|ms". split; [reflexivity|]. split; [reflexivity|].
    cbn. lia. }
  assert (Hfloat : Literal.float "7.5"
                   = Some (Float.div (Float.of_Z 15) (Float.of_Z 2)))
    by (vm_compute; reflexivity).
  destruct (timer_sample_is_appended Literal.float frozen
              " a_b:7.5|ms" "a_b" "7.5" [] _ p Hline eq_refl Hfloat)
    as (Hvalue & _ & _ & Hbucket & _).
  split; [exact Hvalue|]. exact Hbucket.
Defined.

Lemma rejected_timer_line_is_counted_witness :
  let p : processor (string * string * number) Empty_set Empty_set :=
    MessageProcessor [] in
  let o := process (Y:=emission) Literal.float frozen "a:fast|ms" p in
  value o = Ok tt /\ timer_metrics (state o) = [] /\
  log (state o) = [BadLine "a:fast|ms"] /\
  received "ms" (by_type (state o)) = 1.
Proof.
  intros p o.
  assert (Hline : line "a:fast|ms" "a" ["fast"; "ms"]).
  { exists "fast|ms". split; [reflexivity|]. split; [reflexivity|].
    cbn. lia. }
  exact (rejected_timer_line_is_counted Literal.float frozen
           "a:fast|ms" "a" "fast" [] p Hline eq_refl eq_refl).
Defined.

Section Stripping.

Lemma lstrip_keeps (sep : ascii) (s : string) :
  Bytes.is_space sep = false ->
  Bytes.contains sep s = true -> Bytes.contains sep (Bytes.lstrip s) = true.
Proof.
  intros Hsep. induction s as [|c s IH]; simpl; [trivial|].
  destruct (Bytes.is_space c) eqn:Hc; simpl; [|trivial].
  destruct (Ascii.eqb_spec c sep) as [->|_]; [congruence|]. exact IH.
Qed.

Lemma rstrip_keeps (sep : ascii) (s : string) :
  Bytes.is_space sep = false ->
  Bytes.contains sep s = true -> Bytes.contains sep (Bytes.rstrip s) = true.
Proof.
  intros Hsep. induction s as [|c s IH]; simpl; [trivial|].
  destruct (Bytes.rstrip s) as [|d r] eqn:Hr.
  - destruct (Ascii.eqb_spec c sep) as [->|_]; simpl.
    + intros _. rewrite Hsep. simpl. now rewrite Ascii.eqb_refl.
    + intros Hs. specialize (IH Hs). discriminate.
  - cbn [Bytes.contains] in *.
    destruct (Ascii.eqb c sep); simpl; [trivial|]. exact IH.
Qed.

Lemma strip_keeps (sep : ascii) (s : string) :
  Bytes.is_space sep = false ->
  Bytes.contains sep s = true -> Bytes.contains sep (Bytes.strip s) = true.
Proof.
  intros Hsep Hs. now apply rstrip_keeps, lstrip_keeps.
Qed.

Lemma split_not_nil (sep : ascii) (s : string) : Bytes.split sep s <> [].
Proof.
  destruct s as [|c s]; simpl; [discriminate|].
  destruct (Ascii.eqb c sep); [discriminate|].
  destruct (Bytes.split sep s); discriminate.
Qed.

Lemma split_single (sep : ascii) (s f : string) :
  Bytes.split sep s = [f] -> Bytes.contains sep s = false.
Proof.
  revert f. induction s as [|c s IH]; intros f Hsplit; [reflexivity|].
  simpl in *. destruct (Ascii.eqb c sep); simpl.
  - injection Hsplit as _ Hnil. now apply split_not_nil in Hnil.
  - destruct (Bytes.split sep s) as [|g gs] eqn:Hs;
      [now apply split_not_nil in Hs|].
    injection Hsplit as _ ->. now apply (IH g).
Qed.

(** A message is malformed or is a line with a type. *)
Lemma message_cases (message : string) :
  malformed message \/
  exists key fields metric_type,
    line message key fields /\ nth_error fields 1 = Some metric_type.
Proof.
  destruct (Bytes.contains ":" message) eqn:Hcolon; [|now left; left].
  apply (strip_keeps ":") in Hcolon; [|reflexivity].
  rewrite contains_split_once in Hcolon.
  destruct (Bytes.split_once ":" (Bytes.strip message)) as [[key data]|]
    eqn:Hkey; [|discriminate].
  destruct (Bytes.contains "|" data) eqn:Hbar;
    [|left; right; exists key, data; auto].
  destruct (Nat.ltb_spec 3 (length (Bytes.split "|" data))) as [Hmany | Hfew];
    [left; right; exists key, data; auto|].
  right.
  destruct (Bytes.split "|" data) as [|f0 [|f1 rest]] eqn:Hfields.
  - now apply split_not_nil in Hfields.
  - apply split_single in Hfields. congruence.
  - exists key, (f0 :: f1 :: rest), f1. split; [|reflexivity].
    exists data. split; [exact Hkey|]. split; [exact Hfields|].
    simpl in *. lia.
Qed.

End Stripping.

Section CounterLines.

Variable float : string -> option Float.t.
Variable time_function : nat -> Float.t.
Context {R F M : Type} `{MeterMetricReporter R} `{Plugin F M}.

Lemma counter_line_eq (message key f0 : string) (rest : list string)
    (p : processor R F M) :
  line message key (f0 :: "c" :: rest) ->
  Bytes.all_bytes Bytes.is_safe key = true ->
  process (Y:=emission) float time_function message p
  = match process_counter_metric float key (f0 :: "c" :: rest) message
                                 (set_clock (S (clock p)) p) with
    | Outcome (Ok _) s ys =>
        Outcome (Ok tt)
                (timing_recorded time_function "c"
                                 (time_function (clock p)) s) ys
    | Outcome (Raise e) s ys => Outcome (Raise e) s ys
    end.
Proof.
  intros Hline Hkey.
  rewrite (process_line float time_function message key _ "c" p Hline
             (normalize_key_fixed key Hkey) eq_refl).
  rewrite process_message_handler by reflexivity.
  rewrite timed_eq. reflexivity.
Qed.

Lemma process_counter_metric_rejected {Y : Type} (key f0 : string)
    (rest : list string) (message : string) (p : processor R F M) :
  float f0 = None \/ (exists f2, rest = [f2] /\ RATE_match f2 = None) ->
  process_counter_metric (Y:=Y) float key (f0 :: "c" :: rest) message p
  = Outcome (Ok tt) (set_log (log p ++ [BadLine message]) p) [].
Proof.
  intros Hrejected. unfold process_counter_metric, item.
  cbn [nth_error]. rewrite bind_ret_l.
  destruct (float f0) as [v|]; [|apply fail_eq].
  destruct Hrejected as [Hnone | (f2 & -> & Hrate)]; [discriminate|].
  cbn [length Nat.eqb nth_error]. rewrite bind_ret_l, Hrate. apply fail_eq.
Qed.

(** X13. A counter line whose key has only bytes of [[A-Za-z0-9._-]] and
    whose value [float] does not read, or whose third field does not match
    [RATE], is logged as a bad line and added to no counter, without an
    exception; yet it is counted in [by_type] as a received [c] line. *)
Theorem rejected_counter_line_is_counted (message key f0 : string)
    (rest : list string) (p : processor R F M) :
  line message key (f0 :: "c" :: rest) ->
  Bytes.all_bytes Bytes.is_safe key = true ->
  float f0 = None \/ (exists f2, rest = [f2] /\ RATE_match f2 = None) ->
  let o := process (Y:=emission) float time_function message p in
  value o = Ok tt /\
  counter_metrics (state o) = counter_metrics p /\
  log (state o) = (log p ++ [BadLine message])%list /\
  received "c" (by_type (state o)) = received "c" (by_type p) + 1.
Proof.
  intros Hline Hkey Hrejected o. subst o.
  rewrite (counter_line_eq message key f0 rest p Hline Hkey).
  rewrite process_counter_metric_rejected by exact Hrejected.
  cbn [value yielded state timing_recorded counter_metrics set_by_type
       set_process_timings set_clock set_log log by_type].
  split; [reflexivity|]. split; [reflexivity|]. split; [reflexivity|].
  unfold received at 1. now rewrite get_set_same.
Qed.

End CounterLines.

Lemma rejected_counter_line_is_counted_witness :
  let p : processor (string * string * number) Empty_set Empty_set :=
    MessageProcessor [] in
  let o := process (Y:=emission) Literal.float frozen "a:1|c|0.5" p in
  value o = Ok tt /\ counter_metrics (state o) = [] /\
  log (state o) = [BadLine "a:1|c|0.5"] /\
  received "c" (by_type (state o)) = 1.
Proof.
  intros p o.
  assert (Hline : line "a:1|c|0.5" "a" ["1"; "c"; "0.5"]).
  { exists "1|c|0.5". split; [reflexivity|]. split; [reflexivity|].
    cbn. lia. }
  assert (Hrate : Literal.float "1" = None
                  \/ exists f2, ["0.5"] = [f2] /\ RATE_match f2 = None).
  { right. exists "0.5". split; reflexivity. }
  exact (rejected_counter_line_is_counted Literal.float frozen
           "a:1|c|0.5" "a" "1" ["0.5"] p Hline eq_refl Hrate).
Defined.

Section MeterLines.

Variable float : string -> option Float.t.
Variable time_function : nat -> Float.t.
Context {R F M : Type} `{MeterMetricReporter R} `{Plugin F M}.

Lemma handler_meter {Y : Type} (key f0 : string) (rest : list string)
    (message : string) (p : processor R F M) :
  handler (Y:=Y) float "m" key (f0 :: rest) message p
  = process_meter_metric float key f0 message p.
Proof.
  exact (bind_ret_l f0
           (fun f0 => process_meter_metric float key f0 message) p).
Qed.

Lemma process_meter_metric_prints {Y : Type} (key composite message : string)
    (p : processor R F M) :
  stdout (state (process_meter_metric (Y:=Y) float key composite message p))
  = (stdout p ++ [composite])%list.
Proof.
  unfold process_meter_metric. rewrite bind_modify.
  match goal with
  | |- stdout (state (?k ?q)) = _ =>
      assert (Hrest : keeps stdout k)
        by (unfold compose_meter_metric; frame);
      exact (Hrest q)
  end.
Qed.

Lemma keeps_stdout_handler {Y : Type} (metric_type key : string)
    (fields : list string) (message : string) :
  String.eqb metric_type "m" = false ->
  keeps (S:=processor R F M) stdout
        (handler (Y:=Y) float metric_type key fields message).
Proof.
  intros Hm. unfold handler. rewrite Hm.
  destruct (String.eqb metric_type "c"); [eauto with frame|].
  destruct (String.eqb metric_type "ms"); [frame|].
  destruct (String.eqb metric_type "g"); [frame|].
  eauto with frame.
Qed.

(** X14. Every meter line whose key has only bytes of [[A-Za-z0-9._-]] is
    printed: whatever becomes of the line, a line of type [m] with such a
    key adds its value field to the standard output. *)
Theorem meter_line_is_printed (message key f0 : string) (rest : list string)
    (p : processor R F M) :
  line message key (f0 :: "m" :: rest) ->
  Bytes.all_bytes Bytes.is_safe key = true ->
  stdout (state (process (Y:=emission) float time_function message p))
  = (stdout p ++ [f0])%list.
Proof.
  intros Hline Hkey.
  rewrite (process_line float time_function message key _ "m" p Hline
             (normalize_key_fixed key Hkey) eq_refl).
  rewrite process_message_handler by reflexivity.
  rewrite timed_eq, handler_meter.
  pose proof (process_meter_metric_prints (Y:=emission) key
                f0 message (set_clock (S (clock p)) p)) as Hprints.
  destruct (process_meter_metric _ _ _ _ _) as [[[]|e] s ys];
    exact Hprints.
Qed.

(** X15. Only meter lines are printed: a message that is not a line of
    type [m] leaves the standard output as it is. *)
Theorem only_meter_lines_print (message : string) (p : processor R F M) :
  (forall key fields, line message key fields ->
                      nth_error fields 1 <> Some "m") ->
  stdout (state (process (Y:=emission) float time_function message p))
  = stdout p.
Proof.
  intros Hnot.
  destruct (message_cases message)
    as [Hmal | (key & fields & metric_type & Hline & Htype)].
  - now rewrite process_malformed.
  - destruct (Bytes.all_bytes Bytes.is_safe key) eqn:Hkey.
    2:{ now rewrite (process_line_other_key float time_function message
                       key fields p Hline Hkey). }
    apply normalize_key_fixed in Hkey.
    destruct (recognised metric_type p) eqn:Hrec.
    + rewrite (process_line float time_function message key fields
                 metric_type p Hline Hkey Htype).
      rewrite process_message_handler by exact Hrec.
      rewrite timed_eq.
      assert (Hm : String.eqb metric_type "m" = false).
      { apply String.eqb_neq. intros ->. exact (Hnot key fields Hline Htype). }
      pose proof (keeps_stdout_handler (Y:=emission) metric_type
                    key fields message Hm
                    (set_clock (S (clock p)) p)) as Hkeeps.
      destruct (handler _ _ _ _ _ _) as [[[]|e] s ys]; exact Hkeeps.
    + now rewrite (process_unknown_type float time_function message key
                     fields metric_type p Hline Hkey Htype Hrec).
Qed.

(** X16. [process] raises only on a well-formed line, and there only in
    [normalize_key], with [TypeError] on a key that has a byte outside
    [[A-Za-z0-9._-]], or in the handler of a counter, a gauge, a meter or a
    plugin: on a line that is malformed, or whose key has only such bytes
    and whose type is unknown or [ms], it returns. *)
Theorem process_raises_only_in_handlers (message : string) (e : exn)
    (p : processor R F M) :
  value (process (Y:=emission) float time_function message p) = Raise e ->
  exists key fields metric_type,
    line message key fields /\ nth_error fields 1 = Some metric_type /\
    ((Bytes.all_bytes Bytes.is_safe key = false /\ e = TypeError) \/
     (Bytes.all_bytes Bytes.is_safe key = true /\
      recognised metric_type p = true /\ metric_type <> "ms")).
Proof.
  destruct (message_cases message)
    as [Hmal | (key & fields & metric_type & Hline & Htype)].
  - rewrite process_malformed by exact Hmal. discriminate.
  - intros Hraise. exists key, fields, metric_type.
    split; [exact Hline|]. split; [exact Htype|].
    destruct (Bytes.all_bytes Bytes.is_safe key) eqn:Hkey.
    2:{ left. split; [reflexivity|].
        rewrite (process_line_other_key float time_function message
                   key fields p Hline Hkey) in Hraise.
        now injection Hraise as <-. }
    right. split; [reflexivity|].
    destruct (recognised metric_type p) eqn:Hrec.
    + split; [reflexivity|]. intros ->.
      destruct Hline as (data & Hsplit & Hfields & Hlen).
      destruct fields as [|f0 [|f1 rest]]; try discriminate.
      injection Htype as ->.
      assert (Hline : line message key (f0 :: "ms" :: rest))
        by (exists data; auto).
      rewrite (timer_line_eq float time_function message key f0 rest p Hline
                 Hkey) in Hraise.
      unfold process_timer_metric in Hraise.
      destruct (float f0) as [duration|].
      * rewrite compose_timer_metric_eq in Hraise. discriminate.
      * rewrite fail_eq in Hraise. discriminate.
    + rewrite (process_unknown_type float time_function message key
                 fields metric_type p Hline (normalize_key_fixed key Hkey)
                 Htype Hrec) in Hraise.
      discriminate.
Qed.

End MeterLines.

Lemma meter_line_is_printed_witness :
  let p : processor (string * string * number) Empty_set Empty_set :=
    MessageProcessor [] in
  stdout (state (process (Y:=emission) Literal.float frozen
                         "hits:abc|m" p)) = ["abc"].
Proof.
  intros p.
  apply (meter_line_is_printed Literal.float frozen
           "hits:abc|m" "hits" "abc" [] p); [|reflexivity].
  exists "abc|m". split; [reflexivity|]. split; [reflexivity|]. cbn. lia.
Defined.

Lemma only_meter_lines_print_witness :
  let p : processor (string * string * number) Empty_set Empty_set :=
    MessageProcessor [] in
  stdout (state (process (Y:=emission) Literal.float frozen
                         "hits:1|c" p)) = [].
Proof.
  intros p.
  apply (only_meter_lines_print Literal.float frozen "hits:1|c" p).
  intros key fields (data & Hkey & Hfields & _) Htype.
  injection Hkey as <- <-. subst fields. discriminate.
Defined.

Lemma process_raises_only_in_handlers_witness :
  let p : processor (string * string * number) Empty_set Empty_set :=
    MessageProcessor [] in
  (exists key fields metric_type,
     line "g:abc|g" key fields /\ nth_error fields 1 = Some metric_type /\
     ((Bytes.all_bytes Bytes.is_safe key = false /\
       UnboundLocalError = TypeError) \/
      (Bytes.all_bytes Bytes.is_safe key = true /\
       recognised metric_type p = true /\ metric_type <> "ms"))) /\
  (exists key fields metric_type,
     line "a b:1|ms" key fields /\ nth_error fields 1 = Some metric_type /\
     ((Bytes.all_bytes Bytes.is_safe key = false /\ TypeError = TypeError) \/
      (Bytes.all_bytes Bytes.is_safe key = true /\
       recognised metric_type p = true /\ metric_type <> "ms"))).
Proof.
  intros p. split.
  - apply (process_raises_only_in_handlers Literal.float frozen
             "g:abc|g" UnboundLocalError p).
    reflexivity.
  - apply (process_raises_only_in_handlers Literal.float frozen
             "a b:1|ms" TypeError p).
    reflexivity.
Defined.

(** ** Gauge lines *)

Section GaugeLines.

Variable float : string -> option Float.t.
Variable time_function : nat -> Float.t.
Context {R F M : Type} `{MeterMetricReporter R} `{Plugin F M}.

Lemma handler_gauge {Y : Type} (key f0 : string) (rest : list string)
    (message : string) (p : processor R F M) :
  handler (Y:=Y) float "g" key (f0 :: rest) message p
  = process_gauge_metric float key f0 message p.
Proof.
  exact (bind_ret_l f0
           (fun f0 => process_gauge_metric float key f0 message) p).
Qed.

Lemma gauge_line_eq (message key f0 : string) (rest : list string)
    (p : processor R F M) :
  line message key (f0 :: "g" :: rest) ->
  Bytes.all_bytes Bytes.is_safe key = true ->
  process (Y:=emission) float time_function message p
  = match process_gauge_metric float key f0 message
                               (set_clock (S (clock p)) p) with
    | Outcome (Ok _) s ys =>
        Outcome (Ok tt)
                (timing_recorded time_function "g"
                                 (time_function (clock p)) s) ys
    | Outcome (Raise e) s ys => Outcome (Raise e) s ys
    end.
Proof.
  intros Hline Hkey.
  rewrite (process_line float time_function message key _ "g" p Hline
             (normalize_key_fixed key Hkey) eq_refl).
  rewrite process_message_handler by reflexivity.
  rewrite timed_eq, handler_gauge. reflexivity.
Qed.

Lemma split_with (sep : ascii) (s : string) :
  Bytes.contains sep s = true -> (length (Bytes.split sep s) =? 1)%nat = false.
Proof.
  intros Hsep. apply Nat.eqb_neq. intros Hone.
  destruct (Bytes.split sep s) as [|f [|g fs]] eqn:Hsplit; try discriminate.
  apply split_single in Hsplit. congruence.
Qed.

(** X17. A gauge line whose key has only bytes of [[A-Za-z0-9._-]] and
    whose value field has no [:] and is read by [float] is stored:
    [process] returns and the pair of the value and the key becomes the
    last element of the gauge sequence. *)
Theorem gauge_sample_is_appended (message key f0 : string)
    (rest : list string) (v : Float.t) (p : processor R F M) :
  line message key (f0 :: "g" :: rest) ->
  Bytes.all_bytes Bytes.is_safe key = true ->
  Bytes.contains ":" f0 = false -> float f0 = Some v ->
  let o := process (Y:=emission) float time_function message p in
  value o = Ok tt /\ yielded o = [] /\ log (state o) = log p /\
  gauge_metrics (state o) = (gauge_metrics p ++ [(v, key)])%list.
Proof.
  intros Hline Hkey Hcolon Hfloat o. subst o.
  rewrite (gauge_line_eq message key f0 rest p Hline Hkey).
  unfold process_gauge_metric. rewrite (split_without ":" f0 Hcolon).
  cbn [length Nat.eqb negb item nth_error]. rewrite bind_ret_l, Hfloat.
  repeat split.
Qed.

(** X18. A gauge line whose key has only bytes of [[A-Za-z0-9._-]] and
    whose value field holds a [:] is logged as a bad line and stored
    nowhere, without an exception; it is counted in [by_type] as a received
    [g] line. *)
Theorem gauge_line_with_colon_is_rejected (message key f0 : string)
    (rest : list string) (p : processor R F M) :
  line message key (f0 :: "g" :: rest) ->
  Bytes.all_bytes Bytes.is_safe key = true ->
  Bytes.contains ":" f0 = true ->
  let o := process (Y:=emission) float time_function message p in
  value o = Ok tt /\
  gauge_metrics (state o) = gauge_metrics p /\
  log (state o) = (log p ++ [BadLine message])%list /\
  received "g" (by_type (state o)) = received "g" (by_type p) + 1.
Proof.
  intros Hline Hkey Hcolon o. subst o.
  rewrite (gauge_line_eq message key f0 rest p Hline Hkey).
  unfold process_gauge_metric. rewrite (split_with ":" f0 Hcolon).
  cbn [negb]. rewrite fail_eq.
  cbn [value yielded state timing_recorded gauge_metrics set_by_type
       set_process_timings set_clock set_log log by_type].
  split; [reflexivity|]. split; [reflexivity|]. split; [reflexivity|].
  unfold received at 1. now rewrite get_set_same.
Qed.

End GaugeLines.

Lemma gauge_sample_is_appended_witness :
  let p : processor (string * string * number) Empty_set Empty_set :=
    MessageProcessor [] in
  let o := process (Y:=emission) Literal.float frozen
                   "cpu-load:0.25|g" p in
  value o = Ok tt /\
  gauge_metrics (state o)
  = [(Float.div (Float.of_Z 1) (Float.of_Z 4), "cpu-load")].
Proof.
  intros p o.
  assert (Hline : line "cpu-load:0.25|g" "cpu-load" ["0.25"; "g"]).
  { exists "0.25|g". split; [reflexivity|]. split; [reflexivity|].
    cbn. lia. }
  assert (Hfloat : Literal.float "0.25"
                   = Some (Float.div (Float.of_Z 1) (Float.of_Z 4)))
    by (vm_compute; reflexivity).
  destruct (gauge_sample_is_appended Literal.float frozen
              "cpu-load:0.25|g" "cpu-load" "0.25" [] _ p Hline
              eq_refl eq_refl Hfloat) as (Hvalue & _ & _ & Hgauges).
  split; [exact Hvalue|exact Hgauges].
Defined.

Lemma gauge_line_with_colon_is_rejected_witness :
  let p : processor (string * string * number) Empty_set Empty_set :=
    MessageProcessor [] in
  let o := process (Y:=emission) Literal.float frozen "a:1:2|g" p in
  value o = Ok tt /\ gauge_metrics (state o) = [] /\
  log (state o) = [BadLine "a:1:2|g"] /\
  received "g" (by_type (state o)) = 1.
Proof.
  intros p o.
  assert (Hline : line "a:1:2|g" "a" ["1:2"; "g"]).
  { exists "1:2|g". split; [reflexivity|]. split; [reflexivity|].
    cbn. lia. }
  exact (gauge_line_with_colon_is_rejected Literal.float frozen
           "a:1:2|g" "a" "1:2" [] p Hline eq_refl eq_refl).
Defined.

(** ** The receive statistics *)

Section DictKeys.

Context {V : Type}.

Lemma mem_keys (k : string) (d : Dict.t V) :
  Dict.mem k d = StrSet.mem k (Dict.keys d).
Proof.
  unfold Dict.mem, StrSet.mem, Dict.keys.
  induction d as [|[k' v'] d IH]; simpl; [reflexivity|].
  destruct (String.eqb k k'); [reflexivity|exact IH].
Qed.

Lemma keys_set (k : string) (v : V) (d : Dict.t V) :
  Dict.keys (Dict.set k v d) = StrSet.add k (Dict.keys d).
Proof.
  unfold StrSet.add, StrSet.mem, Dict.keys.
  induction d as [|[k' v'] d IH]; simpl; [reflexivity|].
  destruct (String.eqb_spec k k') as [->|Hne]; simpl; [reflexivity|].
  rewrite IH. now destruct (existsb (String.eqb k) (map fst d)).
Qed.

Lemma keys_setdefault (k : string) (v : V) (d : Dict.t V) :
  Dict.keys (Dict.setdefault k v d) = StrSet.add k (Dict.keys d).
Proof.
  unfold Dict.setdefault. rewrite mem_keys.
  destruct (StrSet.mem k (Dict.keys d)) eqn:Hmem.
  - unfold StrSet.add. now rewrite Hmem.
  - apply keys_set.
Qed.

Lemma get_in_keys (k : string) (d : Dict.t V) :
  In k (Dict.keys d) -> exists v, Dict.get k d = Some v.
Proof.
  unfold Dict.keys. induction d as [|[k' v'] d IH]; simpl; [contradiction|].
  intros Hin. destruct (String.eqb_spec k k') as [->|Hne]; [eauto|].
  destruct Hin as [Heq | Hin]; [congruence|auto].
Qed.

End DictKeys.

Lemma strset_mem_add (x : string) (s : StrSet.t) :
  StrSet.mem x (StrSet.add x s) = true.
Proof.
  unfold StrSet.add. destruct (StrSet.mem x s) eqn:Hmem; [exact Hmem|].
  unfold StrSet.mem. rewrite existsb_app. simpl.
  now rewrite String.eqb_refl, orb_true_r.
Qed.

Lemma strset_add_twice (x : string) (s : StrSet.t) :
  StrSet.add x (StrSet.add x s) = StrSet.add x s.
Proof. unfold StrSet.add at 1. now rewrite strset_mem_add. Qed.

Section TimingKeys.

Variable float : string -> option Float.t.
Variable time_function : nat -> Float.t.
Context {R F M : Type} `{MeterMetricReporter R} `{Plugin F M}.

Lemma timing_recorded_keys (metric_type : string) (start : Float.t)
    (p : processor R F M) :
  Dict.keys (process_timings p) = Dict.keys (by_type p) ->
  Dict.keys (process_timings
               (timing_recorded time_function metric_type start p))
  = Dict.keys (by_type (timing_recorded time_function metric_type start p)).
Proof.
  intros Hkeys. unfold timing_recorded.
  cbn [process_timings by_type set_by_type set_process_timings set_clock].
  now rewrite !keys_set, !keys_setdefault, Hkeys.
Qed.

(** X19. [process] keeps the two dictionaries of the receive statistics in
    step: if [process_timings] and [by_type] have the same keys before a
    message, they have the same keys after it, whatever the message and
    whether [process] returns or raises. *)
Theorem process_keeps_timing_keys (message : string) (p : processor R F M) :
  Dict.keys (process_timings p) = Dict.keys (by_type p) ->
  let p' := state (process (Y:=emission) float time_function message p) in
  Dict.keys (process_timings p') = Dict.keys (by_type p').
Proof.
  intros Hkeys p'. subst p'.
  destruct (message_cases message)
    as [Hmal | (key & fields & metric_type & Hline & Htype)].
  - now rewrite process_malformed.
  - destruct (Bytes.all_bytes Bytes.is_safe key) eqn:Hkey.
    2:{ now rewrite (process_line_other_key float time_function message
                       key fields p Hline Hkey). }
    apply normalize_key_fixed in Hkey.
    destruct (recognised metric_type p) eqn:Hrec.
    + rewrite (process_line float time_function message key fields
                 metric_type p Hline Hkey Htype).
      rewrite process_message_handler by exact Hrec.
      rewrite timed_eq.
      pose proof (keeps_handler float by_type (Y:=emission) metric_type
                    key fields message
                    ltac:(reflexivity) ltac:(reflexivity) ltac:(reflexivity)
                    ltac:(reflexivity) ltac:(reflexivity) ltac:(reflexivity)
                    ltac:(reflexivity) (set_clock (S (clock p)) p)) as Hb.
      pose proof (keeps_handler float process_timings (Y:=emission)
                    metric_type key fields message
                    ltac:(reflexivity) ltac:(reflexivity) ltac:(reflexivity)
                    ltac:(reflexivity) ltac:(reflexivity) ltac:(reflexivity)
                    ltac:(reflexivity) (set_clock (S (clock p)) p)) as Ht.
      cbn [by_type process_timings set_clock] in Hb, Ht.
      destruct (handler _ _ _ _ _ _) as [[[]|e] s ys]; cbn [state] in *.
      * apply timing_recorded_keys. congruence.
      * congruence.
    + now rewrite (process_unknown_type float time_function message key
                     fields metric_type p Hline Hkey Htype Hrec).
Qed.

End TimingKeys.

Lemma process_keeps_timing_keys_witness :
  let p : processor (string * string * number) Empty_set Empty_set :=
    MessageProcessor [] in
  let p' := state (process (Y:=emission) Literal.float frozen
                           "a:1|c" p) in
  Dict.keys (process_timings p') = Dict.keys (by_type p').
Proof.
  intros p.
  apply (process_keeps_timing_keys Literal.float frozen "a:1|c" p).
  reflexivity.
Defined.

Section Loops.

Context {S Y : Type}.

(** A loop whose body, at the elements of the list, returns and yields one
    value, and keeps an invariant of the state. *)
Lemma for_each_groups {A : Type} (l : list A) (body : A -> Gen S Y unit)
    (one : A -> Y) (inv : S -> Prop) :
  (forall x s, In x l -> inv s ->
     exists s', body x s = Outcome (Ok tt) s' [one x] /\ inv s') ->
  forall s, inv s ->
    exists s', for_each l body s = Outcome (Ok tt) s' (map one l) /\ inv s'.
Proof.
  induction l as [|x l IH]; intros Hbody s Hs.
  - exists s. split; [reflexivity|exact Hs].
  - destruct (Hbody x s (or_introl eq_refl) Hs) as (s1 & E1 & H1).
    destruct (IH (fun y q Hy => Hbody y q (or_intror Hy)) s1 H1)
      as (s2 & E2 & H2).
    exists s2. split; [|exact H2].
    cbn [for_each]. unfold bind. rewrite E1, E2. reflexivity.
Qed.

End Loops.

Section SummaryFacts.

Variable time_function : nat -> Float.t.
Context {R F M : Type} `{MeterMetricReporter R} `{Plugin F M}.

Lemma flush_metrics_summary_eq (num_stats : Z)
    (per_metric : Dict.t (Z * Float.t)) (timestamp : Z)
    (p : processor R F M) :
  (forall metric_type, In metric_type (Dict.keys (process_timings p)) ->
                       In metric_type (Dict.keys (by_type p))) ->
  let prefix := internal_metrics_prefix p in
  exists s,
    flush_metrics_summary num_stats per_metric timestamp p
    = Outcome (Ok tt) s
        ([(prefix ++ "numStats", Int num_stats, timestamp)]
         :: List.app (map (flush_group prefix timestamp) per_metric)
                     (map (receive_group prefix timestamp (by_type p))
                          (process_timings p))) /\
    process_timings s = [] /\ by_type s = [].
Proof.
  intros Hkeys prefix.
  pose (inv := fun q : processor R F M =>
                 by_type q = by_type p /\
                 process_timings q = process_timings p /\
                 internal_metrics_prefix q = prefix).
  unfold flush_metrics_summary.
  cbn -[String.append Num.add Num.mul for_each].
  match goal with
  | |- context [for_each per_metric ?body ?s0] =>
      destruct (for_each_groups per_metric body
                  (flush_group prefix timestamp) inv) with (s := s0)
        as (s1 & E1 & Ib & It & Ip)
  end.
  { intros [name [value duration]] q _ (Hb & Ht & Hp). eexists. split.
    - cbn -[String.append Num.add Num.mul]. rewrite Hp. reflexivity.
    - repeat split; assumption. }
  { repeat split. }
  rewrite E1. clear E1.
  cbn -[String.append Num.add Num.mul for_each map]. rewrite It.
  match goal with
  | |- context [for_each (process_timings p) ?body ?s0] =>
      destruct (for_each_groups (process_timings p) body
                  (receive_group prefix timestamp (by_type p)) inv)
        with (s := s0) as (s2 & E2 & _)
  end.
  { intros [metric_type duration] q Hin (Hb & Ht & Hp).
    assert (Hkey : In metric_type (Dict.keys (by_type p))).
    { apply Hkeys. exact (in_map fst _ _ Hin). }
    destruct (get_in_keys metric_type _ Hkey) as [n Hn].
    eexists. split.
    - cbn -[String.append Num.add Num.mul]. rewrite Hb, Hn.
      cbn -[String.append Num.add Num.mul].
      unfold receive_group, received. rewrite Hp, Hn. reflexivity.
    - repeat split; assumption. }
  { repeat split; assumption. }
  rewrite E2. clear E2.
  cbn -[String.append Num.add Num.mul map].
  eexists. split; [rewrite app_nil_r; reflexivity|].
  split; reflexivity.
Qed.

End SummaryFacts.

Section SummaryClaims.

Variable time_function : nat -> Float.t.
Context {R F M : Type} `{MeterMetricReporter R} `{Plugin F M}.

(** A summary that returns went through its last two statements. *)
Lemma flush_metrics_summary_clears (num_stats : Z)
    (per_metric : Dict.t (Z * Float.t)) (timestamp : Z) (p : processor R F M) :
  let o := flush_metrics_summary num_stats per_metric timestamp p in
  value o = Ok tt ->
  process_timings (state o) = [] /\ by_type (state o) = [].
Proof.
  intros o Hok. subst o. unfold flush_metrics_summary in *.
  repeat match type of Hok with
         | value (bind ?m ?k ?s) = Ok ?b =>
             let a := fresh "a" in
             let Hm := fresh "Hm" in
             let Hk := fresh "Hk" in
             destruct (bind_inv m k s b Hok) as (a & Hm & Hk);
             rewrite (bind_ok m k s a Hm); cbn [state];
             clear Hok; rename Hk into Hok; cbv beta in Hok |- *
         end.
  split; reflexivity.
Qed.

(** X20. The summary of a flush reports the receive statistics and clears
    them.  When every key of [process_timings] is a key of [by_type],
    [flush_metrics_summary] returns, never failing on a missing key; it
    yields [numStats] first, then one pair of metrics for each phase of
    the flush, its count and its duration in milliseconds, and one for each
    type of line received, the number [by_type] holds for it and the time
    spent on it in milliseconds, and nothing else; and it leaves both
    dictionaries empty. *)
Theorem flush_metrics_summary_reports (num_stats : Z)
    (per_metric : Dict.t (Z * Float.t)) (timestamp : Z) (p : processor R F M) :
  (forall metric_type, In metric_type (Dict.keys (process_timings p)) ->
                       In metric_type (Dict.keys (by_type p))) ->
  let o := flush_metrics_summary num_stats per_metric timestamp p in
  let prefix := internal_metrics_prefix p in
  value o = Ok tt /\
  hd_error (yielded o)
  = Some [(prefix ++ "numStats", Int num_stats, timestamp)] /\
  (forall phase, In phase per_metric ->
                 In (flush_group prefix timestamp phase) (yielded o)) /\
  (forall timing, In timing (process_timings p) ->
                  In (receive_group prefix timestamp (by_type p) timing)
                     (yielded o)) /\
  length (yielded o)
  = (1 + length per_metric + length (process_timings p))%nat /\
  process_timings (state o) = [] /\ by_type (state o) = [].
Proof.
  intros Hkeys o prefix. subst o.
  destruct (flush_metrics_summary_eq num_stats per_metric timestamp p Hkeys)
    as (s & -> & Ht & Hb).
  cbn [value yielded state hd_error]. fold prefix.
  split; [reflexivity|]. split; [reflexivity|]. split.
  { intros phase Hin. right. apply in_or_app. left. now apply in_map. }
  split.
  { intros timing Hin. right. apply in_or_app. right. now apply in_map. }
  split; [|split; assumption].
  cbn [length]. now rewrite length_app, !length_map.
Qed.

(** X21. A flush that runs to its end restarts the receive statistics: it
    leaves [process_timings] and [by_type] empty. *)
Theorem flush_clears_receive_statistics (interval percent : Z)
    (p : processor R F M) :
  let o := flush time_function interval percent p in
  value o = Ok tt ->
  process_timings (state o) = [] /\ by_type (state o) = [].
Proof.
  intros o Hok. subst o.
  destruct (flush_ok_inv time_function interval percent p Hok)
    as (seconds & timestamp & s1 & s2 & s3 & s4 & s5 & s6
        & g1 & g2 & g3 & g4 & g5 & g6 & d1 & d2 & d3 & d4 & d5
        & _ & _ & _ & _ & _ & _ & _ & E6 & ->).
  cbn [state].
  match type of E6 with
  | flush_metrics_summary ?n ?per ?ts ?q = _ =>
      pose proof (flush_metrics_summary_clears n per ts q) as Hclears
  end.
  cbv zeta in Hclears. rewrite E6 in Hclears. now apply Hclears.
Qed.

End SummaryClaims.

Lemma flush_metrics_summary_reports_witness :
  let p : processor (string * string * number) Empty_set Empty_set :=
    state (for_each ["a:1|c"; "b:2|c"; "t:5|ms"]
                    (process (Y:=emission) Literal.float ticking)
                    (MessageProcessor [])) in
  let o := flush_metrics_summary 3 [("counter", (2, Float.zero))] 1000 p in
  value o = Ok tt /\
  In [("statsd.receive.c.count", Int 2, 1000);
      ("statsd.receive.c.duration", Float (Float.of_Z 2000), 1000)]
     (yielded o) /\
  length (yielded o) = 4%nat /\
  by_type (state o) = [].
Proof.
  intros p o.
  assert (Hkeys : forall metric_type,
             In metric_type (Dict.keys (process_timings p)) ->
             In metric_type (Dict.keys (by_type p)))
    by (intros metric_type Hin; vm_compute in Hin |- *; exact Hin).
  assert (Hc : In ("c", Float (Float.of_Z 2)) (process_timings p))
    by (vm_compute; left; reflexivity).
  destruct (flush_metrics_summary_reports 3 [("counter", (2, Float.zero))]
              1000 p Hkeys)
    as (Hvalue & _ & _ & Hreceive & Hlength & _ & Hcleared).
  specialize (Hreceive _ Hc). fold o in Hvalue, Hreceive, Hlength, Hcleared.
  split; [exact Hvalue|]. split; [|split; [|exact Hcleared]].
  - assert (Hgroup : receive_group (internal_metrics_prefix p) 1000
                       (by_type p) ("c", Float (Float.of_Z 2))
                     = [("statsd.receive.c.count", Int 2, 1000);
                        ("statsd.receive.c.duration",
                         Float (Float.of_Z 2000), 1000)])
      by (vm_compute; reflexivity).
    rewrite <- Hgroup. exact Hreceive.
  - rewrite Hlength. vm_compute. reflexivity.
Defined.

Lemma flush_clears_receive_statistics_witness :
  let p : processor (string * string * number) Empty_set Empty_set :=
    state (for_each ["a:1|c"; "t:5|ms"]
                    (process (Y:=emission) Literal.float frozen)
                    (MessageProcessor [])) in
  by_type (state (flush frozen 10000 90 p)) = [].
Proof.
  intros p.
  assert (Hok : value (flush frozen 10000 90 p) = Ok tt)
    by (vm_compute; reflexivity).
  exact (proj2 (flush_clears_receive_statistics frozen 10000 90 p Hok)).
Defined.

(** ** What a flush leaves of the timers *)

Section EmptiedBuckets.

Lemma emptied_get (key : string) (items : list (string * list Float.t)) :
  forall d,
    Dict.get key d = Some [] ->
    Dict.get key
      (fold_left emptied items d)
    = Some [].
Proof.
  induction items as [|[k samples] items IH]; intros d Hd; [exact Hd|].
  cbn [fold_left]. apply IH. unfold emptied. cbn [fst snd].
  destruct (0 <? length samples)%nat; [|exact Hd].
  destruct (String.eqb_spec k key) as [->|Hne].
  - apply get_set_same.
  - now rewrite get_set_other.
Qed.

Lemma emptied_in (key : string) (samples : list Float.t)
    (items : list (string * list Float.t)) :
  In (key, samples) items -> samples <> [] ->
  forall d,
    Dict.get key
      (fold_left emptied items d)
    = Some [].
Proof.
  induction items as [|[k l] items IH]; intros Hin Hne d; [contradiction|].
  cbn [fold_left]. destruct Hin as [[= -> ->] | Hin].
  - apply emptied_get. unfold emptied. cbn [fst snd].
    destruct samples; [contradiction|].
    cbn [length Nat.ltb Nat.leb]. apply get_set_same.
  - now apply IH.
Qed.

Lemma strset_add_in (x : string) (s : StrSet.t) :
  In x s -> StrSet.add x s = s.
Proof.
  intros Hin. unfold StrSet.add, StrSet.mem.
  replace (existsb (String.eqb x) s) with true; [reflexivity|].
  symmetry. apply existsb_exists. exists x. split; [exact Hin|].
  apply String.eqb_refl.
Qed.

Lemma emptied_keys (items : list (string * list Float.t)) :
  forall d,
    (forall bucket, In bucket items -> In (fst bucket) (Dict.keys d)) ->
    Dict.keys
      (fold_left emptied items d)
    = Dict.keys d.
Proof.
  induction items as [|[k l] items IH]; intros d Hkeys; [reflexivity|].
  cbn [fold_left].
  assert (Hstep : Dict.keys (emptied d (k, l)) = Dict.keys d).
  { unfold emptied. cbn [fst snd].
    destruct (0 <? length l)%nat; [|reflexivity].
    rewrite keys_set. apply strset_add_in.
    exact (Hkeys (k, l) (or_introl eq_refl)). }
  rewrite IH; [exact Hstep|].
  intros bucket Hin. rewrite Hstep. apply Hkeys. now right.
Qed.

End EmptiedBuckets.

Section TimerReset.

Context {R F M : Type} `{MeterMetricReporter R} `{Plugin F M}.

Lemma timer_metrics_emptied (items : list (string * list Float.t)) :
  forall q : processor R F M,
    timer_metrics (fold_left (fun q bucket => empty_bucket bucket q) items q)
    = fold_left emptied items (timer_metrics q).
Proof.
  induction items as [|[k l] items IH]; intros q; [reflexivity|].
  cbn [fold_left]. rewrite IH. f_equal.
  unfold empty_bucket, emptied. now destruct (0 <? length (snd (k, l)))%nat.
Qed.

(** X22. With [threshold_value = (100 - percent) / 100.0], a flush of the
    timers all of whose buckets can be flushed (no sample is NaN and, in
    the buckets of two samples or more, the rounding keeps a sample and the
    mean of the samples kept is an integer) resets them: it returns, keeps
    every key, and leaves an empty bucket at every key. *)
Theorem flush_timer_metrics_resets (percent timestamp : Z)
    (threshold : number) (p : processor R F M) :
  threshold_value percent = Ok threshold ->
  (forall key samples, In (key, samples) (timer_metrics p) ->
                       flushable threshold samples) ->
  let o := flush_timer_metrics percent timestamp p in
  value o = Ok tt /\
  Dict.keys (timer_metrics (state o)) = Dict.keys (timer_metrics p) /\
  forall key, In key (Dict.keys (timer_metrics p)) ->
              Dict.get key (timer_metrics (state o)) = Some [].
Proof.
  intros Hthreshold Hflushable o. subst o.
  rewrite (flush_timer_metrics_eq percent timestamp threshold p Hthreshold
             Hflushable).
  cbn [value state]. rewrite timer_metrics_emptied.
  split; [reflexivity|]. split.
  - apply emptied_keys. intros bucket Hin. now apply in_map.
  - intros key Hkey.
    destruct (get_in_keys key _ Hkey) as [samples Hget].
    destruct samples as [|x samples].
    + now apply emptied_get.
    + apply (emptied_in key (x :: samples)); [|discriminate].
      now apply get_in.
Qed.

Lemma flushable_nil (threshold : number) : flushable threshold [].
Proof.
  split; [constructor|]. unfold summable. cbn. lia.
Qed.

Lemma skip_empty_buckets (percent timestamp : Z) (threshold : number)
    (prefix : string) (items : list (string * list Float.t))
    (q : processor R F M) :
  (forall key samples, In (key, samples) items -> samples = []) ->
  fold_left (fun q bucket => empty_bucket bucket q) items q = q /\
  flat_map (bucket_group prefix percent threshold timestamp) items = [].
Proof.
  revert q. induction items as [|[k l] items IH]; intros q Hitems;
    [split; reflexivity|].
  rewrite (Hitems k l (or_introl eq_refl)) in *.
  cbn [fold_left flat_map app]. unfold empty_bucket at 2.
  unfold bucket_group at 1. cbn [snd length Nat.ltb Nat.leb app].
  apply IH. intros key samples Hin. apply (Hitems key samples).
  now right.
Qed.

(** X23. Empty buckets are passed over: when every bucket is empty, as
    after a flush, the flush of the timers changes nothing and yields
    nothing; it returns when [(100 - percent) / 100.0] can be computed, and
    raises what that division raises otherwise ([OverflowError], when
    [100 - percent] is too large for a float). *)
Theorem flush_timer_metrics_skips_empty_buckets (percent timestamp : Z)
    (p : processor R F M) :
  (forall key samples, In (key, samples) (timer_metrics p) -> samples = []) ->
  flush_timer_metrics percent timestamp p
  = match threshold_value percent with
    | Ok _ => Outcome (Ok tt) p []
    | Raise e => Outcome (Raise e) p []
    end.
Proof.
  intros Hempty.
  destruct (threshold_value percent) as [threshold|e] eqn:Hthreshold.
  - rewrite (flush_timer_metrics_eq percent timestamp threshold p
               Hthreshold).
    + destruct (skip_empty_buckets percent timestamp threshold
                  (timer_prefix p) (timer_metrics p) p Hempty) as [-> ->].
      reflexivity.
    + intros key samples Hin. rewrite (Hempty key samples Hin).
      apply flushable_nil.
  - unfold flush_timer_metrics. unfold threshold_value in Hthreshold.
    unfold bind at 1. now rewrite Hthreshold.
Qed.

End TimerReset.

Lemma flush_timer_metrics_resets_witness :
  let p : processor (string * string * number) Empty_set Empty_set :=
    state (for_each ["a:1|ms"; "b:2|ms"; "a:3|ms"]
                    (process (Y:=emission) Literal.float frozen)
                    (MessageProcessor [])) in
  let o := flush_timer_metrics 90 1000 p in
  value o = Ok tt /\
  Dict.keys (timer_metrics (state o)) = ["a"; "b"] /\
  Dict.get "a" (timer_metrics (state o)) = Some [].
Proof.
  intros p o.
  assert (Hp : timer_metrics p
               = [("a", [Float.of_Z 1; Float.of_Z 3]);
                  ("b", [Float.of_Z 2])])
    by (vm_compute; reflexivity).
  assert (Hflushable : forall key samples,
             In (key, samples) (timer_metrics p) ->
             flushable tenth samples).
  { rewrite Hp. intros key samples [E | [E | []]]; injection E as _ <-.
    - split; [repeat constructor|].
      intros _. exists 0, 2. vm_compute. repeat split; congruence.
    - split; [repeat constructor|]. unfold summable. cbn. lia. }
  destruct (flush_timer_metrics_resets 90 1000 tenth p eq_refl Hflushable)
    as (Hvalue & Hkeys & Hget).
  split; [exact Hvalue|]. split.
  - etransitivity; [exact Hkeys|]. rewrite Hp. reflexivity.
  - apply Hget. rewrite Hp. left. reflexivity.
Defined.

Lemma flush_timer_metrics_skips_empty_buckets_witness :
  let p : processor (string * string * number) Empty_set Empty_set :=
    state (flush_timer_metrics 90 1000
             (state (process (Y:=emission) Literal.float frozen
                             "a:1|ms" (MessageProcessor [])))) in
  flush_timer_metrics 90 2000 p = Outcome (Ok tt) p [] /\
  flush_timer_metrics (100 - 2 ^ 1024) 2000 p
  = Outcome (Raise OverflowError) p [].
Proof.
  intros p.
  assert (Hempty : forall key samples,
             In (key, samples) (timer_metrics p) -> samples = []).
  { intros key samples [[= <- <-] | []]. reflexivity. }
  split.
  - exact (flush_timer_metrics_skips_empty_buckets 90 2000 p Hempty).
  - assert (Hraise : threshold_value (100 - 2 ^ 1024) = Raise OverflowError)
      by (vm_compute; reflexivity).
    rewrite <- (f_equal (fun r => match r with
                                  | Ok _ => Outcome (Ok tt) p []
                                  | Raise e => Outcome (Raise e) p []
                                  end) Hraise).
    exact (flush_timer_metrics_skips_empty_buckets (100 - 2 ^ 1024) 2000 p
             Hempty).
Defined.

(** ** The names of the metrics seen *)

Section StrSets.

Lemma strset_mem_in (x : string) (s : StrSet.t) :
  StrSet.mem x s = true <-> In x s.
Proof.
  unfold StrSet.mem. rewrite existsb_exists. split.
  - intros (y & Hy & Heq). apply String.eqb_eq in Heq. now subst.
  - intros Hin. exists x. split; [exact Hin|apply String.eqb_refl].
Qed.

Lemma strset_add_spec (x y : string) (s : StrSet.t) :
  In x (StrSet.add y s) <-> x = y \/ In x s.
Proof.
  unfold StrSet.add. destruct (StrSet.mem y s) eqn:Hmem.
  - apply strset_mem_in in Hmem. split; [auto|].
    intros [-> | Hin]; assumption.
  - rewrite in_app_iff. simpl. intuition.
Qed.

Lemma strset_update_spec (x : string) (xs : list string) (s : StrSet.t) :
  In x (StrSet.update xs s) <-> In x s \/ In x xs.
Proof.
  unfold StrSet.update. revert s.
  induction xs as [|y xs IH]; intros s; simpl; [intuition|].
  rewrite IH, strset_add_spec. intuition.
Qed.

Lemma strset_add_nodup (y : string) (s : StrSet.t) :
  NoDup s -> NoDup (StrSet.add y s).
Proof.
  intros Hs. unfold StrSet.add. destruct (StrSet.mem y s) eqn:Hmem;
    [exact Hs|].
  apply NoDup_app; [exact Hs | constructor; [intros []|constructor] |].
  intros x Hx [-> | []]. apply strset_mem_in in Hx. congruence.
Qed.

Lemma strset_update_nodup (xs : list string) (s : StrSet.t) :
  NoDup s -> NoDup (StrSet.update xs s).
Proof.
  unfold StrSet.update. revert s.
  induction xs as [|y xs IH]; intros s Hs; simpl; [exact Hs|].
  now apply IH, strset_add_nodup.
Qed.

End StrSets.

Section Names.

Context {R F M : Type} `{MeterMetricReporter R} `{Plugin F M}.

Lemma get_metric_names_spec (name : string) (p : processor R F M) :
  In name (get_metric_names p) <->
  In name (Dict.keys (timer_metrics p)) \/
  In name (Dict.keys (counter_metrics p)) \/
  (exists value, In (value, name) (gauge_metrics p)) \/
  In name (Dict.keys (meter_metrics p)) \/
  In name (Dict.keys (plugin_metrics p)).
Proof.
  unfold get_metric_names. cbv zeta. rewrite !strset_update_spec.
  assert (Hgauge : In name (map (fun '(_, v) => v) (gauge_metrics p)) <->
                   exists value, In (value, name) (gauge_metrics p)).
  { rewrite in_map_iff. split.
    - intros ([value key] & <- & Hin). now exists value.
    - intros (value & Hin). now exists (value, name). }
  rewrite Hgauge. simpl. tauto.
Qed.

(** X24. [get_metric_names] lists, each once, the keys of the timers, of the
    counters, of the meters and of the plugin metrics and the keys of the
    gauge samples, and nothing else. *)
Theorem get_metric_names_lists_every_key (p : processor R F M) :
  NoDup (get_metric_names p) /\
  forall name,
    In name (get_metric_names p) <->
    In name (Dict.keys (timer_metrics p)) \/
    In name (Dict.keys (counter_metrics p)) \/
    (exists value, In (value, name) (gauge_metrics p)) \/
    In name (Dict.keys (meter_metrics p)) \/
    In name (Dict.keys (plugin_metrics p)).
Proof.
  split; [|intros name; apply get_metric_names_spec].
  unfold get_metric_names. cbv zeta.
  repeat apply strset_update_nodup. constructor.
Qed.

(** *** No name is forgotten *)

Lemma names_kept_refl (p : processor R F M) : names_kept p p.
Proof. now intros name. Qed.

Lemma names_kept_trans (p q r : processor R F M) :
  names_kept p q -> names_kept q r -> names_kept p r.
Proof. intros Hpq Hqr name Hin. auto. Qed.

Lemma names_kept_same (p q : processor R F M) :
  get_metric_names q = get_metric_names p -> names_kept p q.
Proof. intros Heq name. now rewrite Heq. Qed.

Lemma keys_set_grow {V : Type} (name k : string) (v : V) (d : Dict.t V) :
  In name (Dict.keys d) -> In name (Dict.keys (Dict.set k v d)).
Proof. intros Hin. rewrite keys_set. apply strset_add_spec. now right. Qed.

Lemma names_kept_timers (k : string) (v : list Float.t) (p : processor R F M) :
  names_kept p (set_timer_metrics (Dict.set k v (timer_metrics p)) p).
Proof.
  intros name. rewrite !get_metric_names_spec.
  cbn [timer_metrics counter_metrics gauge_metrics meter_metrics
       plugin_metrics set_timer_metrics].
  intros [Hin | Hin]; [left; now apply keys_set_grow | now right].
Qed.

Lemma names_kept_counters (k : string) (v : number) (p : processor R F M) :
  names_kept p (set_counter_metrics (Dict.set k v (counter_metrics p)) p).
Proof.
  intros name. rewrite !get_metric_names_spec.
  cbn [timer_metrics counter_metrics gauge_metrics meter_metrics
       plugin_metrics set_counter_metrics].
  intros [Hin | [Hin | Hin]];
    [now left | right; left; now apply keys_set_grow | now right; right].
Qed.

Lemma names_kept_gauges (x : Float.t * string) (p : processor R F M) :
  names_kept p (set_gauge_metrics (gauge_metrics p ++ [x])%list p).
Proof.
  intros name. rewrite !get_metric_names_spec.
  cbn [timer_metrics counter_metrics gauge_metrics meter_metrics
       plugin_metrics set_gauge_metrics].
  intros [Hin | [Hin | [[value Hin] | Hin]]];
    [now left | now right; left | | now right; right; right].
  right. right. left. exists value. apply in_app_iff. now left.
Qed.

Lemma names_kept_meters (k : string) (v : R) (p : processor R F M) :
  names_kept p (set_meter_metrics (Dict.set k v (meter_metrics p)) p).
Proof.
  intros name. rewrite !get_metric_names_spec.
  cbn [timer_metrics counter_metrics gauge_metrics meter_metrics
       plugin_metrics set_meter_metrics].
  intros [Hin | [Hin | [Hin | [Hin | Hin]]]];
    [now left | now right; left | now right; right; left | |
     now right; right; right; right].
  right. right. right. left. now apply keys_set_grow.
Qed.

Lemma names_kept_plugins (k : string) (v : M) (p : processor R F M) :
  names_kept p (set_plugin_metrics (Dict.set k v (plugin_metrics p)) p).
Proof.
  intros name. rewrite !get_metric_names_spec.
  cbn [timer_metrics counter_metrics gauge_metrics meter_metrics
       plugin_metrics set_plugin_metrics].
  intros [Hin | [Hin | [Hin | [Hin | Hin]]]];
    [now left | now right; left | now right; right; left |
     now right; right; right; left |].
  right. right. right. right. now apply keys_set_grow.
Qed.

Lemma names_kept_log (l : list log_entry) (p : processor R F M) :
  names_kept p (set_log l p).
Proof. apply names_kept_same. reflexivity. Qed.

Lemma names_kept_clock (n : nat) (p : processor R F M) :
  names_kept p (set_clock n p).
Proof. apply names_kept_same. reflexivity. Qed.

Lemma names_kept_stdout (l : list string) (p : processor R F M) :
  names_kept p (set_stdout l p).
Proof. apply names_kept_same. reflexivity. Qed.

Lemma names_kept_last_flush_duration (d : number) (p : processor R F M) :
  names_kept p (set_last_flush_duration d p).
Proof. apply names_kept_same. reflexivity. Qed.

Lemma names_kept_last_process_duration (d : number) (p : processor R F M) :
  names_kept p (set_last_process_duration d p).
Proof. apply names_kept_same. reflexivity. Qed.

Lemma names_kept_process_timings (d : Dict.t number) (p : processor R F M) :
  names_kept p (set_process_timings d p).
Proof. apply names_kept_same. reflexivity. Qed.

Lemma names_kept_by_type (d : Dict.t Z) (p : processor R F M) :
  names_kept p (set_by_type d p).
Proof. apply names_kept_same. reflexivity. Qed.

Lemma keeps_names_ret {Y A : Type} (a : A) :
  keeps_names (R:=R) (F:=F) (M:=M) (ret (Y:=Y) a).
Proof. intros p. apply names_kept_refl. Qed.

Lemma keeps_names_raise {Y A : Type} (e : exn) :
  keeps_names (R:=R) (F:=F) (M:=M) (raise (Y:=Y) (A:=A) e).
Proof. intros p. apply names_kept_refl. Qed.

Lemma keeps_names_get {Y : Type} :
  keeps_names (R:=R) (F:=F) (M:=M) (get (Y:=Y)).
Proof. intros p. apply names_kept_refl. Qed.

Lemma keeps_names_yield {Y : Type} (y : Y) :
  keeps_names (R:=R) (F:=F) (M:=M) (yield y).
Proof. intros p. apply names_kept_refl. Qed.

Lemma keeps_names_lift {Y A : Type} (r : result A) :
  keeps_names (R:=R) (F:=F) (M:=M) (lift (Y:=Y) r).
Proof. destruct r; intros p; apply names_kept_refl. Qed.

Lemma keeps_names_item {Y A : Type} (l : list A) (i : nat) :
  keeps_names (R:=R) (F:=F) (M:=M) (item (Y:=Y) l i).
Proof.
  unfold item. destruct (nth_error l i); intros p; apply names_kept_refl.
Qed.

Lemma keeps_names_last_item {Y A : Type} (l : list A) :
  keeps_names (R:=R) (F:=F) (M:=M) (last_item (Y:=Y) l).
Proof.
  unfold last_item. destruct (rev l); intros p; apply names_kept_refl.
Qed.

Lemma keeps_names_modify {Y : Type}
    (g : processor R F M -> processor R F M) :
  (forall p, names_kept p (g p)) -> keeps_names (modify (Y:=Y) g).
Proof. intros Hg p. apply Hg. Qed.

Lemma keeps_names_bind {Y A B : Type} (m : method Y A)
    (k : A -> method Y B) :
  keeps_names (R:=R) (F:=F) (M:=M) m -> (forall a, keeps_names (k a)) ->
  keeps_names (bind m k).
Proof.
  intros Hm Hk p. unfold bind. specialize (Hm p).
  destruct (m p) as [[a|e] p' ys]; cbn [state] in *; [|exact Hm].
  specialize (Hk a p'). destruct (k a p') as [v p'' ys'].
  cbn [state] in *. eapply names_kept_trans; eassumption.
Qed.

Lemma keeps_names_for_each {Y A : Type} (l : list A)
    (body : A -> method Y unit) :
  (forall x, keeps_names (R:=R) (F:=F) (M:=M) (body x)) ->
  keeps_names (for_each l body).
Proof.
  intros Hbody. induction l as [|x l IH]; simpl.
  - apply keeps_names_ret.
  - apply keeps_names_bind; auto.
Qed.

Lemma keeps_names_drain (g : method (list emission) unit) :
  keeps_names (R:=R) (F:=F) (M:=M) g -> keeps_names (drain g).
Proof.
  intros Hg p. unfold drain. specialize (Hg p).
  now destruct (g p) as [[a|e] p' ys].
Qed.

Lemma keeps_names_now {Y : Type} (time_function : nat -> Float.t) :
  keeps_names (R:=R) (F:=F) (M:=M) (now (Y:=Y) time_function).
Proof. intros p. apply names_kept_same. reflexivity. Qed.

End Names.

(** Like the frame conditions, the growth of the names follows the
    structure of the code. *)
Ltac names_step :=
  lazymatch goal with
  | |- keeps_names (bind _ _) => apply keeps_names_bind; [|intros ?]
  | |- keeps_names (ret _) => apply keeps_names_ret
  | |- keeps_names (raise _) => apply keeps_names_raise
  | |- keeps_names get => apply keeps_names_get
  | |- keeps_names (yield _) => apply keeps_names_yield
  | |- keeps_names (lift _) => apply keeps_names_lift
  | |- keeps_names (item _ _) => apply keeps_names_item
  | |- keeps_names (last_item _) => apply keeps_names_last_item
  | |- keeps_names (now _) => apply keeps_names_now
  | |- keeps_names (drain _) => apply keeps_names_drain
  | |- keeps_names (for_each _ _) => apply keeps_names_for_each; intros ?
  | |- keeps_names (modify _) =>
      apply keeps_names_modify; intros ?;
      lazymatch goal with
      | |- names_kept _ (set_timer_metrics _ _) => apply names_kept_timers
      | |- names_kept _ (set_counter_metrics _ _) =>
          apply names_kept_counters
      | |- names_kept _ (set_gauge_metrics _ _) => apply names_kept_gauges
      | |- names_kept _ (set_meter_metrics _ _) => apply names_kept_meters
      | |- names_kept _ (set_plugin_metrics _ _) => apply names_kept_plugins
      | |- names_kept _ (set_log _ _) => apply names_kept_log
      | |- names_kept _ (set_clock _ _) => apply names_kept_clock
      | |- names_kept _ (set_stdout _ _) => apply names_kept_stdout
      | |- names_kept _ (set_last_flush_duration _ _) =>
          apply names_kept_last_flush_duration
      | |- names_kept _ (set_last_process_duration _ _) =>
          apply names_kept_last_process_duration
      | |- names_kept _ (set_process_timings _ _) =>
          apply names_kept_process_timings
      | |- names_kept _ (set_by_type _ _) => apply names_kept_by_type
      end
  | |- keeps_names (match ?x with _ => _ end) => destruct x
  | |- keeps_names (let _ := _ in _) => cbv zeta
  end.

Section NamesKept.

Variable float : string -> option Float.t.
Variable time_function : nat -> Float.t.
Context {R F M : Type} `{MeterMetricReporter R} `{Plugin F M}.

Lemma flush_keeps_names (interval percent : Z) :
  keeps_names (R:=R) (F:=F) (M:=M) (flush time_function interval percent).
Proof.
  unfold flush, flush_counter_metrics, flush_timer_metrics,
    flush_gauge_metrics, flush_meter_metrics, flush_plugin_metrics,
    flush_metrics_summary, timer_statistics.
  repeat names_step.
Qed.

Lemma process_keeps_names {Y : Type} (message : string) :
  keeps_names (R:=R) (F:=F) (M:=M)
              (process (Y:=Y) float time_function message).
Proof.
  unfold process, process_message, process_counter_metric,
    process_timer_metric, process_gauge_metric, process_meter_metric,
    process_plugin_metric, compose_counter_metric, compose_timer_metric,
    compose_gauge_metric, compose_meter_metric, record_timing, fail,
    float_of_rate, py_float.
  repeat names_step.
Qed.

(** X25. A flush forgets no name: whether it runs to its end or raises, the
    names listed before it are listed after it. *)
Theorem flush_forgets_no_name (interval percent : Z) (name : string)
    (p : processor R F M) :
  In name (get_metric_names p) ->
  In name (get_metric_names (state (flush time_function interval percent p))).
Proof. apply flush_keeps_names. Qed.

(** X26. [process] forgets no name: whatever the message, the names listed
    before it are listed after it. *)
Theorem process_forgets_no_name (message name : string)
    (p : processor R F M) :
  In name (get_metric_names p) ->
  In name (get_metric_names
             (state (process (Y:=emission) float time_function message p))).
Proof. apply process_keeps_names. Qed.

End NamesKept.

Lemma flush_forgets_no_name_witness :
  let p : processor (string * string * number) Empty_set Empty_set :=
    state (for_each ["a:1|c"; "t:5|ms"; "g:3|g"]
                    (process (Y:=emission) Literal.float frozen)
                    (MessageProcessor [])) in
  In "t" (get_metric_names (state (flush frozen 10000 90 p))).
Proof.
  intros p.
  apply (flush_forgets_no_name frozen 10000 90 "t" p).
  vm_compute. left. reflexivity.
Defined.

Lemma process_forgets_no_name_witness :
  let p : processor (string * string * number) Empty_set Empty_set :=
    state (process (Y:=emission) Literal.float frozen "a:1|c"
                   (MessageProcessor [])) in
  In "a" (get_metric_names
            (state (process (Y:=emission) Literal.float frozen
                            "b:x|g" p))).
Proof.
  intros p.
  apply (process_forgets_no_name Literal.float frozen "b:x|g" "a" p).
  vm_compute. left. reflexivity.
Defined.

(** ** Rebuilding a line *)

Section Rebuild.

Lemma split_once_append (sep : ascii) (s a b : string) :
  Bytes.split_once sep s = Some (a, b) -> s = a ++ String sep b.
Proof.
  revert a. induction s as [|c s IH]; intros a; simpl; [discriminate|].
  destruct (Ascii.eqb_spec c sep) as [->|Hne].
  - now intros [= <- <-].
  - destruct (Bytes.split_once sep s) as [[a' b']|]; [|discriminate].
    intros [= <- <-]. simpl. now rewrite <- (IH a' eq_refl).
Qed.

Lemma join_cons (sep x y : string) (rest : list string) :
  Bytes.join sep (x :: y :: rest) = x ++ sep ++ Bytes.join sep (y :: rest).
Proof. reflexivity. Qed.

Lemma join_split (sep : ascii) (s : string) :
  Bytes.join (String sep EmptyString) (Bytes.split sep s) = s.
Proof.
  induction s as [|c s IH]; [reflexivity|].
  cbn [Bytes.split]. destruct (Ascii.eqb_spec c sep) as [->|Hne].
  - destruct (Bytes.split sep s) as [|f fs] eqn:Hsplit;
      [now apply split_not_nil in Hsplit|].
    rewrite join_cons, IH. reflexivity.
  - destruct (Bytes.split sep s) as [|f fs] eqn:Hsplit;
      [now apply split_not_nil in Hsplit|].
    destruct fs as [|g fs].
    + cbn [Bytes.join] in *. now rewrite IH.
    + rewrite join_cons. rewrite join_cons in IH. rewrite <- IH.
      reflexivity.
Qed.

(** X27. [rebuild_message] undoes the cutting of [process]: from the key
    and the fields of a line it gives back the line, stripped of the
    whitespace around it. *)
Theorem rebuild_message_restores_line (message key : string)
    (fields : list string) (metric_type : string) :
  line message key fields ->
  rebuild_message metric_type key fields = Bytes.strip message.
Proof.
  intros (data & Hkey & <- & _). unfold rebuild_message.
  rewrite (join_split "|" data).
  symmetry. now apply split_once_append.
Qed.

End Rebuild.

Lemma rebuild_message_restores_line_witness :
  rebuild_message "c" "a b" ["1"; "c"; "@0.5"] = "a b:1|c|@0.5".
Proof.
  apply (rebuild_message_restores_line "  a b:1|c|@0.5 " "a b"
           ["1"; "c"; "@0.5"] "c").
  exists "1|c|@0.5". split; [reflexivity|]. split; [reflexivity|].
  cbn. lia.
Defined.

(** ** Qualified names *)

Section QualifiedNames.

Lemma string_app_inv_head (a b c : string) : a ++ b = a ++ c -> b = c.
Proof.
  induction a as [|x a IH]; simpl; [trivial|].
  intros [= Heq]. auto.
Qed.

(** X28. For a given namespace, [fully_qualify_name] gives different names
    different qualified names. *)
Theorem fully_qualify_name_injective (namespace : option string)
    (a b : string) :
  a <> b ->
  Metrics.fully_qualify_name namespace (Some a)
  <> Metrics.fully_qualify_name namespace (Some b).
Proof.
  intros Hne Heq. apply Hne. unfold Metrics.fully_qualify_name in Heq.
  destruct namespace as [ns|]; [|exact Heq].
  destruct (0 <? String.length ns)%nat; [|exact Heq].
  apply string_app_inv_head in Heq. now injection Heq.
Qed.

End QualifiedNames.

Lemma fully_qualify_name_injective_witness :
  Metrics.fully_qualify_name (Some "app") (Some "hits")
  <> Metrics.fully_qualify_name (Some "app") (Some "misses").
Proof.
  apply (fully_qualify_name_injective (Some "app") "hits" "misses").
  discriminate.
Defined.

(** ** The plugins of a processor *)

Section Plugins.

Context {R F M : Type} `{MeterMetricReporter R} `{Plugin F M}.

Lemma find_app {A : Type} (f : A -> bool) (l1 l2 : list A) :
  find f (l1 ++ l2)
  = match find f l1 with Some x => Some x | None => find f l2 end.
Proof.
  induction l1 as [|x l1 IH]; simpl; [reflexivity|].
  now destruct (f x).
Qed.

Lemma registered_get (metric : string) (plugin_list : list F) :
  forall d : Dict.t F,
    Dict.get metric
      (fold_left (fun d plugin => Dict.set (metric_type plugin) plugin d)
                 plugin_list d)
    = match find (fun plugin => String.eqb (metric_type plugin) metric)
                 (rev plugin_list) with
      | Some plugin => Some plugin
      | None => Dict.get metric d
      end.
Proof.
  induction plugin_list as [|x l IH]; intros d; [reflexivity|].
  cbn [fold_left rev]. rewrite IH, find_app. cbn [find].
  destruct (find _ (rev l)); [reflexivity|].
  destruct (String.eqb_spec (metric_type x) metric) as [<-|Hne].
  - apply get_set_same.
  - now apply get_set_other.
Qed.

(** X29. The constructor registers the plugins by their type: the plugin
    found for a type is the last plugin of that type in the list given to
    the constructor, and no plugin is found for a type that none has. *)
Theorem plugins_are_registered_by_type (metric : string)
    (plugin_list : list F) :
  Dict.get metric
           (plugins (MessageProcessor (R:=R) (M:=M) plugin_list))
  = find (fun plugin => String.eqb (metric_type plugin) metric)
         (rev plugin_list).
Proof.
  cbn [plugins MessageProcessor]. rewrite registered_get.
  now destruct (find _ _).
Qed.

End Plugins.
